(** * A dense feed-forward network trained by stochastic gradient descent

    Shallow embedding of the notebook's network code: [sigmoid],
    [d_sigmoid], [mse], [initialize_weights], [forward_pass], [predict],
    [MSE] and the class [DenseNetwork] with [train] and [predict].

    Numbers.  The notebook computes with numpy doubles.  Following the
    specification ("all operations are standard real matrix arithmetic")
    scalars are the real numbers [R]; rounding, overflow and NaN are not
    represented.  Python integers (layer sizes, loop indices, [L]) are [Z].

    Arrays.  A two-dimensional numpy array is its shape together with its
    entries; one-dimensional arrays (the rows [a[i]] that [mse] reads) are
    lists.  Binary operations broadcast axes of size one as numpy does and
    raise [ValueError] on shapes that cannot be broadcast together.

    Effects.  Exceptions are values of [result]; the methods of
    [DenseNetwork] run in a state-and-exception monad over the object's
    attributes, in which the attributes keep every assignment made before
    an exception was raised.  The [print] calls of [train] are not
    represented. *)

From Stdlib Require Import Reals ZArith List Lia Lra Psatz Bool.
From stdpp Require Import base option list gmap.
Import ListNotations.

(** ** Exceptions *)

(** The built-in exception classes the code can raise, followed by the three
    classes named in the specification's error taxonomy.  No code path of
    the notebook constructs one of the last three. *)
Inductive exn : Set :=
  | ZeroDivisionError
  | IndexError
  | KeyError
  | TypeError
  | ValueError
  | AttributeError
  | ConfigurationError
  | ShapeMismatchError
  | EmptyDatasetError.

Inductive result (A : Type) : Type :=
  | Ok (a : A)
  | Raise (e : exn).
Arguments Ok {A} a.
Arguments Raise {A} e.

#[global] Instance result_ret : MRet result := @Ok.
#[global] Instance result_bind : MBind result := λ A B f m,
  match m with
  | Ok a => f a
  | Raise e => Raise e
  end.
#[global] Instance result_fmap : FMap result := λ A B f m,
  match m with
  | Ok a => Ok (f a)
  | Raise e => Raise e
  end.

(** Left-to-right loop over a list that threads an accumulator and stops at
    the first exception. *)
Fixpoint foldM {A S : Type} (body : S → A → result S) (l : list A) (s : S)
  : result S :=
  match l with
  | [] => Ok s
  | x :: t => s' ← body s x; foldM body t s'
  end.

(** ** Python lists and ranges *)

Definition len {A : Type} (l : list A) : Z := Z.of_nat (length l).

(** [l[i]] with Python's negative indices. *)
Definition py_index {A : Type} (l : list A) (i : Z) : result A :=
  let k := if (i <? 0)%Z then (i + len l)%Z else i in
  if (k <? 0)%Z then Raise IndexError
  else match l !! Z.to_nat k with
       | Some x => Ok x
       | None => Raise IndexError
       end.

(** [l[i] = v]. *)
Definition py_setitem {A : Type} (l : list A) (i : Z) (v : A)
  : result (list A) :=
  let k := if (i <? 0)%Z then (i + len l)%Z else i in
  if (k <? 0)%Z then Raise IndexError
  else if (k <? len l)%Z then Ok (<[Z.to_nat k := v]> l)
  else Raise IndexError.

(** [range(start, stop)]. *)
Definition range (start stop : Z) : list Z :=
  map (λ k, (start + Z.of_nat k)%Z) (seq 0 (Z.to_nat (stop - start))).

(** [range(start, stop, -1)]. *)
Definition range_down (start stop : Z) : list Z :=
  map (λ k, (start - Z.of_nat k)%Z) (seq 0 (Z.to_nat (start - stop))).

(** [d[k]] on a dictionary. *)
Definition dict_get {V : Type} (d : gmap Z V) (k : Z) : result V :=
  match d !! k with
  | Some v => Ok v
  | None => Raise KeyError
  end.

(** ** numpy arrays *)

Record ndarray : Type := mk_ndarray {
  nrows : nat;
  ncols : nat;
  item : nat → nat → R
}.

Definition shape (a : ndarray) : nat * nat := (nrows a, ncols a).

(** The array [np.array(rows)] of a rectangular list of rows. *)
Definition of_rows (rows : list (list R)) : ndarray :=
  {| nrows := length rows;
     ncols := length (hd [] rows);
     item i j := nth j (nth i rows []) 0%R |}.

Definition zeros (r c : nat) : ndarray :=
  {| nrows := r; ncols := c; item _ _ := 0%R |}.

(** Broadcasting of one axis: equal sizes, or one of them is 1. *)
Definition bdim (m n : nat) : option nat :=
  if (m =? n)%nat then Some m
  else if (m =? 1)%nat then Some n
  else if (n =? 1)%nat then Some m
  else None.

(** Index into an axis of size [n] that may have been stretched. *)
Definition bidx (n i : nat) : nat := if (n =? 1)%nat then 0%nat else i.

Definition bget (a : ndarray) (i j : nat) : R :=
  item a (bidx (nrows a) i) (bidx (ncols a) j).

(** Elementwise binary operators [a + b], [a - b], [a * b]. *)
Definition binop (f : R → R → R) (a b : ndarray) : result ndarray :=
  match bdim (nrows a) (nrows b), bdim (ncols a) (ncols b) with
  | Some r, Some c =>
      Ok {| nrows := r; ncols := c; item i j := f (bget a i j) (bget b i j) |}
  | _, _ => Raise ValueError
  end.

(** [a -= b]: the broadcast result must have the shape of [a]. *)
Definition isub (a b : ndarray) : result ndarray :=
  c ← binop Rminus a b;
  if decide (shape c = shape a) then Ok c else Raise ValueError.

(** A scalar combined with an array, and elementwise functions. *)
Definition amap (f : R → R) (a : ndarray) : ndarray :=
  {| nrows := nrows a; ncols := ncols a; item i j := f (item a i j) |}.

Fixpoint rsum (f : nat → R) (n : nat) : R :=
  match n with
  | O => 0%R
  | S k => (rsum f k + f k)%R
  end.

(** [a @ b]. *)
Definition matmul (a b : ndarray) : result ndarray :=
  if decide (ncols a = nrows b) then
    Ok {| nrows := nrows a; ncols := ncols b;
          item i j := rsum (λ k, (item a i k * item b k j)%R) (ncols a) |}
  else Raise ValueError.

(** [a.T]. *)
Definition transpose (a : ndarray) : ndarray :=
  {| nrows := ncols a; ncols := nrows a; item i j := item a j i |}.

(** One-dimensional arrays: the row [a[i]] and the operators on rows. *)
Definition row (a : ndarray) (i : nat) : result (list R) :=
  if (i <? nrows a)%nat then Ok (map (item a i) (seq 0 (ncols a)))
  else Raise IndexError.

Definition binop1 (f : R → R → R) (u v : list R) : result (list R) :=
  match bdim (length u) (length v) with
  | Some n =>
      Ok (map (λ j, f (nth (bidx (length u) j) u 0%R)
                      (nth (bidx (length v) j) v 0%R)) (seq 0 n))
  | None => Raise ValueError
  end.

(** The running value of the built-in [sum]: it starts as the integer 0
    and becomes a one-dimensional array with the first addition. *)
Inductive pynum : Type :=
  | Scalar (r : R)
  | Array1 (v : list R).

Definition py_add (s : pynum) (v : list R) : result pynum :=
  match s with
  | Scalar r => Ok (Array1 (map (Rplus r) v))
  | Array1 u => Array1 <$> binop1 Rplus u v
  end.

(** [sum(gen)] for a generator whose items may raise. *)
Definition py_sum (gen : list (result (list R))) : result pynum :=
  foldM (λ s g, v ← g; py_add s v) gen (Scalar 0%R).

(** [s[0]]. *)
Definition subscript0 (s : pynum) : result R :=
  match s with
  | Scalar _ => Raise TypeError
  | Array1 v => match v with
                | x :: _ => Ok x
                | [] => Raise IndexError
                end
  end.

(** ** Activation and loss *)

(** [sigmoid(z) = 1.0/(1.0+np.exp(-z))] *)
Definition sigmoid (z : ndarray) : ndarray :=
  amap (Rdiv 1) (amap (Rplus 1) (amap exp (amap Ropp z))).

(** [d_sigmoid(z) = sigmoid(z)*(1.0 - sigmoid(z))] *)
Definition d_sigmoid (z : ndarray) : result ndarray :=
  binop Rmult (sigmoid z) (amap (Rminus 1) (sigmoid z)).

(** [mse(a, y) = .5*sum((a[i] - y[i])**2 for i in range(10))[0]] *)
Definition mse (a y : ndarray) : result R :=
  s ← py_sum (map (λ i, ai ← row a i;
                        yi ← row y i;
                        d ← binop1 Rminus ai yi;
                        Ok (map (λ t, t ^ 2)%R d))
                  (seq 0 10));
  x ← subscript0 s;
  Ok (0.5 * x)%R.

(** ** Parameter initialisation *)

(** The state of numpy's global generator: the samples that the coming
    calls of [np.random.randn] will return, in the order they are drawn. *)
Definition rng : Type := nat → R.

(** [np.random.randn(r, c)]: [r * c] fresh samples in row-major order;
    negative dimensions are rejected. *)
Definition randn (r c : Z) (g : rng) : result (ndarray * rng) :=
  if ((r <? 0) || (c <? 0))%Z then Raise ValueError
  else
    let nr := Z.to_nat r in
    let nc := Z.to_nat c in
    Ok ({| nrows := nr; ncols := nc; item i j := g (i * nc + j)%nat |},
        λ n, g (nr * nc + n)%nat).

(** [np.sqrt(2/n)] for a Python integer [n]; the division is Python's. *)
Definition sqrt_two_over (n : Z) : result R :=
  if (n =? 0)%Z then Raise ZeroDivisionError else Ok (sqrt (2 / IZR n)).

(** The Python list [[0.0]] stored at index 0 of [W] and [B].  No function
    of the notebook reads index 0 of either list. *)
Definition placeholder : ndarray := of_rows [[0%R]].

(** One iteration of the loop of [initialize_weights]. *)
Definition initialize_body (layers : list Z)
    (st : list ndarray * list ndarray * rng) (i : Z)
  : result (list ndarray * list ndarray * rng) :=
  let '(W, B, g) := st in
  n ← py_index layers i;
  p ← py_index layers (i - 1);
  '(w, g) ← randn n p g;
  p ← py_index layers (i - 1);
  s ← sqrt_two_over p;
  let w_temp := amap (λ t, t * s)%R w in
  n ← py_index layers i;
  '(b, g) ← randn n 1 g;
  p ← py_index layers (i - 1);
  s ← sqrt_two_over p;
  let b_temp := amap (λ t, t * s)%R b in
  Ok (W ++ [w_temp], B ++ [b_temp], g).

Definition initialize_weights (layers : list Z) (g : rng)
  : result (list ndarray * list ndarray * rng) :=
  foldM (initialize_body layers) (range 1 (len layers))
        ([placeholder], [placeholder], g).

(** ** Forward pass and prediction *)

(** What [forward_pass] returns, by the flag [predict_vector]: the pair
    [Z, A] or the last activation.  An entry [None] of [Z] is the Python
    list [[0.0]] at index 0. *)
Definition fp_ret (predict_vector : bool) : Type :=
  if predict_vector then ndarray
  else (list (option ndarray) * list ndarray)%type.

(** One iteration of the loop of [forward_pass]. *)
Definition forward_body (W B : list ndarray)
    (st : list (option ndarray) * list ndarray) (i : Z)
  : result (list (option ndarray) * list ndarray) :=
  let '(Zs, As) := st in
  Wi ← py_index W i;
  Ap ← py_index As (i - 1);
  m ← matmul Wi Ap;
  Bi ← py_index B i;
  z ← binop Rplus m Bi;
  let a := sigmoid z in
  Ok (Zs ++ [Some z], As ++ [a]).

Definition forward_pass (W B : list ndarray) (xi : ndarray)
    (predict_vector : bool) : result (fp_ret predict_vector) :=
  let L := (len W - 1)%Z in
  '(Zs, As) ← foldM (forward_body W B) (range 1 (L + 1)) ([None], [xi]);
  match predict_vector return result (fp_ret predict_vector) with
  | false => Ok (Zs, As)
  | true => py_index As (-1)
  end.

(** The array in row-major order, as [np.argmax] scans it. *)
Definition flatten (a : ndarray) : list R :=
  flat_map (λ i, map (item a i) (seq 0 (ncols a))) (seq 0 (nrows a)).

(** The scan of [np.argmax]: [best] is the index of the largest value [bv]
    seen so far, replaced only by a strictly larger one. *)
Fixpoint argmax_from (best : nat) (bv : R) (idx : nat) (l : list R) : nat :=
  match l with
  | [] => best
  | x :: t =>
      if Rlt_dec bv x then argmax_from idx x (S idx) t
      else argmax_from best bv (S idx) t
  end.

(** [np.argmax(a)]: the first index of the maximum of the flattened array;
    an empty array is rejected. *)
Definition argmax (a : ndarray) : result nat :=
  match flatten a with
  | [] => Raise ValueError
  | x :: t => Ok (argmax_from 0 x 1 t)
  end.

Definition predict (W B : list ndarray) (xi : ndarray) : result nat :=
  '(_, As) ← forward_pass W B xi false;
  a ← py_index As (-1);
  argmax a.

(** ** Dataset loss *)

Definition MSE_body (W B : list ndarray) (st : R * nat)
    (ex : ndarray * ndarray) : result (R * nat) :=
  let '(cost, m) := st in
  let '(xi, yi) := ex in
  a ← forward_pass W B xi true;
  e ← mse a yi;
  Ok ((cost + e)%R, S m).

Definition MSE (W B : list ndarray) (X y : list ndarray) : result R :=
  '(cost, m) ← foldM (MSE_body W B) (combine X y) (0%R, 0%nat);
  if (m =? 0)%nat then Raise ZeroDivisionError else Ok (cost / INR m)%R.

(** ** The network object *)

(** The attributes of a [DenseNetwork].  [errors_] is [None] while the
    attribute does not exist. *)
Record DenseNetwork : Type := mk_net {
  layers : list Z;
  W : list ndarray;
  B : list ndarray;
  errors_ : option (list R)
}.

(** Methods: a state transformer that may raise; the state it returns is
    the object as the exception (if any) left it. *)
Definition method (A : Type) : Type := DenseNetwork → result A * DenseNetwork.

Definition mpure {A : Type} (a : A) : method A := λ self, (Ok a, self).

Definition mthen {A C : Type} (m : method A) (k : A → method C) : method C :=
  λ self,
    match m self with
    | (Ok a, self') => k a self'
    | (Raise e, self') => (Raise e, self')
    end.

Notation "'do' x <~ m ; k" := (mthen m (λ x, k))
  (at level 10, x name, m at level 100, k at level 200,
   format "'[v' 'do'  x  <~  m ; '/' k ']'").

(** An expression that only reads the attributes. *)
Definition reading {A : Type} (f : DenseNetwork → result A) : method A :=
  λ self, (f self, self).

Definition set_W (v : list ndarray) : method unit :=
  λ self, (Ok (), mk_net (layers self) v (B self) (errors_ self)).

Definition set_B (v : list ndarray) : method unit :=
  λ self, (Ok (), mk_net (layers self) (W self) v (errors_ self)).

Definition set_errors_ (v : list R) : method unit :=
  λ self, (Ok (), mk_net (layers self) (W self) (B self) (Some v)).

(** [self.errors_.append(e)] *)
Definition append_errors_ (e : R) : method unit :=
  λ self,
    match errors_ self with
    | Some h => (Ok (), mk_net (layers self) (W self) (B self) (Some (h ++ [e])))
    | None => (Raise AttributeError, self)
    end.

(** A [for] loop whose body is a statement of a method. *)
Fixpoint for_ {A : Type} (l : list A) (body : A → method unit) : method unit :=
  match l with
  | [] => mpure ()
  | x :: t => do _ <~ body x; for_ t body
  end.

(** [DenseNetwork(layers)] *)
Definition init (layers : list Z) (g : rng) : result (DenseNetwork * rng) :=
  '(W, B, g) ← initialize_weights layers g;
  Ok (mk_net layers W B None, g).

(** [d_sigmoid(Z[i])] for an entry of [Z]: negating the Python list at
    index 0 is a [TypeError]. *)
Definition d_sigmoid_entry (z : option ndarray) : result ndarray :=
  match z with
  | Some z => d_sigmoid z
  | None => Raise TypeError
  end.

(** One iteration of the loop over the hidden layers:
    [deltas[i] = (self.W[i+1].T @ deltas[i+1])*d_sigmoid(Z[i])]. *)
Definition deltas_body (W : list ndarray) (Zs : list (option ndarray))
    (deltas : gmap Z ndarray) (i : Z) : result (gmap Z ndarray) :=
  Wn ← py_index W (i + 1);
  dn ← dict_get deltas (i + 1);
  m ← matmul (transpose Wn) dn;
  Zi ← py_index Zs i;
  ds ← d_sigmoid_entry Zi;
  d ← binop Rmult m ds;
  Ok (<[i := d]> deltas).

(** The forward pass and the error signals of one training pair.  These
    statements only read [self.W] and [self.B]. *)
Definition backward (W B : list ndarray) (xi yi : ndarray) (L : Z)
  : result (list ndarray * gmap Z ndarray) :=
  '(Zs, As) ← forward_pass W B xi false;
  AL ← py_index As L;
  e ← binop Rminus AL yi;
  ZL ← py_index Zs L;
  ds ← d_sigmoid_entry ZL;
  output_error ← binop Rmult e ds;
  deltas ← foldM (deltas_body W Zs) (range_down (L - 1) 0)
                 (<[L := output_error]> ∅);
  Ok (As, deltas).

(** One iteration of the update loop:
    [self.W[i] -= alpha*deltas[i] @ A[i-1].T] and
    [self.B[i] -= alpha*deltas[i]]. *)
Definition update_body (alpha : R) (deltas : gmap Z ndarray)
    (As : list ndarray) (i : Z) : method unit :=
  do w <~ reading (λ self,
            Wi ← py_index (W self) i;
            d ← dict_get deltas i;
            Ap ← py_index As (i - 1);
            g ← matmul (amap (Rmult alpha) d) (transpose Ap);
            Wi' ← isub Wi g;
            py_setitem (W self) i Wi');
  do _ <~ set_W w;
  do b <~ reading (λ self,
            Bi ← py_index (B self) i;
            d ← dict_get deltas i;
            Bi' ← isub Bi (amap (Rmult alpha) d);
            py_setitem (B self) i Bi');
  set_B b.

(** The body of the loop over the training pairs: one stochastic gradient
    step. *)
Definition train_step (alpha : R) (L : Z) (ex : ndarray * ndarray)
  : method unit :=
  let '(xi, yi) := ex in
  do r <~ reading (λ self, backward (W self) (B self) xi yi L);
  let '(As, deltas) := r in
  for_ (range 1 (L + 1)) (update_body alpha deltas As).

(** The body of the loop over the epochs: one pass over the training
    pairs, then the dataset loss is appended to [self.errors_]. *)
Definition epoch (X_train y_train : list ndarray) (alpha : R) (L : Z) (k : Z)
  : method unit :=
  do _ <~ for_ (combine X_train y_train) (train_step alpha L);
  do e <~ reading (λ self, MSE (W self) (B self) X_train y_train);
  append_errors_ e.

(** [DenseNetwork.train].  The unused [sample_size = len(X_train)] has no
    effect and is left out. *)
Definition train (X_train y_train : list ndarray) (alpha : R) (epochs : Z)
  : method unit :=
  do e0 <~ reading (λ self, MSE (W self) (B self) X_train y_train);
  do _ <~ set_errors_ [e0];
  do L <~ reading (λ self, Ok (len (layers self) - 1)%Z);
  for_ (range 0 epochs) (epoch X_train y_train alpha L).

(** [DenseNetwork.predict] *)
Definition net_predict (xi : ndarray) : method nat :=
  do depth <~ reading (λ self, Ok (len (layers self)));
  reading (λ self,
    '(_, As) ← forward_pass (W self) (B self) xi false;
    a ← py_index As (-1);
    argmax a).

(** ** Vocabulary of the statements *)

(** [W] and [B] fit the topology [sizes]: one entry per layer, and for every
    layer [i >= 1] a weight matrix of shape [(sizes[i], sizes[i-1])] and a
    bias column of shape [(sizes[i], 1)]. *)
Definition consistent (sizes : list nat) (Ws Bs : list ndarray) : Prop :=
  length Ws = length sizes ∧ length Bs = length sizes ∧
  Forall (λ i,
      shape (nth i Ws placeholder) = (nth i sizes 0, nth (i - 1) sizes 0) ∧
      shape (nth i Bs placeholder) = (nth i sizes 0, 1))
    (seq 1 (length sizes - 1)).

(** The scalar sigmoid and its derivative. *)
Definition sigma (t : R) : R := (1 / (1 + exp (- t)))%R.
Definition dsigma (t : R) : R := (sigma t * (1 - sigma t))%R.

(** The sum of the first [n] squared differences of two columns. *)
Definition sq_err (a y : ndarray) (n : nat) : R :=
  rsum (λ j, (item a j 0 - item y j 0) ^ 2)%R n.

(** Every entry of a running value of [sum] is at least 0. *)
Definition nonneg_num (s : pynum) : Prop :=
  match s with
  | Scalar r => (0 <= r)%R
  | Array1 v => Forall (λ t, (0 <= t)%R) v
  end.

(** What the forward pass has produced after layer [k]: [A[0]] is the
    input, and for [i = 1..k] the entries [Z[i]] and [A[i]] are computed
    from [W[i]], [A[i-1]] and [B[i]], all columns of the layer's size. *)
Definition forward_contract (sizes : list nat) (Ws Bs : list ndarray)
    (x : ndarray) (k : nat) (Zs : list (option ndarray)) (As : list ndarray)
  : Prop :=
  length Zs = S k ∧ length As = S k ∧ As !! 0 = Some x ∧
  (∀ i a, As !! i = Some a → shape a = (nth i sizes 0, 1)) ∧
  ∀ i, 1 ≤ i ≤ k →
    ∃ w b ap z,
      Ws !! i = Some w ∧ Bs !! i = Some b ∧ As !! (i - 1) = Some ap ∧
      Zs !! i = Some (Some z) ∧ As !! i = Some (sigmoid z) ∧
      (m ← matmul w ap; binop Rplus m b) = Ok z ∧
      shape z = (nth i sizes 0, 1) ∧
      ∀ r, r < nth i sizes 0 →
        item z r 0 =
        (rsum (λ c, item w r c * item ap c 0) (nth (i - 1) sizes 0%nat)
         + item b r 0)%R.

(** [k] is the first position of a maximum of [v]. *)
Definition first_max (v : list R) (k : nat) : Prop :=
  k < length v ∧
  (∀ j, j < length v → (nth j v 0 <= nth k v 0)%R) ∧
  (∀ j, j < k → (nth j v 0 < nth k v 0)%R).

(** The error signals held in the dictionary [deltas] for the layers
    [lo..L]: [deltas[L]] is [(A[L] - y) * d_sigmoid(Z[L])] and, below [L],
    [deltas[i]] is [(W[i+1].T @ deltas[i+1]) * d_sigmoid(Z[i])], entry by
    entry, each a column of the layer's size. *)
Definition delta_contract (sizes : list nat) (Ws : list ndarray)
    (Zs : list (option ndarray)) (As : list ndarray) (y : ndarray)
    (L lo : nat) (deltas : gmap Z ndarray) : Prop :=
  ∀ i, lo ≤ i ≤ L →
    ∃ d z,
      deltas !! Z.of_nat i = Some d ∧ Zs !! i = Some (Some z) ∧
      shape d = (nth i sizes 0, 1) ∧
      (i = L → ∃ aL, As !! L = Some aL ∧
         ∀ r, r < nth L sizes 0 →
           item d r 0 = ((item aL r 0 - item y r 0) * dsigma (item z r 0))%R) ∧
      (i < L → ∃ w dn,
         Ws !! S i = Some w ∧ deltas !! Z.of_nat (S i) = Some dn ∧
         ∀ r, r < nth i sizes 0 →
           item d r 0 =
           (rsum (λ k, item w k r * item dn k 0) (nth (S i) sizes 0%nat)
            * dsigma (item z r 0))%R).

(** The parameters [Ws', Bs'] after the update loop has handled the layers
    [1..k] of [Ws, Bs]: every other entry is untouched, and in a handled
    layer [W[i]] has lost [alpha * deltas[i] @ A[i-1].T] and [B[i]] has lost
    [alpha * deltas[i]], entry by entry, keeping their shapes. *)
Definition update_contract (alpha : R) (deltas : gmap Z ndarray)
    (As : list ndarray) (Ws Bs Ws' Bs' : list ndarray) (k : nat) : Prop :=
  length Ws' = length Ws ∧ length Bs' = length Bs ∧
  (∀ i, i = 0 ∨ k < i → Ws' !! i = Ws !! i ∧ Bs' !! i = Bs !! i) ∧
  ∀ i, 1 ≤ i ≤ k →
    ∃ w b w' b' d ap,
      Ws !! i = Some w ∧ Bs !! i = Some b ∧
      Ws' !! i = Some w' ∧ Bs' !! i = Some b' ∧
      deltas !! Z.of_nat i = Some d ∧ As !! (i - 1) = Some ap ∧
      shape w' = shape w ∧ shape b' = shape b ∧
      (∀ r c, r < nrows w → c < ncols w →
         item w' r c = (item w r c - alpha * item d r 0 * item ap c 0)%R) ∧
      (∀ r, r < nrows b →
         item b' r 0 = (item b r 0 - alpha * item d r 0)%R).

(** The layer sizes of a network object as natural numbers. *)
Definition topology (net : DenseNetwork) : list nat :=
  map Z.to_nat (layers net).

(** Every training pair is an input column of [sizes[0]] entries with a
    label column of [sizes[L]] entries. *)
Definition example_fits (sizes : list nat) (ex : ndarray * ndarray) : Prop :=
  shape ex.1 = (nth 0 sizes 0, 1) ∧
  shape ex.2 = (nth (length sizes - 1) sizes 0, 1).

Definition examples_fit (sizes : list nat) (X Y : list ndarray) : Prop :=
  Forall (example_fits sizes) (combine X Y).

(** A method that leaves an attribute (a field of the object) as it found
    it, whether it returns or raises. *)
Definition keeps {T A : Type} (field : DenseNetwork → T) (m : method A)
  : Prop :=
  ∀ self, field (m self).2 = field self.

(** ** Example data *)

(** A network of topology [2, 3, 2] with one training pair. *)
Definition net_232 : DenseNetwork :=
  mk_net [2; 3; 2]%Z
    [placeholder; of_rows [[1; 2]; [3; 4]; [5; 6]]%R;
     of_rows [[1; 0; 1]; [0; 1; 0]]%R]
    [placeholder; of_rows [[0]; [1]; [0]]%R; of_rows [[1]; [0]]%R]
    None.
Definition x_232 : ndarray := of_rows [[1]; [0]]%R.
Definition y_232 : ndarray := of_rows [[1]; [0]]%R.

(** A generator whose samples are all 1, a one-input ten-output topology,
    and one training pair for it. *)
Definition ones_rng : rng := λ _, 1%R.
Definition layers_1_10 : list Z := [1; 10]%Z.
Definition X_1_10 : list ndarray := [of_rows [[1%R]]].
Definition Y_1_10 : list ndarray := [zeros 10 1].

(** The network that [DenseNetwork([1, 10])] builds from [ones_rng]: every
    sample is 1, scaled by [sqrt(2/1)]. *)
Definition scaled_ones (r c : nat) (p : Z) : ndarray :=
  amap (λ t, t * sqrt (2 / IZR p))%R (mk_ndarray r c (λ _ _, 1%R)).
Definition net_1_10 : DenseNetwork :=
  mk_net layers_1_10 [placeholder; scaled_ones 10 1 1]
    [placeholder; scaled_ones 10 1 1] None.

(** ** Vocabulary of the further properties *)

(** The array [a] after the assignment [a[r][c] = v] of one entry. *)
Definition set_entry (a : ndarray) (r c : nat) (v : R) : ndarray :=
  {| nrows := nrows a; ncols := ncols a;
     item i j := if decide (i = r ∧ j = c) then v else item a i j |}.

(** Two arrays of one shape whose entries agree. *)
Definition same_array (a b : ndarray) : Prop :=
  shape a = shape b ∧
  ∀ i j, i < nrows a → j < ncols a → item a i j = item b i j.

(** The only exceptions a computation can raise are those of [P]. *)
Definition raises_only {A : Type} (P : exn → Prop) (r : result A) : Prop :=
  ∀ e, r = Raise e → P e.

(** A shape error or a bad index: what the array code raises. *)
Definition index_or_value (e : exn) : Prop := e = IndexError ∨ e = ValueError.

(** The shapes of all parameters of a network object. *)
Definition shapes (net : DenseNetwork) : list (nat * nat) * list (nat * nat) :=
  (shape <$> W net, shape <$> B net).

(** Entry by entry, the parameter lists [Ws'] hold the arrays of [Ws]. *)
Definition same_arrays (Ws Ws' : list ndarray) : Prop :=
  length Ws' = length Ws ∧
  ∀ i w w', Ws !! i = Some w → Ws' !! i = Some w' → same_array w' w.

(** The value a computation returned, 0 when it raised. *)
Definition value_or_0 (r : result R) : R :=
  match r with
  | Ok v => v
  | Raise _ => 0%R
  end.

(** The layer sizes the initializer accepts: every size that is used as a
    number of columns (a fan-in) is positive, every size that is used as a
    number of rows is non-negative. *)
Definition sizes_accepted (layers : list Z) : Prop :=
  ∀ i n p, 1 ≤ i → layers !! i = Some n → layers !! (i - 1) = Some p →
    (0 <= n)%Z ∧ (0 < p)%Z.

Definition value_or_zero_division (e : exn) : Prop :=
  e = ValueError ∨ e = ZeroDivisionError.

(** The number of samples drawn for the layers [1..i]: one per weight and
    one per bias. *)
Fixpoint drawn (sizes : list nat) (i : nat) : nat :=
  match i with
  | 0 => 0
  | S k => drawn sizes k + nth (S k) sizes 0 * nth k sizes 0 + nth (S k) sizes 0
  end.

(** The positions, in the order of drawing, of the samples that become
    the weight [W[i][r][c]] and the bias [B[i][r][0]]. *)
Definition weight_sample (sizes : list nat) (i r c : nat) : nat :=
  drawn sizes (i - 1) + (r * nth (i - 1) sizes 0 + c).

Definition bias_sample (sizes : list nat) (i r : nat) : nat :=
  drawn sizes (i - 1) + nth i sizes 0 * nth (i - 1) sizes 0 + r.

(** The object [net] with the loss history [h]. *)
Definition with_errors_ (net : DenseNetwork) (h : list R) : DenseNetwork :=
  mk_net (layers net) (W net) (B net) (Some h).

(** Two objects that differ in the older part of the loss history only:
    [b] holds the entries [pre] before the history of [a], which starts
    with [v]. *)
Definition resumed (pre : list R) (v : R) (a b : DenseNetwork) : Prop :=
  layers a = layers b ∧ W a = W b ∧ B a = B b ∧
  ∃ h, errors_ a = Some (v :: h) ∧ errors_ b = Some (pre ++ v :: h).

(** A method that behaves alike on two such objects. *)
Definition simulates (pre : list R) (v : R) {A : Type} (m : method A) : Prop :=
  ∀ a b, resumed pre v a b →
    (m a).1 = (m b).1 ∧ resumed pre v (m a).2 (m b).2.

(** What [train] can raise on a network of [n] layer sizes. *)
Definition train_raises (n : nat) (e : exn) : Prop :=
  e = IndexError ∨ e = ValueError ∨ e = ZeroDivisionError ∨
  (e = TypeError ∧ n ≤ 1).

(** What one gradient step can raise, by the index [L] of the output
    layer. *)
Definition step_raises (L : Z) (e : exn) : Prop :=
  index_or_value e ∨ (e = TypeError ∧ (L <= 0)%Z).

(** Whatever the object is, the method raises exceptions of [P] only. *)
Definition may_raise {A : Type} (P : exn → Prop) (m : method A) : Prop :=
  ∀ self, raises_only P (m self).1.

(** ** Label encoding

    The data preparation of the network notebook: the loops that build
    [onehot_train_y] and [onehot_test_y]. *)

(** An integer index into an axis of [n] entries of a numpy array. *)
Definition np_index (n : nat) (i : Z) : result nat :=
  let k := if (i <? 0)%Z then (i + Z.of_nat n)%Z else i in
  if ((k <? 0) || (Z.of_nat n <=? k))%Z then Raise IndexError
  else Ok (Z.to_nat k).

(** The array [a] after [a[r] = v], which fills row [r]. *)
Definition set_row (a : ndarray) (r : nat) (v : R) : ndarray :=
  {| nrows := nrows a; ncols := ncols a;
     item i j := if decide (i = r) then v else item a i j |}.

(** The encoding of a training label:
    [temp_vec = np.zeros((10, 1)); temp_vec[y][0] = 1.0]. *)
Definition onehot_train (y : Z) : result ndarray :=
  let temp_vec := zeros 10 1 in
  r ← np_index (nrows temp_vec) y;
  c ← np_index (ncols temp_vec) 0;
  Ok (set_entry temp_vec r c 1%R).

(** The encoding of a test label:
    [temp_vec = np.zeros((10, 1)); temp_vec[y] = 1.0]. *)
Definition onehot_test (y : Z) : result ndarray :=
  let temp_vec := zeros 10 1 in
  r ← np_index (nrows temp_vec) y;
  Ok (set_row temp_vec r 1%R).

(** The loss of one example under the parameters [Ws], [Bs]: the term that
    [MSE] adds for the pair [(x, y)]. *)
Definition example_loss (Ws Bs : list ndarray) (x y : ndarray) : result R :=
  a ← forward_pass Ws Bs x true;
  mse a y.

(** The parameter list [Ws] with the entry [(r, c)] of its array at index
    [i] replaced by [t]. *)
Definition with_entry (Ws : list ndarray) (i r c : nat) (t : R)
  : list ndarray :=
  alter (λ w, set_entry w r c t) i Ws.

(** ** The forward pass, entry by entry *)

(** Row [r] of [w @ a + b] for a column [a] of [n] entries. *)
Definition affine_entry (w b : ndarray) (n : nat) (a : nat → R) (r : nat) : R :=
  (rsum (λ c, item w r c * a c) n + item b r 0)%R.

(** Entry [r] of the activation [A[i]] that the forward pass computes from
    the parameters [Ws], [Bs] and the input [x]. *)
Fixpoint act_entry (sizes : list nat) (Ws Bs : list ndarray) (x : ndarray)
    (i : nat) : nat → R :=
  match i with
  | 0 => λ r, item x r 0
  | S k => λ r,
      sigma (affine_entry (nth (S k) Ws placeholder) (nth (S k) Bs placeholder)
                          (nth k sizes 0%nat) (act_entry sizes Ws Bs x k) r)
  end.

(** Entry [r] of the pre-activation [Z[k+1]]. *)
Definition pre_entry (sizes : list nat) (Ws Bs : list ndarray) (x : ndarray)
    (k : nat) (r : nat) : R :=
  affine_entry (nth (S k) Ws placeholder) (nth (S k) Bs placeholder)
               (nth k sizes 0%nat) (act_entry sizes Ws Bs x k) r.

(** The parameters [Ws'] hold the entries of [Ws] at index [j]. *)
Definition same_items (Ws Ws' : list ndarray) (j : nat) : Prop :=
  ∀ r c, item (nth j Ws' placeholder) r c = item (nth j Ws placeholder) r c.

(** How the pre-activations [Z[p+1+m]] move, entry by entry, when those of
    [Z[p+1]] move by [d0]: the derivative of the forward pass along a
    direction. *)
Fixpoint tangent (sizes : list nat) (Ws Bs : list ndarray) (x : ndarray)
    (p : nat) (d0 : nat → R) (m : nat) : nat → R :=
  match m with
  | 0 => d0
  | S m' => λ k,
      rsum (λ r, item (nth (S (S (p + m'))) Ws placeholder) k r
                 * (dsigma (pre_entry sizes Ws Bs x (p + m') r)
                    * tangent sizes Ws Bs x p d0 m' r))%R
           (nth (S (p + m')) sizes 0%nat)
  end.

(** ** Classification accuracy *)

(** A list comprehension whose element expression calls a method. *)
Fixpoint comprehension {A C : Type} (f : A → method C) (l : list A)
  : method (list C) :=
  match l with
  | [] => mpure []
  | a :: t => do c <~ f a; do cs <~ comprehension f t; mpure (c :: cs)
  end.

(** [sum] of a list of Python integers. *)
Definition py_sum_int (l : list Z) : Z := foldl Z.add 0%Z l.

(** [int(net.predict(x) == y)] *)
Definition is_hit (p : ndarray * Z) : method Z :=
  let '(x, y) := p in
  do k <~ net_predict x;
  mpure (if (Z.of_nat k =? y)%Z then 1%Z else 0%Z).

(** The accuracy expression of the notebook:
    [sum([int(net.predict(x) == y) for x, y in zip(X, labels)])/len(onehot)]. *)
Definition accuracy (X : list ndarray) (labels : list Z)
    (onehot : list ndarray) : method R :=
  do hits <~ comprehension is_hit (combine X labels);
  reading (λ _, if (len onehot =? 0)%Z then Raise ZeroDivisionError
                else Ok (IZR (py_sum_int hits) / IZR (len onehot))%R).

(** The network classifies the input of the pair as the pair's label. *)
Definition classified (net : DenseNetwork) (p : ndarray * Z) : Prop :=
  ∃ k, predict (W net) (B net) p.1 = Ok k ∧ Z.of_nat k = p.2.

(** ** Centering a data matrix (principal component analysis)

    The first step of the notebook of lecture 10, before the singular value
    decomposition of the centered matrix. *)

(** [X.mean(axis = 0)]: the mean of every column, a one-dimensional
    array. *)
Definition mean_axis0 (X : ndarray) : list R :=
  map (λ j, (rsum (λ i, item X i j) (nrows X) / INR (nrows X))%R)
      (seq 0 (ncols X)).

(** [A = X - X.mean(axis = 0)]: the one-dimensional array is broadcast as
    a row. *)
Definition center (X : ndarray) : result ndarray :=
  binop Rminus X (of_rows [mean_axis0 X]).

(** * Verification *)

(** ** Loops, lists and ranges *)

Lemma bind_Ok {A C : Type} (a : A) (f : A → result C) : (Ok a ≫= f) = f a.
Proof. reflexivity. Qed.

Lemma foldM_app {A S : Type} (body : S → A → result S) (l1 l2 : list A) (s : S) :
  foldM body (l1 ++ l2) s = (s' ← foldM body l1 s; foldM body l2 s').
Proof.
  revert s; induction l1 as [|x l1 IH]; intros s; simpl; [done|].
  destruct (body s x) as [s'|e]; simpl; [apply IH | done].
Qed.

Lemma py_index_nat {A : Type} (l : list A) (i : nat) :
  py_index l (Z.of_nat i) =
  match l !! i with Some x => Ok x | None => Raise IndexError end.
Proof.
  unfold py_index.
  destruct (Z.ltb_spec (Z.of_nat i) 0) as [?|_]; [lia|].
  destruct (Z.ltb_spec (Z.of_nat i) 0) as [?|_]; [lia|].
  by rewrite Nat2Z.id.
Qed.

Lemma py_index_Some {A : Type} (l : list A) (i : nat) (x : A) :
  l !! i = Some x → py_index l (Z.of_nat i) = Ok x.
Proof. intros H. by rewrite py_index_nat, H. Qed.

Lemma py_index_last {A : Type} (l : list A) (x : A) :
  py_index (l ++ [x]) (-1) = Ok x.
Proof.
  unfold py_index, len. rewrite length_app; simpl.
  destruct (Z.ltb_spec (-1) 0) as [_|?]; [|lia].
  destruct (Z.ltb_spec (-1 + Z.of_nat (length l + 1)) 0) as [?|_]; [lia|].
  replace (Z.to_nat (-1 + Z.of_nat (length l + 1))) with (length l) by lia.
  by rewrite list_lookup_middle.
Qed.

Lemma py_setitem_nat {A : Type} (l : list A) (i : nat) (v : A) :
  i < length l → py_setitem l (Z.of_nat i) v = Ok (<[i := v]> l).
Proof.
  intros Hi. unfold py_setitem, len.
  destruct (Z.ltb_spec (Z.of_nat i) 0) as [?|_]; [lia|].
  destruct (Z.ltb_spec (Z.of_nat i) 0) as [?|_]; [lia|].
  destruct (Z.ltb_spec (Z.of_nat i) (Z.of_nat (length l))) as [_|?]; [|lia].
  by rewrite Nat2Z.id.
Qed.

Lemma range_from_1 (n : nat) :
  range 1 (Z.of_nat n + 1) = map Z.of_nat (seq 1 n).
Proof.
  unfold range. replace (Z.to_nat (Z.of_nat n + 1 - 1)) with n by lia.
  rewrite <- (fmap_S_seq 0 n), <- list_fmap_compose.
  apply map_ext; intros k; simpl; lia.
Qed.

Lemma range_from_0 (n : Z) :
  length (range 0 n) = Z.to_nat n.
Proof. unfold range. by rewrite length_map, length_seq, Z.sub_0_r. Qed.

Example py_index_negative : py_index [10; 20; 30]%Z (-1) = Ok 30%Z.
Proof. reflexivity. Qed.

Example py_index_out_of_range :
  py_index [10; 20; 30]%Z 3 = Raise IndexError ∧
  py_index [10; 20; 30]%Z (-4) = Raise IndexError.
Proof. split; reflexivity. Qed.

Example range_layers : range 1 (3 + 1) = [1; 2; 3]%Z.
Proof. reflexivity. Qed.

Example range_down_layers :
  range_down (3 - 1) 0 = [2; 1]%Z ∧ range_down (1 - 1) 0 = [].
Proof. split; reflexivity. Qed.

(** ** Arrays *)

Example broadcast_column_against_scalar_array :
  shape <$> binop Rplus (zeros 3 1) (zeros 1 1) = Ok (3, 1) ∧
  binop Rplus (zeros 3 1) (zeros 2 1) = Raise ValueError ∧
  isub (zeros 1 1) (zeros 3 1) = Raise ValueError.
Proof. repeat split; reflexivity. Qed.

Lemma bdim_same (n : nat) : bdim n n = Some n.
Proof. unfold bdim. by rewrite Nat.eqb_refl. Qed.

Lemma bidx_lt (n i : nat) : i < n → bidx n i = i.
Proof.
  unfold bidx. destruct (Nat.eqb_spec n 1); [lia | done].
Qed.

Lemma rsum_ext (f g : nat → R) (n : nat) :
  (∀ i, i < n → f i = g i) → rsum f n = rsum g n.
Proof.
  induction n as [|n IH]; intros H; simpl; [done|].
  rewrite IH, H by (intros; auto with lia). done.
Qed.

Lemma rsum_nonneg (f : nat → R) (n : nat) :
  (∀ i, (0 <= f i)%R) → (0 <= rsum f n)%R.
Proof.
  intros H. induction n as [|n IH]; simpl; [lra|].
  specialize (H n). lra.
Qed.

Lemma rsum_zero (f : nat → R) (n : nat) :
  (∀ i, f i = 0%R) → rsum f n = 0%R.
Proof.
  intros H. induction n as [|n IH]; simpl; [done|].
  rewrite IH, H. lra.
Qed.

(** ** The per-example loss *)

Lemma row_column (a : ndarray) (i : nat) :
  i < nrows a → ncols a = 1 → row a i = Ok [item a i 0].
Proof.
  intros Hi Hc. unfold row. rewrite Hc.
  destruct (Nat.ltb_spec i (nrows a)); [done | lia].
Qed.

Lemma row_out_of_range (a : ndarray) (i : nat) :
  nrows a ≤ i → row a i = Raise IndexError.
Proof.
  intros Hi. unfold row.
  destruct (Nat.ltb_spec i (nrows a)); [lia | done].
Qed.

(** On two columns of at least ten rows [mse] is half the sum of the first
    ten squared differences. *)
Lemma mse_columns (a y : ndarray) :
  10 ≤ nrows a → 10 ≤ nrows y → ncols a = 1 → ncols y = 1 →
  mse a y = Ok (0.5 * sq_err a y 10)%R.
Proof.
  intros Ha Hy Hca Hcy. unfold mse, py_sum. simpl seq. simpl map.
  rewrite !(row_column a), !(row_column y) by (done || lia).
  reflexivity.
Qed.

(** On columns of fewer than ten rows the tenth-row loop runs off the end. *)
Lemma mse_short (a y : ndarray) :
  nrows a < 10 → ncols a = 1 → ncols y = 1 → nrows y = nrows a →
  mse a y = Raise IndexError.
Proof.
  intros Ha Hca Hcy Hy. unfold mse, py_sum. simpl seq. simpl map.
  remember (nrows a) as k eqn:Hk.
  do 10 (destruct k as [|k];
    [ rewrite ?(row_column a), ?(row_column y) by (done || lia);
      rewrite (row_out_of_range a) by lia; reflexivity | ]).
  lia.
Qed.

Example mse_one_hot_miss :
  mse (of_rows [[1]; [0]; [0]; [0]; [0]; [0]; [0]; [0]; [0]; [0]])%R
      (of_rows [[0]; [1]; [0]; [0]; [0]; [0]; [0]; [0]; [0]; [0]])%R
  = Ok 1%R.
Proof.
  rewrite mse_columns by (simpl; lia || done).
  f_equal. unfold sq_err. simpl. lra.
Qed.

(** C3, as amended: on two column vectors of equal length [k], [mse]
    returns half the sum of the squared differences of the first ten
    entries when [k] is at least ten (for [k = 10] that is the sum over all
    entries), and raises [IndexError] when [k] is below ten. *)
Theorem mse_first_ten (a y : ndarray) (k : nat) :
  shape a = (k, 1) → shape y = (k, 1) →
  mse a y = if decide (10 ≤ k) then Ok (0.5 * sq_err a y 10)%R
            else Raise IndexError.
Proof.
  intros [= Ha Hca] [= Hy Hcy]. case_decide.
  - apply mse_columns; lia.
  - apply mse_short; lia.
Qed.

Lemma mse_first_ten_witness :
  mse (zeros 10 1) (of_rows [[1]; [0]; [0]; [0]; [0]; [0]; [0]; [0]; [0]; [0]])%R
  = Ok (0.5 * sq_err (zeros 10 1)
          (of_rows [[1]; [0]; [0]; [0]; [0]; [0]; [0]; [0]; [0]; [0]]) 10)%R.
Proof.
  exact (mse_first_ten (zeros 10 1)
           (of_rows [[1]; [0]; [0]; [0]; [0]; [0]; [0]; [0]; [0]; [0]])%R
           10 eq_refl eq_refl).
Defined.

(** C3, as stated, fails for [k = 11]: the eleventh entries differ, the
    sum over all eleven squared differences is 1, and [mse] returns 0. *)
Lemma mse_not_full_sum :
  let a := of_rows [[0]; [0]; [0]; [0]; [0]; [0]; [0]; [0]; [0]; [0]; [1]]%R in
  let y := zeros 11 1 in
  shape a = (11, 1) ∧ shape y = (11, 1) ∧
  mse a y = Ok 0%R ∧ mse a y ≠ Ok (0.5 * sq_err a y 11)%R.
Proof.
  intros a y. split; [reflexivity|]. split; [reflexivity|].
  assert (mse a y = Ok 0%R) as H.
  { rewrite mse_columns by (simpl; lia || done).
    f_equal. unfold sq_err. simpl. lra. }
  split; [exact H|]. rewrite H. intros [= E].
  unfold sq_err in E. simpl in E. lra.
Qed.

Lemma foldM_invariant {A S : Type} (P : S → Prop) (body : S → A → result S)
    (l : list A) (s0 s : S) :
  (∀ s1 x s2, x ∈ l → P s1 → body s1 x = Ok s2 → P s2) →
  P s0 → foldM body l s0 = Ok s → P s.
Proof.
  revert s0. induction l as [|x l IH]; intros s0 Hstep H0; cbn [foldM].
  - by intros [= <-].
  - destruct (body s0 x) as [s1|e] eqn:E; [|done]. rewrite bind_Ok.
    apply IH.
    + intros s1' x' s2 Hx. apply Hstep. by right.
    + eapply Hstep; [by left | done | done].
Qed.

Lemma nth_nonneg (v : list R) (j : nat) :
  Forall (λ t, (0 <= t)%R) v → (0 <= nth j v 0)%R.
Proof.
  intros Hv. revert j. induction Hv as [|t v Ht Hv IH]; intros [|j]; simpl;
    try lra; auto.
Qed.

Lemma py_add_nonneg (s s' : pynum) (v : list R) :
  nonneg_num s → Forall (λ t, (0 <= t)%R) v → py_add s v = Ok s' →
  nonneg_num s'.
Proof.
  intros Hs Hv. destruct s as [r|u]; simpl.
  - intros [= <-]. simpl. apply Forall_forall. intros t Ht.
    apply list_elem_of_fmap in Ht as (t0 & -> & Ht0).
    rewrite Forall_forall in Hv. specialize (Hv t0 Ht0). simpl in Hs. lra.
  - unfold binop1. destruct (bdim (length u) (length v)) as [n|]; [|done].
    intros [= <-]. simpl. apply Forall_forall. intros t Ht.
    apply list_elem_of_fmap in Ht as (j & -> & _).
    pose proof (nth_nonneg u (bidx (length u) j) Hs).
    pose proof (nth_nonneg v (bidx (length v) j) Hv). lra.
Qed.

Lemma mse_nonneg (a y : ndarray) (v : R) : mse a y = Ok v → (0 <= v)%R.
Proof.
  unfold mse, py_sum.
  destruct (foldM _ _ _) as [s|e] eqn:E; [|done]. rewrite bind_Ok.
  assert (nonneg_num s) as Hs.
  { revert E. apply foldM_invariant; [|simpl; lra].
    intros s1 g s2 Hg Hs1.
    apply list_elem_of_fmap in Hg as (i & -> & _).
    destruct (row a i) as [ai|]; [|done]. rewrite bind_Ok.
    destruct (row y i) as [yi|]; [|done]. rewrite bind_Ok.
    destruct (binop1 Rminus ai yi) as [d|]; [|done]. rewrite !bind_Ok.
    apply py_add_nonneg; [done|].
    apply Forall_forall. intros t Ht.
    apply list_elem_of_fmap in Ht as (t0 & -> & _). apply pow2_ge_0. }
  destruct s as [r|[|x t]]; try done.
  simpl. intros [= <-]. apply Forall_inv in Hs. lra.
Qed.

(** C8, as amended: for column vectors of at least ten entries [mse a a]
    is 0 and [mse a y] returns a value that is not negative; and on any
    two arrays, whatever value [mse] returns is not negative. *)
Theorem mse_zero_and_nonneg (a y : ndarray) (k : nat) :
  shape a = (k, 1) → shape y = (k, 1) → 10 ≤ k →
  mse a a = Ok 0%R ∧ (∃ v, mse a y = Ok v ∧ (0 <= v)%R) ∧
  ∀ a' y' v', mse a' y' = Ok v' → (0 <= v')%R.
Proof.
  intros [= Ha Hca] [= Hy Hcy] Hk. split_and!.
  - rewrite mse_columns by lia. f_equal.
    unfold sq_err. rewrite rsum_zero; [lra|].
    intros i. rewrite Rminus_diag. simpl. lra.
  - eexists. split; [apply mse_columns; lia|].
    assert (0 <= sq_err a y 10)%R; [|lra].
    apply rsum_nonneg. intros i. apply pow2_ge_0.
  - apply mse_nonneg.
Qed.

Lemma mse_zero_and_nonneg_witness :
  mse (zeros 10 1) (zeros 10 1) = Ok 0%R ∧
  (∃ v, mse (zeros 10 1) (of_rows [[1]; [0]; [0]; [0]; [0]; [0]; [0]; [0]; [0]; [0]])%R
        = Ok v ∧ (0 <= v)%R) ∧
  ∀ a' y' v', mse a' y' = Ok v' → (0 <= v')%R.
Proof.
  exact (mse_zero_and_nonneg (zeros 10 1)
           (of_rows [[1]; [0]; [0]; [0]; [0]; [0]; [0]; [0]; [0]; [0]])%R
           10 eq_refl eq_refl (Nat.le_refl 10)).
Defined.

(** C8, as stated, fails on a vector of three entries: [mse a a] raises
    [IndexError] at the fourth row instead of returning 0. *)
Lemma mse_self_short_raises :
  let a := of_rows [[1]; [2]; [3]]%R in
  shape a = (3, 1) ∧ mse a a = Raise IndexError ∧ mse a a ≠ Ok 0%R.
Proof.
  intros a. assert (mse a a = Raise IndexError) as H by reflexivity.
  split; [reflexivity|]. split; [exact H|]. by rewrite H.
Qed.

(** ** The forward pass *)

Lemma consistent_layer (sizes : list nat) (Ws Bs : list ndarray) (i : nat) :
  consistent sizes Ws Bs → 1 ≤ i < length sizes →
  ∃ w b, Ws !! i = Some w ∧ Bs !! i = Some b ∧
         shape w = (nth i sizes 0, nth (i - 1) sizes 0) ∧
         shape b = (nth i sizes 0, 1).
Proof.
  intros (HW & HB & Hall) Hi.
  rewrite Forall_forall in Hall.
  destruct (Hall i) as [Hw Hb]; [apply elem_of_seq; lia|].
  destruct (lookup_lt_is_Some_2 Ws i) as [w Ew]; [lia|].
  destruct (lookup_lt_is_Some_2 Bs i) as [b Eb]; [lia|].
  exists w, b.
  rewrite (nth_lookup_Some _ _ _ _ Ew) in Hw.
  rewrite (nth_lookup_Some _ _ _ _ Eb) in Hb. done.
Qed.

Lemma sigmoid_item (z : ndarray) (r c : nat) :
  item (sigmoid z) r c = sigma (item z r c).
Proof. reflexivity. Qed.

Lemma sigmoid_shape (z : ndarray) : shape (sigmoid z) = shape z.
Proof. reflexivity. Qed.

(** The affine map of one layer on conformable shapes. *)
Lemma affine_column (w ap b : ndarray) (n p : nat) :
  shape w = (n, p) → shape ap = (p, 1) → shape b = (n, 1) →
  ∃ z, (m ← matmul w ap; binop Rplus m b) = Ok z ∧ shape z = (n, 1) ∧
       ∀ r, r < n →
         item z r 0 = (rsum (λ c, item w r c * item ap c 0) p + item b r 0)%R.
Proof.
  intros [= Hwr Hwc] [= Har Hac] [= Hbr Hbc].
  unfold matmul. rewrite decide_True by congruence. simpl.
  unfold binop; simpl. rewrite Hwr, Hbr, Hac, Hbc, !bdim_same.
  eexists. split; [reflexivity|]. split; [reflexivity|].
  intros r Hr. simpl. unfold bget; simpl.
  rewrite Hbr, Hbc, Hwc, !bidx_lt by lia. done.
Qed.

Lemma forward_loop (sizes : list nat) (Ws Bs : list ndarray) (x : ndarray)
    (k : nat) :
  consistent sizes Ws Bs → shape x = (nth 0 sizes 0, 1) → k < length sizes →
  ∃ Zs As,
    foldM (forward_body Ws Bs) (map Z.of_nat (seq 1 k)) ([None], [x])
    = Ok (Zs, As) ∧
    forward_contract sizes Ws Bs x k Zs As.
Proof.
  intros Hc Hx. induction k as [|k IH]; intros Hk.
  - exists [None], [x]. split; [done|].
    repeat split; try done.
    + intros [|i] a; [|done]. by intros [= <-].
    + intros i ?; lia.
  - destruct IH as (Zs & As & Hrun & HZ & HA & H0 & Hsh & Hlay); [lia|].
    rewrite seq_S, map_app, foldM_app, Hrun. simpl.
    destruct (consistent_layer sizes Ws Bs (S k) Hc) as (w & b & Ew & Eb & Sw & Sb);
      [lia|].
    destruct (lookup_lt_is_Some_2 As k) as [ap Eap]; [lia|].
    pose proof (Hsh k ap Eap) as Sap.
    replace (S k - 1) with k in Sw by lia.
    destruct (affine_column w ap b _ _ Sw Sap Sb) as (z & Ez & Sz & Iz).
    rewrite (py_index_Some _ _ _ Ew).
    replace (Z.of_nat (S k) - 1)%Z with (Z.of_nat k) by lia.
    rewrite (py_index_Some _ _ _ Eap). simpl.
    destruct (matmul w ap) as [m|e] eqn:Em; [|done]. simpl in Ez |- *.
    rewrite (py_index_Some _ _ _ Eb). simpl. rewrite Ez. simpl.
    eexists _, _. split; [reflexivity|].
    split; [rewrite length_app; simpl; lia|].
    split; [rewrite length_app; simpl; lia|].
    split; [rewrite lookup_app_l by lia; done|].
    split.
    + intros i a. destruct (decide (i < S k)) as [Hi|Hi].
      * rewrite lookup_app_l by lia. apply Hsh.
      * destruct (decide (i = S k)) as [->|Hne].
        -- rewrite <- HA at 1. rewrite list_lookup_middle by done.
           intros [= <-]. by rewrite sigmoid_shape.
        -- intros Hl. apply lookup_lt_Some in Hl.
           rewrite length_app in Hl; simpl in Hl; lia.
    + intros i Hi. destruct (decide (i = S k)) as [->|Hne].
      * exists w, b, ap, z. replace (S k - 1) with k by lia.
        rewrite (lookup_app_l As) by lia.
        split; [done|]. split; [done|]. split; [done|].
        split; [rewrite <- HZ at 1; by rewrite list_lookup_middle|].
        split; [rewrite <- HA at 1; by rewrite list_lookup_middle|].
        rewrite Em. simpl. done.
      * destruct (Hlay i) as (w' & b' & ap' & z' & ? & ? & ? & ? & ? & ?);
          [lia|].
        exists w', b', ap', z'.
        rewrite !(lookup_app_l As), (lookup_app_l Zs) by lia. done.
Qed.

Lemma forward_loop_length (Ws Bs : list ndarray) (l : list Z)
    (Zs0 Zs : list (option ndarray)) (As0 As : list ndarray) :
  foldM (forward_body Ws Bs) l (Zs0, As0) = Ok (Zs, As) →
  length As = length As0 + length l.
Proof.
  revert Zs0 As0. induction l as [|i l IH]; intros Zs0 As0; cbn [foldM].
  - intros [= <- <-]. simpl. lia.
  - destruct (forward_body Ws Bs (Zs0, As0) i) as [[Zs1 As1]|e] eqn:E;
      [|done]. simpl. intros H. apply IH in H. rewrite H.
    unfold forward_body in E.
    destruct (py_index Ws i); [|done]. simpl in E.
    destruct (py_index As0 (i - 1)); [|done]. simpl in E.
    destruct (matmul _ _); [|done]. simpl in E.
    destruct (py_index Bs i); [|done]. simpl in E.
    destruct (binop _ _ _); [|done]. simpl in E.
    injection E as <- <-. rewrite length_app. simpl. lia.
Qed.

Lemma py_index_minus1 {A : Type} (l : list A) :
  py_index l (-1) =
  match l !! (length l - 1) with Some x => Ok x | None => Raise IndexError end.
Proof.
  unfold py_index, len.
  destruct (Z.ltb_spec (-1) 0) as [_|?]; [|lia].
  destruct l as [|x l]; [done|].
  destruct (Z.ltb_spec (-1 + Z.of_nat (length (x :: l))) 0) as [H|_].
  - simpl in H. lia.
  - replace (Z.to_nat (-1 + Z.of_nat (length (x :: l))))
      with (length (x :: l) - 1); [done|]. simpl. lia.
Qed.

(** C2: on weights and biases that fit a topology [sizes] and an input
    column of [sizes[0]] entries, the forward pass returns [Z] and [A] with
    [A[0]] the input itself, [Z[i] = W[i] @ A[i-1] + B[i]] and
    [A[i] = sigmoid(Z[i])] for every layer [i = 1..L], and the final output
    (which is also what the prediction-only mode returns) is a column of
    [sizes[L]] entries. *)
Theorem forward_pass_contract (sizes : list nat) (Ws Bs : list ndarray)
    (x : ndarray) :
  consistent sizes Ws Bs → sizes ≠ [] → shape x = (nth 0 sizes 0, 1) →
  ∃ Zs As out,
    forward_pass Ws Bs x false = Ok (Zs, As) ∧
    forward_contract sizes Ws Bs x (length sizes - 1) Zs As ∧
    forward_pass Ws Bs x true = Ok out ∧
    As !! (length sizes - 1) = Some out ∧
    shape out = (nth (length sizes - 1) sizes 0, 1).
Proof.
  intros Hc Hne Hx.
  assert (0 < length sizes) as Hpos by (destruct sizes; [done | simpl; lia]).
  destruct (forward_loop sizes Ws Bs x (length sizes - 1) Hc Hx)
    as (Zs & As & Hrun & Hct); [lia|].
  pose proof Hct as (HZ & HA & H0 & Hsh & Hlay).
  destruct (lookup_lt_is_Some_2 As (length sizes - 1)) as [out Eo]; [lia|].
  exists Zs, As, out.
  assert (range 1 (len Ws - 1 + 1) = map Z.of_nat (seq 1 (length sizes - 1)))
    as Hr.
  { rewrite <- range_from_1. f_equal. destruct Hc as [HW _]. unfold len. lia. }
  unfold forward_pass. rewrite Hr, Hrun. simpl.
  rewrite py_index_minus1, HA.
  replace (S (length sizes - 1) - 1) with (length sizes - 1) by lia.
  rewrite Eo. split_and!; try done. by apply Hsh.
Qed.

(** C10: the prediction-only mode returns the entry [A[L]], [L = len(W) - 1],
    of the sequence the full mode returns (and raises what the full mode
    raises), so [predict], which reads the full mode, returns the argmax of
    what the prediction-only mode returns. *)
Theorem predict_vector_is_last (Ws Bs : list ndarray) (x : ndarray) :
  forward_pass Ws Bs x true =
    ('(_, As) ← forward_pass Ws Bs x false; py_index As (len Ws - 1)) ∧
  predict Ws Bs x = (a ← forward_pass Ws Bs x true; argmax a).
Proof.
  unfold predict, forward_pass.
  destruct (foldM (forward_body Ws Bs) (range 1 (len Ws - 1 + 1)) ([None], [x]))
    as [[Zs As]|e] eqn:E; simpl; [|done].
  split; [|done].
  apply forward_loop_length in E.
  unfold range in E. rewrite length_map, length_seq in E. simpl in E.
  rewrite py_index_minus1. unfold len in *.
  destruct Ws as [|w Ws].
  - simpl in *. rewrite py_index_minus1. done.
  - replace (Z.of_nat (length (w :: Ws)) - 1)%Z
      with (Z.of_nat (length Ws)) by (simpl; lia).
    rewrite py_index_nat.
    replace (length As - 1) with (length Ws); [done|].
    rewrite E. simpl length. lia.
Qed.

(** ** Prediction *)

Lemma argmax_from_first_max (l pre : list R) (best : nat) :
  best < length pre →
  (∀ j, j < length pre → (nth j pre 0 <= nth best pre 0)%R) →
  (∀ j, j < best → (nth j pre 0 < nth best pre 0)%R) →
  first_max (pre ++ l) (argmax_from best (nth best pre 0%R) (length pre) l).
Proof.
  revert pre best. induction l as [|x l IH]; intros pre best Hb Hmax Hfirst.
  - simpl. rewrite app_nil_r. done.
  - simpl. replace (pre ++ x :: l) with ((pre ++ [x]) ++ l)
      by (by rewrite <- app_assoc).
    assert (nth (length pre) (pre ++ [x]) 0%R = x) as Hx
      by (by rewrite app_nth2, Nat.sub_diag by lia).
    assert (∀ j, j < length pre → nth j (pre ++ [x]) 0%R = nth j pre 0%R) as Hold
      by (intros; by rewrite app_nth1).
    assert (S (length pre) = length (pre ++ [x])) as Hlen
      by (rewrite length_app; simpl; lia).
    destruct (Rlt_dec (nth best pre 0%R) x) as [Hlt|Hge].
    + specialize (IH (pre ++ [x]) (length pre)).
      rewrite Hx, <- Hlen in IH. apply IH.
      * lia.
      * intros j Hj.
        destruct (decide (j = length pre)) as [->|?]; [rewrite Hx; lra|].
        rewrite Hold by lia. specialize (Hmax j ltac:(lia)). lra.
      * intros j Hj. rewrite Hold by lia. specialize (Hmax j Hj). lra.
    + specialize (IH (pre ++ [x]) best).
      rewrite (Hold best), <- Hlen in IH by lia. apply IH.
      * lia.
      * intros j Hj.
        destruct (decide (j = length pre)) as [->|?]; [rewrite Hx; lra|].
        rewrite Hold by lia. apply Hmax. lia.
      * intros j Hj. rewrite Hold by lia. by apply Hfirst.
Qed.

Lemma flatten_column (a : ndarray) :
  ncols a = 1 → flatten a = map (λ i, item a i 0) (seq 0 (nrows a)).
Proof.
  intros Hc. unfold flatten. rewrite Hc. simpl.
  induction (seq 0 (nrows a)) as [|i l IH]; simpl; [done|]. by rewrite IH.
Qed.

Lemma argmax_column (a : ndarray) :
  ncols a = 1 → 0 < nrows a →
  ∃ k, argmax a = Ok k ∧ k < nrows a ∧
       (∀ j, j < nrows a → (item a j 0 <= item a k 0)%R) ∧
       (∀ j, j < k → (item a j 0 < item a k 0)%R).
Proof.
  intros Hc Hr. unfold argmax.
  pose proof (flatten_column a Hc) as Hf.
  assert (length (flatten a) = nrows a) as Hlen
    by (by rewrite Hf, length_map, length_seq).
  assert (∀ j, j < nrows a → nth j (flatten a) 0%R = item a j 0) as Hnth.
  { intros j Hj. rewrite Hf.
    rewrite (nth_indep _ 0%R (item a 0 0)) by (rewrite length_map, length_seq; lia).
    rewrite (map_nth (λ i, item a i 0) (seq 0 (nrows a)) 0 j).
    by rewrite seq_nth. }
  destruct (flatten a) as [|x t] eqn:E; [simpl in Hlen; lia|].
  destruct (argmax_from_first_max t [x] 0) as (Hk & Hmax & Hfirst).
  { simpl; lia. }
  { intros [|j] Hj; simpl in *; [lra | lia]. }
  { intros j Hj; lia. }
  cbn [app length nth] in Hk, Hmax, Hfirst, Hlen.
  set (k := argmax_from 0 x 1 t) in *.
  exists k. split; [done|]. split; [lia|]. split.
  - intros j Hj. rewrite <- !Hnth by lia. apply Hmax. lia.
  - intros j Hj. rewrite <- !Hnth by lia. by apply Hfirst.
Qed.

(** Two equal maxima: the lower index wins. *)
Example argmax_tie : argmax (of_rows [[1]; [3]; [2]; [3]]%R) = Ok 1.
Proof.
  unfold argmax. simpl.
  repeat (destruct (Rlt_dec _ _); try lra). reflexivity.
Qed.

Example argmax_empty : argmax (zeros 0 1) = Raise ValueError.
Proof. reflexivity. Qed.

(** C7: on weights and biases that fit a topology with a non-empty output
    layer, [predict] (the function and the method alike) returns an index
    of a largest entry of the final activation vector, and every entry
    before that index is strictly smaller: among equal maxima the lowest
    index is returned. *)
Theorem predict_first_maximum (sizes : list nat) (Ws Bs : list ndarray)
    (x : ndarray) :
  consistent sizes Ws Bs → sizes ≠ [] → shape x = (nth 0 sizes 0, 1) →
  0 < nth (length sizes - 1) sizes 0 →
  ∃ Zs As out k,
    forward_pass Ws Bs x false = Ok (Zs, As) ∧
    As !! (length sizes - 1) = Some out ∧
    predict Ws Bs x = Ok k ∧
    (∀ ls h, net_predict x (mk_net ls Ws Bs h) = (Ok k, mk_net ls Ws Bs h)) ∧
    k < nrows out ∧
    (∀ j, j < nrows out → (item out j 0 <= item out k 0)%R) ∧
    (∀ j, j < k → (item out j 0 < item out k 0)%R).
Proof.
  intros Hc Hne Hx Hout.
  assert (0 < length sizes) as Hpos by (destruct sizes; [done | simpl; lia]).
  destruct (forward_loop sizes Ws Bs x (length sizes - 1) Hc Hx)
    as (Zs & As & Hrun & HZ & HA & H0 & Hsh & Hlay); [lia|].
  destruct (lookup_lt_is_Some_2 As (length sizes - 1)) as [out Eo]; [lia|].
  injection (Hsh _ _ Eo) as Hr Hcol.
  destruct (argmax_column out Hcol) as (k & Ek & Hk); [lia|].
  assert (forward_pass Ws Bs x false = Ok (Zs, As)) as Hfp.
  { unfold forward_pass.
    replace (range 1 (len Ws - 1 + 1))
      with (map Z.of_nat (seq 1 (length sizes - 1))); [by rewrite Hrun|].
    rewrite <- range_from_1. f_equal. destruct Hc as [HW _]. unfold len. lia. }
  assert (py_index As (-1) = Ok out) as Hlast.
  { rewrite py_index_minus1, HA.
    replace (S (length sizes - 1) - 1) with (length sizes - 1) by lia.
    by rewrite Eo. }
  assert (predict Ws Bs x = Ok k) as Hp.
  { unfold predict. rewrite Hfp. simpl. rewrite Hlast. simpl. done. }
  exists Zs, As, out, k. split_and!; try done; try apply Hk.
  intros ls h. unfold net_predict, mthen, reading. simpl.
  fold (predict Ws Bs x). by rewrite Hp.
Qed.

(** ** Array operations on conformable shapes *)

Lemma binop_same (f : R → R → R) (a b : ndarray) :
  shape a = shape b →
  ∃ c, binop f a b = Ok c ∧ shape c = shape a ∧
       ∀ i j, i < nrows a → j < ncols a →
         item c i j = f (item a i j) (item b i j).
Proof.
  intros [= Hr Hc]. unfold binop. rewrite <- Hr, <- Hc, !bdim_same.
  eexists. split; [reflexivity|]. split; [reflexivity|].
  intros i j Hi Hj. simpl. unfold bget.
  rewrite <- Hr, <- Hc, !bidx_lt by lia. done.
Qed.

Lemma d_sigmoid_same (z : ndarray) :
  ∃ d, d_sigmoid z = Ok d ∧ shape d = shape z ∧
       ∀ i j, i < nrows z → j < ncols z → item d i j = dsigma (item z i j).
Proof.
  destruct (binop_same Rmult (sigmoid z) (amap (Rminus 1) (sigmoid z)))
    as (d & Ed & Sd & Id); [done|].
  exists d. split; [done|]. split; [done|].
  intros i j Hi Hj. by rewrite Id.
Qed.

Lemma matmul_transpose_column (w d : ndarray) (n p : nat) :
  shape w = (n, p) → shape d = (n, 1) →
  ∃ m, matmul (transpose w) d = Ok m ∧ shape m = (p, 1) ∧
       ∀ r, item m r 0 = rsum (λ k, item w k r * item d k 0)%R n.
Proof.
  intros [= Hwr Hwc] [= Hdr Hdc]. unfold matmul. simpl.
  rewrite decide_True by congruence.
  eexists. split; [reflexivity|]. split; [unfold shape; simpl; congruence|].
  intros r. simpl. by rewrite Hwr.
Qed.

Lemma isub_outer (alpha : R) (w d ap : ndarray) (n p : nat) :
  shape w = (n, p) → shape d = (n, 1) → shape ap = (p, 1) →
  ∃ w', (g ← matmul (amap (Rmult alpha) d) (transpose ap); isub w g) = Ok w' ∧
        shape w' = shape w ∧
        ∀ r c, r < nrows w → c < ncols w →
          item w' r c = (item w r c - alpha * item d r 0 * item ap c 0)%R.
Proof.
  intros [= Hwr Hwc] [= Hdr Hdc] [= Har Hac]. unfold matmul. simpl.
  rewrite decide_True by congruence. simpl.
  unfold isub.
  edestruct (binop_same Rminus w) as (w' & -> & Sw' & Iw');
    [|simpl; rewrite decide_True by done; exists w'; split; [done|];
      split; [done|]].
  { unfold shape; simpl. congruence. }
  intros r c Hr Hc. rewrite Iw' by done. simpl. rewrite Hdc. simpl. lra.
Qed.

Lemma isub_scaled (alpha : R) (b d : ndarray) (n : nat) :
  shape b = (n, 1) → shape d = (n, 1) →
  ∃ b', isub b (amap (Rmult alpha) d) = Ok b' ∧ shape b' = shape b ∧
        ∀ r, r < nrows b → item b' r 0 = (item b r 0 - alpha * item d r 0)%R.
Proof.
  intros Hb Hd. unfold isub.
  edestruct (binop_same Rminus b) as (b' & -> & Sb' & Ib');
    [|simpl; rewrite decide_True by done; exists b'; split; [done|];
      split; [done|]].
  { unfold shape in *; simpl. congruence. }
  injection Hb as Hbr Hbc.
  intros r Hr. rewrite Ib' by lia. done.
Qed.

(** ** Backpropagation *)

(** Steps through the binds of a computation whose head has returned. *)
Ltac run_ok := repeat first [rewrite bind_Ok | progress cbn beta iota].

Lemma dict_get_Some {V : Type} (d : gmap Z V) (k : Z) (v : V) :
  d !! k = Some v → dict_get d k = Ok v.
Proof. intros H. unfold dict_get. by rewrite H. Qed.

Section Backward.
Variables (sizes : list nat) (Ws Bs : list ndarray) (x y : ndarray).
Variables (Zs : list (option ndarray)) (As : list ndarray).
Hypothesis Hcons : consistent sizes Ws Bs.
Hypothesis Hfwd :
  forward_contract sizes Ws Bs x (length sizes - 1) Zs As.

Lemma layer_Z (i : nat) :
  1 ≤ i ≤ (length sizes - 1) → ∃ z, Zs !! i = Some (Some z) ∧ shape z = (nth i sizes 0, 1).
Proof.
  intros Hi. destruct Hfwd as (_ & _ & _ & _ & Hlay).
  destruct (Hlay i Hi) as (w & b & ap & z & _ & _ & _ & Ez & _ & _ & Sz & _).
  eauto.
Qed.

Lemma deltas_step (deltas : gmap Z ndarray) (i : nat) :
  1 ≤ i < (length sizes - 1) →
  delta_contract sizes Ws Zs As y (length sizes - 1) (S i) deltas →
  ∃ d, deltas_body Ws Zs deltas (Z.of_nat i) = Ok (<[Z.of_nat i := d]> deltas) ∧
       delta_contract sizes Ws Zs As y (length sizes - 1) i (<[Z.of_nat i := d]> deltas).
Proof.
  intros Hi Hinv.
  destruct (consistent_layer sizes Ws Bs (S i) Hcons) as (w & _ & Ew & _ & Sw & _);
    [lia|].
  replace (S i - 1) with i in Sw by lia.
  destruct (Hinv (S i)) as (dn & _ & Edn & _ & Sdn & _); [lia|].
  destruct (layer_Z i) as (z & Ez & Sz); [lia|].
  destruct (matmul_transpose_column w dn _ _ Sw Sdn) as (m & Em & Sm & Im).
  destruct (d_sigmoid_same z) as (ds & Eds & Sds & Ids).
  destruct (binop_same Rmult m ds) as (d & Ed & Sd & Id); [congruence|].
  exists d. split.
  - unfold deltas_body.
    replace (Z.of_nat i + 1)%Z with (Z.of_nat (S i)) by lia.
    rewrite (py_index_Some _ _ _ Ew), bind_Ok.
    rewrite (dict_get_Some _ _ _ Edn), bind_Ok, Em, bind_Ok.
    rewrite (py_index_Some _ _ _ Ez), bind_Ok. simpl d_sigmoid_entry.
    by rewrite Eds, bind_Ok, Ed, bind_Ok.
  - intros i' Hi'. destruct (decide (i' = i)) as [->|Hne].
    + exists d, z. rewrite lookup_insert_eq.
      split; [done|]. split; [done|]. split; [congruence|].
      split; [lia|]. intros _. exists w, dn.
      rewrite lookup_insert_ne by lia.
      split; [done|]. split; [done|].
      intros r Hr. injection Sm as Hmr Hmc. injection Sz as Hzr Hzc.
      rewrite Id, Im, Ids by lia. done.
    + destruct (Hinv i') as (d' & z' & Ed' & Ez' & Sd' & HL & Hlt); [lia|].
      exists d', z'. rewrite lookup_insert_ne by lia.
      split; [done|]. split; [done|]. split; [done|]. split; [done|].
      intros Hlt'. destruct (Hlt Hlt') as (w' & dn' & ? & ? & ?).
      exists w', dn'. rewrite lookup_insert_ne by lia. done.
Qed.

Lemma deltas_loop (deltas0 : gmap Z ndarray) (j : nat) :
  j < (length sizes - 1) →
  delta_contract sizes Ws Zs As y (length sizes - 1) (length sizes - 1) deltas0 →
  ∃ deltas,
    foldM (deltas_body Ws Zs)
          (map (λ k, (Z.of_nat (length sizes - 1) - 1 - Z.of_nat k)%Z) (seq 0 j)) deltas0
    = Ok deltas ∧
    delta_contract sizes Ws Zs As y (length sizes - 1) ((length sizes - 1) - j) deltas.
Proof.
  intros Hj H0. induction j as [|j IH].
  - exists deltas0. split; [done|]. by rewrite Nat.sub_0_r.
  - destruct IH as (deltas & Hrun & Hinv); [lia|].
    rewrite seq_S, map_app, foldM_app, Hrun, bind_Ok. cbn [map foldM].
    replace (Z.of_nat (length sizes - 1) - 1 - Z.of_nat (0 + j))%Z
      with (Z.of_nat ((length sizes - 1) - S j)) by lia.
    destruct (deltas_step deltas ((length sizes - 1) - S j)) as (d & -> & Hinv'); [lia| |].
    + by replace (S ((length sizes - 1) - S j)) with ((length sizes - 1) - j) by lia.
    + rewrite bind_Ok. eauto.
Qed.

Hypothesis HL : 1 ≤ (length sizes - 1).
Hypothesis Hy : shape y = (nth (length sizes - 1) sizes 0, 1).

Lemma output_error_spec :
  ∃ aL zL e ds oe,
    As !! (length sizes - 1) = Some aL ∧ Zs !! (length sizes - 1) = Some (Some zL) ∧
    binop Rminus aL y = Ok e ∧ d_sigmoid zL = Ok ds ∧
    binop Rmult e ds = Ok oe ∧
    delta_contract sizes Ws Zs As y (length sizes - 1) (length sizes - 1) (<[Z.of_nat (length sizes - 1) := oe]> ∅).
Proof.
  pose proof Hfwd as (HZ & HA & H0 & Hsh & Hlay).
  destruct (lookup_lt_is_Some_2 As (length sizes - 1)) as [aL EaL]; [lia|].
  pose proof (Hsh _ _ EaL) as SaL.
  destruct (layer_Z (length sizes - 1)) as (zL & EzL & SzL); [lia|].
  destruct (binop_same Rminus aL y) as (e & Ee & Se & Ie); [congruence|].
  destruct (d_sigmoid_same zL) as (ds & Eds & Sds & Ids).
  destruct (binop_same Rmult e ds) as (oe & Eoe & Soe & Ioe); [congruence|].
  exists aL, zL, e, ds, oe. split_and!; try done.
  intros i Hi. assert (i = (length sizes - 1)) as -> by lia.
  exists oe, zL. rewrite lookup_insert_eq.
  split; [done|]. split; [done|]. split; [congruence|].
  split; [|lia]. intros _. exists aL. split; [done|].
  intros r Hr. injection SaL as Har Hac. injection SzL as Hzr Hzc.
  injection Se as Her Hec.
  rewrite Ioe, Ie, Ids by lia. done.
Qed.

End Backward.

Lemma forward_pass_full (sizes : list nat) (Ws Bs : list ndarray) (x : ndarray) :
  consistent sizes Ws Bs → sizes ≠ [] → shape x = (nth 0 sizes 0, 1) →
  ∃ Zs As,
    forward_pass Ws Bs x false = Ok (Zs, As) ∧
    forward_contract sizes Ws Bs x (length sizes - 1) Zs As.
Proof.
  intros Hc Hne Hx.
  assert (0 < length sizes) as Hpos by (destruct sizes; [done | simpl; lia]).
  destruct (forward_loop sizes Ws Bs x (length sizes - 1) Hc Hx)
    as (Zs & As & Hrun & Hct); [lia|].
  exists Zs, As. split; [|done]. unfold forward_pass.
  replace (range 1 (len Ws - 1 + 1))
    with (map Z.of_nat (seq 1 (length sizes - 1))); [by rewrite Hrun|].
  rewrite <- range_from_1. f_equal. destruct Hc as [HW _]. unfold len. lia.
Qed.

Lemma range_down_to_0 (n : nat) :
  range_down (Z.of_nat n - 1) 0 =
  map (λ k, (Z.of_nat n - 1 - Z.of_nat k)%Z) (seq 0 (n - 1)).
Proof.
  unfold range_down. f_equal. f_equal. lia.
Qed.

Lemma backward_spec (sizes : list nat) (Ws Bs : list ndarray) (x y : ndarray) :
  consistent sizes Ws Bs → 2 ≤ length sizes →
  shape x = (nth 0 sizes 0, 1) →
  shape y = (nth (length sizes - 1) sizes 0, 1) →
  ∃ Zs As deltas,
    forward_pass Ws Bs x false = Ok (Zs, As) ∧
    forward_contract sizes Ws Bs x (length sizes - 1) Zs As ∧
    backward Ws Bs x y (Z.of_nat (length sizes - 1)) = Ok (As, deltas) ∧
    delta_contract sizes Ws Zs As y (length sizes - 1) 1 deltas.
Proof.
  intros Hc Hlen Hx Hy.
  destruct (forward_pass_full sizes Ws Bs x Hc) as (Zs & As & Hfp & Hct);
    [intros ->; simpl in Hlen; lia | done |].
  destruct (output_error_spec sizes Ws Bs x y Zs As Hct) as
    (aL & zL & e & ds & oe & EaL & EzL & Ee & Eds & Eoe & H0); [lia|done|].
  destruct (deltas_loop sizes Ws Bs x y Zs As Hc Hct _ (length sizes - 1 - 1) ltac:(lia) H0)
    as (deltas & Hrun & Hinv).
  exists Zs, As, deltas. split; [done|]. split; [done|]. split.
  - unfold backward. rewrite Hfp, bind_Ok.
    rewrite (py_index_Some _ _ _ EaL), bind_Ok, Ee, bind_Ok.
    rewrite (py_index_Some _ _ _ EzL), bind_Ok. simpl d_sigmoid_entry.
    rewrite Eds, bind_Ok, Eoe, bind_Ok.
    by rewrite range_down_to_0, Hrun, bind_Ok.
  - by replace (length sizes - 1 - (length sizes - 1 - 1)) with 1 in Hinv by lia.
Qed.

(** ** The parameter update *)

Lemma for__app {A : Type} (l1 l2 : list A) (body : A → method unit)
    (self : DenseNetwork) :
  for_ (l1 ++ l2) body self = (do _ <~ for_ l1 body; for_ l2 body) self.
Proof.
  revert self. induction l1 as [|a l1 IH]; intros self; [done|].
  cbn [app for_]. unfold mthen.
  destruct (body a self) as [[[]|e] self']; [|done].
  rewrite IH. done.
Qed.

Lemma update_step (alpha : R) (deltas : gmap Z ndarray) (As : list ndarray)
    (sizes : list nat) (Ws Bs Ws' Bs' : list ndarray) (k : nat)
    (d ap : ndarray) :
  consistent sizes Ws Bs → S k < length sizes →
  deltas !! Z.of_nat (S k) = Some d → shape d = (nth (S k) sizes 0, 1) →
  As !! k = Some ap → shape ap = (nth k sizes 0, 1) →
  update_contract alpha deltas As Ws Bs Ws' Bs' k →
  ∃ Ws'' Bs'',
    (∀ ls h, update_body alpha deltas As (Z.of_nat (S k)) (mk_net ls Ws' Bs' h)
             = (Ok (), mk_net ls Ws'' Bs'' h)) ∧
    update_contract alpha deltas As Ws Bs Ws'' Bs'' (S k).
Proof.
  intros Hc Hk Ed Sd Eap Sap (HlW & HlB & Hrest & Hdone).
  destruct (consistent_layer sizes Ws Bs (S k) Hc) as (w & b & Ew & Eb & Sw & Sb);
    [lia|].
  replace (S k - 1) with k in Sw by lia.
  destruct (Hrest (S k)) as [Ew' Eb']; [lia|]. rewrite Ew in Ew'. rewrite Eb in Eb'.
  destruct (isub_outer alpha w d ap _ _ Sw Sd Sap) as (w' & Ew1 & Sw' & Iw').
  destruct (isub_scaled alpha b d _ Sb Sd) as (b' & Eb1 & Sb' & Ib').
  assert (S k < length Ws') as HkW by (destruct Hc; lia).
  assert (S k < length Bs') as HkB by (destruct Hc as (_ & ? & _); lia).
  exists (<[S k := w']> Ws'), (<[S k := b']> Bs'). split.
  - intros ls h.
    unfold update_body, mthen, reading, set_W, set_B. cbn [W B layers errors_].
    rewrite (py_index_Some _ _ _ Ew'), bind_Ok.
    rewrite (dict_get_Some _ _ _ Ed), bind_Ok.
    replace (Z.of_nat (S k) - 1)%Z with (Z.of_nat k) by lia.
    rewrite (py_index_Some _ _ _ Eap), bind_Ok.
    destruct (matmul (amap (Rmult alpha) d) (transpose ap)) as [g|e]; [|done].
    rewrite bind_Ok in Ew1. rewrite bind_Ok, Ew1, bind_Ok.
    rewrite py_setitem_nat by done. cbn [W B layers errors_].
    rewrite (py_index_Some _ _ _ Eb'), bind_Ok.
    rewrite bind_Ok, Eb1, bind_Ok.
    by rewrite py_setitem_nat by done.
  - split; [by rewrite length_insert|]. split; [by rewrite length_insert|].
    split.
    + intros i Hi. rewrite !list_lookup_insert_ne by lia. apply Hrest. lia.
    + intros i Hi. destruct (decide (i = S k)) as [->|Hne].
      * exists w, b, w', b', d, ap.
        rewrite !list_lookup_insert_eq by done.
        replace (S k - 1) with k by lia. done.
      * destruct (Hdone i) as (w0 & b0 & w0' & b0' & d0 & ap0 & ?); [lia|].
        exists w0, b0, w0', b0', d0, ap0.
        rewrite !list_lookup_insert_ne by lia. done.
Qed.

Lemma update_loop (alpha : R) (deltas : gmap Z ndarray) (x y : ndarray)
    (Zs : list (option ndarray)) (As : list ndarray)
    (sizes : list nat) (Ws Bs : list ndarray) (k : nat) :
  consistent sizes Ws Bs →
  forward_contract sizes Ws Bs x (length sizes - 1) Zs As →
  delta_contract sizes Ws Zs As y (length sizes - 1) 1 deltas →
  k < length sizes →
  ∃ Ws' Bs',
    (∀ ls h, for_ (map Z.of_nat (seq 1 k)) (update_body alpha deltas As)
                  (mk_net ls Ws Bs h)
             = (Ok (), mk_net ls Ws' Bs' h)) ∧
    update_contract alpha deltas As Ws Bs Ws' Bs' k.
Proof.
  intros Hc Hfwd Hdel. induction k as [|k IH]; intros Hk.
  - exists Ws, Bs. split; [done|]. split; [done|]. split; [done|].
    split; [done|]. intros i Hi; lia.
  - destruct IH as (Ws' & Bs' & Hrun & Hinv); [lia|].
    destruct (Hdel (S k)) as (d & _ & Ed & _ & Sd & _); [lia|].
    pose proof Hfwd as (_ & HA & _ & Hsh & _).
    destruct (lookup_lt_is_Some_2 As k) as [ap Eap]; [lia|].
    destruct (update_step alpha deltas As sizes Ws Bs Ws' Bs' k d ap)
      as (Ws'' & Bs'' & Hstep & Hinv'); try done.
    { by apply Hsh. }
    exists Ws'', Bs''. split; [|done]. intros ls h.
    rewrite seq_S, map_app, for__app. unfold mthen at 1. rewrite Hrun.
    cbn [map for_]. unfold mthen. cbn [Nat.add]. rewrite Hstep. done.
Qed.

Lemma update_contract_consistent (alpha : R) (deltas : gmap Z ndarray)
    (As : list ndarray) (sizes : list nat) (Ws Bs Ws' Bs' : list ndarray) :
  consistent sizes Ws Bs →
  update_contract alpha deltas As Ws Bs Ws' Bs' (length sizes - 1) →
  consistent sizes Ws' Bs'.
Proof.
  intros Hc (HlW & HlB & Hrest & Hdone).
  pose proof Hc as (HW & HB & _).
  split; [congruence|]. split; [congruence|].
  apply Forall_forall. intros i Hi%elem_of_seq.
  destruct (consistent_layer sizes Ws Bs i Hc) as (w & b & Ew & Eb & Sw & Sb);
    [lia|].
  destruct (Hdone i) as (w0 & b0 & w' & b' & d & ap & Ew0 & Eb0 & Ew' & Eb' & _ & _ & Sw' & Sb' & _);
    [lia|].
  rewrite (nth_lookup_Some _ _ _ _ Ew'), (nth_lookup_Some _ _ _ _ Eb').
  split; congruence.
Qed.

(** ** One stochastic gradient step *)

Lemma train_step_spec (sizes : list nat) (alpha : R) (x y : ndarray)
    (Ws Bs : list ndarray) :
  consistent sizes Ws Bs → 2 ≤ length sizes →
  shape x = (nth 0 sizes 0, 1) →
  shape y = (nth (length sizes - 1) sizes 0, 1) →
  ∃ Zs As deltas Ws' Bs',
    forward_pass Ws Bs x false = Ok (Zs, As) ∧
    forward_contract sizes Ws Bs x (length sizes - 1) Zs As ∧
    delta_contract sizes Ws Zs As y (length sizes - 1) 1 deltas ∧
    (∀ ls h, train_step alpha (Z.of_nat (length sizes - 1)) (x, y)
                        (mk_net ls Ws Bs h)
             = (Ok (), mk_net ls Ws' Bs' h)) ∧
    update_contract alpha deltas As Ws Bs Ws' Bs' (length sizes - 1) ∧
    consistent sizes Ws' Bs'.
Proof.
  intros Hc Hlen Hx Hy.
  destruct (backward_spec sizes Ws Bs x y Hc Hlen Hx Hy)
    as (Zs & As & deltas & Hfp & Hfwd & Hbw & Hdel).
  destruct (update_loop alpha deltas x y Zs As sizes Ws Bs
              (length sizes - 1) Hc Hfwd Hdel) as (Ws' & Bs' & Hrun & Hup);
    [lia|].
  exists Zs, As, deltas, Ws', Bs'. split_and!; try done.
  - intros ls h. unfold train_step, mthen, reading. cbn [W B]. rewrite Hbw.
    by rewrite range_from_1.
  - by eapply update_contract_consistent.
Qed.

(** ** Dataset loss and the training loop *)

Lemma forward_pass_vector (sizes : list nat) (Ws Bs : list ndarray)
    (x : ndarray) :
  consistent sizes Ws Bs → sizes ≠ [] → shape x = (nth 0 sizes 0, 1) →
  ∃ out, forward_pass Ws Bs x true = Ok out ∧
         shape out = (nth (length sizes - 1) sizes 0, 1).
Proof.
  intros Hc Hne Hx.
  assert (0 < length sizes) as Hpos by (destruct sizes; [done | simpl; lia]).
  destruct (forward_loop sizes Ws Bs x (length sizes - 1) Hc Hx)
    as (Zs & As & Hrun & HZ & HA & H0 & Hsh & Hlay); [lia|].
  destruct (lookup_lt_is_Some_2 As (length sizes - 1)) as [out Eo]; [lia|].
  exists out. split; [|by apply Hsh]. unfold forward_pass.
  replace (range 1 (len Ws - 1 + 1))
    with (map Z.of_nat (seq 1 (length sizes - 1))).
  - rewrite Hrun. simpl. rewrite py_index_minus1, HA.
    replace (S (length sizes - 1) - 1) with (length sizes - 1) by lia.
    by rewrite Eo.
  - rewrite <- range_from_1. f_equal. destruct Hc as [HW _]. unfold len. lia.
Qed.

Section DatasetLoss.
Variables (sizes : list nat) (X Y : list ndarray).
Hypothesis Hlen : 2 ≤ length sizes.
Hypothesis Hout : 10 ≤ nth (length sizes - 1) sizes 0.

Lemma MSE_loop (Ws Bs : list ndarray) (l : list (ndarray * ndarray))
    (cost : R) (m : nat) :
  consistent sizes Ws Bs → Forall (example_fits sizes) l →
  ∃ cost', foldM (MSE_body Ws Bs) l (cost, m) = Ok (cost', m + length l).
Proof.
  intros Hc Hl. revert cost m.
  induction Hl as [|[x y] l [Hx Hy] Hl IH]; intros cost m.
  - exists cost. simpl. by rewrite Nat.add_0_r.
  - cbn [foldM].
    change (MSE_body Ws Bs (cost, m) (x, y))
      with (a ← forward_pass Ws Bs x true; e ← mse a y;
            Ok ((cost + e)%R, S m)).
    cbn [fst snd] in Hx, Hy.
    destruct (forward_pass_vector sizes Ws Bs x Hc) as (out & -> & So);
      [intros ->; simpl in Hlen; lia | done |].
    injection So as Hor Hoc. injection Hy as Hyr Hyc.
    rewrite bind_Ok, mse_columns, !bind_Ok by lia.
    destruct (IH (cost + 0.5 * sq_err out y 10)%R (S m)) as (cost' & ->).
    exists cost'. f_equal. f_equal. simpl. lia.
Qed.

Lemma MSE_ok (Ws Bs : list ndarray) :
  consistent sizes Ws Bs → examples_fit sizes X Y → combine X Y ≠ [] →
  ∃ v, MSE Ws Bs X Y = Ok v.
Proof.
  intros Hc Hfit Hne. unfold MSE.
  destruct (MSE_loop Ws Bs (combine X Y) 0%R 0 Hc Hfit) as (cost & ->).
  rewrite bind_Ok. destruct (combine X Y); [done|]. simpl. eauto.
Qed.

End DatasetLoss.

Section Training.
Variables (sizes : list nat) (X Y : list ndarray) (alpha : R) (ls : list Z).
Hypothesis Hlen : 2 ≤ length sizes.
Hypothesis Hout : 10 ≤ nth (length sizes - 1) sizes 0.
Hypothesis Hls : length ls = length sizes.

Lemma examples_loop (l : list (ndarray * ndarray)) (Ws Bs : list ndarray)
    (h : option (list R)) :
  consistent sizes Ws Bs → Forall (example_fits sizes) l →
  ∃ Ws' Bs',
    for_ l (train_step alpha (Z.of_nat (length sizes - 1))) (mk_net ls Ws Bs h)
    = (Ok (), mk_net ls Ws' Bs' h) ∧
    consistent sizes Ws' Bs'.
Proof.
  intros Hc Hl. revert Ws Bs Hc.
  induction Hl as [|[x y] l [Hx Hy] Hl IH]; intros Ws Bs Hc.
  - exists Ws, Bs. done.
  - cbn [fst snd] in Hx, Hy.
    destruct (train_step_spec sizes alpha x y Ws Bs Hc Hlen Hx Hy)
      as (_ & _ & _ & Ws1 & Bs1 & _ & _ & _ & Hstep & _ & Hc1).
    destruct (IH Ws1 Bs1 Hc1) as (Ws' & Bs' & Hrun & Hc').
    exists Ws', Bs'. split; [|done].
    cbn [for_]. unfold mthen. by rewrite Hstep.
Qed.

Lemma epoch_loop (ks : list Z) (Ws Bs : list ndarray) (hist : list R) :
  consistent sizes Ws Bs → examples_fit sizes X Y → combine X Y ≠ [] →
  (∃ v, MSE Ws Bs X Y = Ok v ∧ last hist = Some v) →
  ∃ Ws' Bs' new,
    for_ ks (epoch X Y alpha (Z.of_nat (length sizes - 1))) (mk_net ls Ws Bs (Some hist))
    = (Ok (), mk_net ls Ws' Bs' (Some (hist ++ new))) ∧
    length new = length ks ∧
    consistent sizes Ws' Bs' ∧
    ∃ v, MSE Ws' Bs' X Y = Ok v ∧ last (hist ++ new) = Some v.
Proof.
  intros Hc Hfit Hne Hlast. revert Ws Bs hist Hc Hlast.
  induction ks as [|k ks IH]; intros Ws Bs hist Hc Hlast.
  - exists Ws, Bs, []. rewrite app_nil_r. done.
  - destruct (examples_loop (combine X Y) Ws Bs (Some hist) Hc Hfit)
      as (Ws1 & Bs1 & Hrun & Hc1).
    destruct (MSE_ok sizes X Y Hlen Hout Ws1 Bs1 Hc1 Hfit Hne) as (v & Hv).
    destruct (IH Ws1 Bs1 (hist ++ [v]) Hc1) as (Ws' & Bs' & new & Hks & Hn & Hc' & Hl').
    { exists v. split; [done|]. by rewrite last_snoc. }
    exists Ws', Bs', (v :: new).
    replace (hist ++ v :: new) with ((hist ++ [v]) ++ new)
      by (by rewrite <- app_assoc).
    split_and!; try done; [|simpl; lia].
    cbn [for_]. unfold mthen at 1. unfold epoch at 1.
    unfold mthen, reading, append_errors_. rewrite Hrun.
    cbn [W B errors_ layers]. rewrite Hv. exact Hks.
Qed.

Lemma train_run (Ws Bs : list ndarray) (h : option (list R)) (epochs : Z) :
  consistent sizes Ws Bs → examples_fit sizes X Y → combine X Y ≠ [] →
  ∃ Ws' Bs' e0 new v,
    MSE Ws Bs X Y = Ok e0 ∧
    train X Y alpha epochs (mk_net ls Ws Bs h)
    = (Ok (), mk_net ls Ws' Bs' (Some (e0 :: new))) ∧
    length new = Z.to_nat epochs ∧
    consistent sizes Ws' Bs' ∧
    MSE Ws' Bs' X Y = Ok v ∧ last (e0 :: new) = Some v.
Proof.
  intros Hc Hfit Hne.
  destruct (MSE_ok sizes X Y Hlen Hout Ws Bs Hc Hfit Hne) as (e0 & He0).
  destruct (epoch_loop (range 0 epochs) Ws Bs [e0] Hc Hfit Hne)
    as (Ws' & Bs' & new & Hrun & Hn & Hc' & v & Hv & Hl); [by exists e0|].
  exists Ws', Bs', e0, new, v. split_and!; try done.
  - unfold train, mthen, reading, set_errors_. cbn [W B errors_ layers].
    rewrite He0.
    replace (len ls - 1)%Z with (Z.of_nat (length sizes - 1))
      by (unfold len; lia).
    exact Hrun.
  - by rewrite Hn, range_from_0.
Qed.

End Training.

Lemma train_one_pair (sizes : list nat) (alpha : R) (x y : ndarray)
    (ls : list Z) (Ws Bs Ws' Bs' : list ndarray) (h : option (list R)) :
  2 ≤ length sizes → 10 ≤ nth (length sizes - 1) sizes 0 →
  length ls = length sizes →
  consistent sizes Ws Bs → consistent sizes Ws' Bs' →
  example_fits sizes (x, y) →
  (∀ ls h, train_step alpha (Z.of_nat (length sizes - 1)) (x, y)
                      (mk_net ls Ws Bs h)
           = (Ok (), mk_net ls Ws' Bs' h)) →
  ∃ e0 e1,
    train [x] [y] alpha 1 (mk_net ls Ws Bs h)
    = (Ok (), mk_net ls Ws' Bs' (Some [e0; e1])).
Proof.
  intros Hlen Hout Hls Hc Hc' Hfit Hstep.
  assert (examples_fit sizes [x] [y]) as Hfits by (by constructor).
  destruct (MSE_ok sizes [x] [y] Hlen Hout Ws Bs Hc Hfits) as (e0 & He0); [done|].
  destruct (MSE_ok sizes [x] [y] Hlen Hout Ws' Bs' Hc' Hfits) as (e1 & He1); [done|].
  exists e0, e1.
  unfold train, mthen, reading, set_errors_. cbn [W B layers errors_].
  rewrite He0.
  replace (len ls - 1)%Z with (Z.of_nat (length sizes - 1)) by (unfold len; lia).
  change (range 0 1) with [0%Z]. cbn [for_]. unfold mthen, epoch, mthen.
  cbn [combine for_]. unfold mthen. rewrite Hstep.
  unfold mpure, reading, append_errors_. cbn [W B layers errors_].
  by rewrite He1.
Qed.

(** C1: on a network whose parameters fit its topology of at least two
    layers and a training pair of matching shapes, the body of the loop of
    [train] returns normally and: the forward pass yields [Z] and [A] as in
    its contract; [deltas[L]] is [(A[L] - y) * d_sigmoid(Z[L])] and, for
    [i = L-1 .. 1], [deltas[i]] is [(W[i+1].T @ deltas[i+1]) * d_sigmoid(Z[i])];
    and every [W[i]], [B[i]] for [i = 1..L] is replaced by
    [W[i] - alpha * deltas[i] @ A[i-1].T] and [B[i] - alpha * deltas[i]],
    where [W], [Z], [A] and [deltas] are those of before the update.  The
    attributes [layers] and [errors_] are not touched.  When the output
    layer has the ten entries that the dataset loss reads, [train] on that
    single pair for one epoch leaves exactly these parameters. *)
Theorem sgd_step (net : DenseNetwork) (x y : ndarray) (alpha : R) :
  consistent (topology net) (W net) (B net) →
  2 ≤ length (topology net) →
  shape x = (nth 0 (topology net) 0, 1) →
  shape y = (nth (length (topology net) - 1) (topology net) 0, 1) →
  ∃ Zs As deltas net',
    forward_pass (W net) (B net) x false = Ok (Zs, As) ∧
    forward_contract (topology net) (W net) (B net) x
      (length (topology net) - 1) Zs As ∧
    delta_contract (topology net) (W net) Zs As y
      (length (topology net) - 1) 1 deltas ∧
    train_step alpha (len (layers net) - 1) (x, y) net = (Ok (), net') ∧
    layers net' = layers net ∧ errors_ net' = errors_ net ∧
    update_contract alpha deltas As (W net) (B net) (W net') (B net')
      (length (topology net) - 1) ∧
    (10 ≤ nth (length (topology net) - 1) (topology net) 0 →
     ∃ e0 e1,
       train [x] [y] alpha 1 net
       = (Ok (), mk_net (layers net) (W net') (B net') (Some [e0; e1]))).
Proof.
  destruct net as [ls Ws Bs h]. unfold topology. cbn [layers W B errors_].
  intros Hc Hlen Hx Hy.
  destruct (train_step_spec _ alpha x y Ws Bs Hc Hlen Hx Hy)
    as (Zs & As & deltas & Ws' & Bs' & Hfp & Hfwd & Hdel & Hrun & Hup & Hc').
  exists Zs, As, deltas, (mk_net ls Ws' Bs' h).
  split_and!; try done.
  - rewrite <- Hrun. f_equal. unfold len. rewrite length_map in *. lia.
  - intros Hout. cbn [W B].
    eapply train_one_pair; try done. by rewrite length_map.
Qed.

Lemma sgd_step_witness :
  ∃ Zs As deltas net',
    forward_pass (W net_232) (B net_232) x_232 false = Ok (Zs, As) ∧
    forward_contract (topology net_232) (W net_232) (B net_232) x_232
      (length (topology net_232) - 1) Zs As ∧
    delta_contract (topology net_232) (W net_232) Zs As y_232
      (length (topology net_232) - 1) 1 deltas ∧
    train_step 1 (len (layers net_232) - 1) (x_232, y_232) net_232
    = (Ok (), net') ∧
    layers net' = layers net_232 ∧ errors_ net' = errors_ net_232 ∧
    update_contract 1 deltas As (W net_232) (B net_232) (W net') (B net')
      (length (topology net_232) - 1) ∧
    (10 ≤ nth (length (topology net_232) - 1) (topology net_232) 0 →
     ∃ e0 e1,
       train [x_232] [y_232] 1 1 net_232
       = (Ok (), mk_net (layers net_232) (W net') (B net') (Some [e0; e1]))).
Proof.
  apply (sgd_step net_232 x_232 y_232 1%R).
  - repeat constructor.
  - simpl. lia.
  - reflexivity.
  - reflexivity.
Defined.

(** ** Parameter initialisation *)

Lemma foldM_raise {A S : Type} (body : S → A → result S) (l : list A) (s : S)
    (e : exn) :
  foldM body l s = Raise e → ∃ s' x, body s' x = Raise e.
Proof.
  revert s. induction l as [|x l IH]; intros s; cbn [foldM]; [done|].
  destruct (body s x) as [s'|e'] eqn:E.
  - rewrite bind_Ok. apply IH.
  - intros [= <-]. eauto.
Qed.

Lemma py_index_raise {A : Type} (l : list A) (i : Z) (e : exn) :
  py_index l i = Raise e → e = IndexError.
Proof.
  unfold py_index. repeat case_match; congruence.
Qed.

Lemma randn_raise (r c : Z) (g : rng) (e : exn) :
  randn r c g = Raise e → e = ValueError.
Proof. unfold randn. case_match; congruence. Qed.

Lemma sqrt_two_over_raise (n : Z) (e : exn) :
  sqrt_two_over n = Raise e → e = ZeroDivisionError.
Proof. unfold sqrt_two_over. case_match; congruence. Qed.

Lemma bind_Raise {A C : Type} (e : exn) (f : A → result C) :
  (Raise e ≫= f) = Raise e.
Proof. reflexivity. Qed.

Lemma initialize_body_raise (layers : list Z)
    (st : list ndarray * list ndarray * rng) (i : Z) (e : exn) :
  initialize_body layers st i = Raise e →
  e = IndexError ∨ e = ValueError ∨ e = ZeroDivisionError.
Proof.
  destruct st as [[Ws Bs] g]. unfold initialize_body.
  destruct (py_index layers i) as [n|e1] eqn:E1;
    [rewrite !bind_Ok
    | rewrite bind_Raise; intros [= <-]; apply py_index_raise in E1; auto].
  destruct (py_index layers (i - 1)) as [p|e2] eqn:E2;
    [rewrite !bind_Ok
    | rewrite bind_Raise; intros [= <-]; apply py_index_raise in E2; auto].
  destruct (randn n p g) as [[w g1]|e3] eqn:E3;
    [rewrite !bind_Ok; cbn beta iota
    | rewrite bind_Raise; intros [= <-]; apply randn_raise in E3; auto].
  destruct (sqrt_two_over p) as [s|e4] eqn:E4;
    [rewrite !bind_Ok
    | rewrite bind_Raise; intros [= <-]; apply sqrt_two_over_raise in E4; auto].
  destruct (randn n 1 g1) as [[b g2]|e5] eqn:E5;
    [rewrite !bind_Ok; cbn beta iota
    | rewrite bind_Raise; intros [= <-]; apply randn_raise in E5; auto].
  rewrite ?E2, ?E4, ?bind_Ok. done.
Qed.

Lemma randn_ok (r c : Z) (g : rng) :
  (0 <= r)%Z → (0 <= c)%Z →
  ∃ a g', randn r c g = Ok (a, g') ∧ shape a = (Z.to_nat r, Z.to_nat c).
Proof.
  intros Hr Hc. unfold randn.
  destruct (Z.ltb_spec r 0) as [?|_]; [lia|].
  destruct (Z.ltb_spec c 0) as [?|_]; [lia|].
  cbn [orb]. eauto.
Qed.

Lemma sqrt_two_over_ok (n : Z) :
  n ≠ 0%Z → ∃ s, sqrt_two_over n = Ok s.
Proof.
  intros Hn. unfold sqrt_two_over.
  destruct (Z.eqb_spec n 0) as [?|_]; [done | eauto].
Qed.

Lemma initialize_loop (layers : list Z) (g : rng) (k : nat) :
  Forall (λ n, (0 < n)%Z) layers → k < length layers →
  ∃ Ws Bs g',
    foldM (initialize_body layers) (map Z.of_nat (seq 1 k))
          ([placeholder], [placeholder], g)
    = Ok (Ws, Bs, g') ∧
    length Ws = S k ∧ length Bs = S k ∧
    ∀ i, 1 ≤ i ≤ k →
      shape (nth i Ws placeholder)
      = (nth i (map Z.to_nat layers) 0, nth (i - 1) (map Z.to_nat layers) 0) ∧
      shape (nth i Bs placeholder) = (nth i (map Z.to_nat layers) 0, 1).
Proof.
  intros Hpos. induction k as [|k IH]; intros Hk.
  - exists [placeholder], [placeholder], g. split; [done|].
    split; [done|]. split; [done|]. intros i Hi; lia.
  - destruct IH as (Ws & Bs & g0 & Hrun & HW & HB & Hsh); [lia|].
    destruct (lookup_lt_is_Some_2 layers (S k)) as [n En]; [lia|].
    destruct (lookup_lt_is_Some_2 layers k) as [p Ep]; [lia|].
    assert (0 < n)%Z as Hn
      by (rewrite Forall_forall in Hpos; eapply Hpos, list_elem_of_lookup_2, En).
    assert (0 < p)%Z as Hp
      by (rewrite Forall_forall in Hpos; eapply Hpos, list_elem_of_lookup_2, Ep).
    rewrite seq_S, map_app, foldM_app, Hrun, bind_Ok. cbn [map foldM Nat.add].
    unfold initialize_body.
    replace (Z.of_nat (S k) - 1)%Z with (Z.of_nat k) by lia.
    rewrite (py_index_Some _ _ _ En), (py_index_Some _ _ _ Ep). run_ok.
    destruct (randn_ok n p g0) as (w & g1 & -> & Sw); [lia|lia|]. run_ok.
    destruct (sqrt_two_over_ok p) as (s & Es); [lia|]. rewrite Es. run_ok.
    destruct (randn_ok n 1 g1) as (b & g2 & -> & Sb); [lia|lia|]. run_ok.
    rewrite Es. run_ok.
    eexists _, _, _. split; [reflexivity|].
    split; [rewrite length_app; simpl; lia|].
    split; [rewrite length_app; simpl; lia|].
    assert (nth (S k) (map Z.to_nat layers) 0 = Z.to_nat n) as Hnn
      by (apply nth_lookup_Some; by rewrite list_lookup_fmap, En).
    assert (nth k (map Z.to_nat layers) 0 = Z.to_nat p) as Hnp
      by (apply nth_lookup_Some; by rewrite list_lookup_fmap, Ep).
    intros i Hi. destruct (decide (i = S k)) as [->|Hne].
    + rewrite !app_nth2, HW, HB, Nat.sub_diag by lia.
      replace (S k - 1) with k by lia. rewrite Hnn, Hnp. cbn [nth].
      unfold shape in *. cbn [amap nrows ncols]. done.
    + rewrite !app_nth1 by lia. apply Hsh. lia.
Qed.

Lemma initialize_weights_ok (layers : list Z) (g : rng) :
  Forall (λ n, (0 < n)%Z) layers →
  ∃ Ws Bs g',
    initialize_weights layers g = Ok (Ws, Bs, g') ∧
    length Ws = S (length layers - 1) ∧ length Bs = S (length layers - 1) ∧
    (layers ≠ [] → consistent (map Z.to_nat layers) Ws Bs).
Proof.
  intros Hpos. unfold initialize_weights.
  destruct layers as [|n0 layers].
  - exists [placeholder], [placeholder], g. done.
  - destruct (initialize_loop (n0 :: layers) g (length layers) Hpos)
      as (Ws & Bs & g' & Hrun & HW & HB & Hsh); [simpl; lia|].
    exists Ws, Bs, g'.
    replace (len (n0 :: layers)) with (Z.of_nat (length layers) + 1)%Z
      by (unfold len; simpl; lia).
    rewrite range_from_1. split; [done|].
    replace (length (n0 :: layers) - 1) with (length layers) by (simpl; lia).
    split; [done|]. split; [done|].
    intros _. split; [rewrite length_map; simpl; lia|].
    split; [rewrite length_map; simpl; lia|].
    rewrite length_map.
    replace (length (n0 :: layers) - 1) with (length layers) by (simpl; lia).
    apply Forall_forall. intros i Hi%elem_of_seq. apply Hsh. lia.
Qed.




(** ** The network object *)

(** C5, as amended: [train] on an empty example list fails before it
    changes anything, with the [ZeroDivisionError] of the division
    [cost/m] in [MSE]; the code has no [EmptyDatasetError]. *)
Theorem train_empty_dataset (Y : list ndarray) (alpha : R) (epochs : Z)
    (net : DenseNetwork) :
  train [] Y alpha epochs net = (Raise ZeroDivisionError, net).
Proof.
  assert (MSE (W net) (B net) [] Y = Raise ZeroDivisionError) as H.
  { unfold MSE. cbn [combine foldM]. by rewrite bind_Ok. }
  unfold train, mthen, reading. by rewrite H.
Qed.

(** A network built from a one-entry topology has [L = 0]: the loss is
    recorded, then the first step raises [TypeError] on the placeholder
    [Z[0]], and the history stays as assigned. *)
Example train_single_layer_raises :
  let r := train [zeros 10 1] [zeros 10 1] 1 1
                 (mk_net [10%Z] [placeholder] [placeholder] None) in
  r.1 = Raise TypeError ∧ length <$> errors_ r.2 = Some 1.
Proof. split; reflexivity. Qed.

(** C5, as stated, fails: the exception raised on an empty example list is
    not [EmptyDatasetError]. *)
Lemma train_empty_not_EmptyDatasetError :
  (train [] [] 1 1 net_232).1 = Raise ZeroDivisionError ∧
  (train [] [] 1 1 net_232).1 ≠ Raise EmptyDatasetError.
Proof. split; [reflexivity | discriminate]. Qed.

Section Frame.
Context {T : Type} (field : DenseNetwork → T).

Lemma keeps_mthen {A C : Type} (m : method A) (k : A → method C) :
  keeps field m → (∀ a, keeps field (k a)) → keeps field (mthen m k).
Proof.
  intros Hm Hk self. unfold mthen. specialize (Hm self).
  destruct (m self) as [[a|e] self']; simpl in *; [|done].
  by rewrite Hk.
Qed.

Lemma keeps_reading {A : Type} (f : DenseNetwork → result A) :
  keeps field (reading f).
Proof. done. Qed.

Lemma keeps_for_ {A : Type} (l : list A) (body : A → method unit) :
  (∀ x, keeps field (body x)) → keeps field (for_ l body).
Proof.
  intros Hb. induction l as [|x l IH]; [done|].
  cbn [for_]. apply keeps_mthen; [apply Hb | done].
Qed.

End Frame.

Lemma set_W_keeps_layers (v : list ndarray) : keeps layers (set_W v).
Proof. done. Qed.

Lemma set_B_keeps_layers (v : list ndarray) : keeps layers (set_B v).
Proof. done. Qed.

Lemma set_W_keeps_errors_ (v : list ndarray) : keeps errors_ (set_W v).
Proof. done. Qed.

Lemma set_B_keeps_errors_ (v : list ndarray) : keeps errors_ (set_B v).
Proof. done. Qed.

Lemma set_errors__keeps_layers (v : list R) : keeps layers (set_errors_ v).
Proof. done. Qed.

Lemma append_errors__keeps_layers (e : R) : keeps layers (append_errors_ e).
Proof. intros self. unfold append_errors_. by destruct (errors_ self). Qed.

Create HintDb frame.
#[local] Hint Resolve keeps_reading set_W_keeps_layers set_B_keeps_layers
  set_W_keeps_errors_ set_B_keeps_errors_ set_errors__keeps_layers
  append_errors__keeps_layers : frame.
#[local] Hint Extern 2 (keeps _ (mthen _ _)) =>
  apply keeps_mthen; [|intros ?] : frame.
#[local] Hint Extern 2 (keeps _ (for_ _ _)) =>
  apply keeps_for_; intros ? : frame.

(** The parameter update writes [W] and [B] only. *)
Lemma update_body_keeps {T : Type} (field : DenseNetwork → T) (alpha : R)
    (deltas : gmap Z ndarray) (As : list ndarray) (i : Z) :
  (∀ v, keeps field (set_W v)) → (∀ v, keeps field (set_B v)) →
  keeps field (update_body alpha deltas As i).
Proof. intros HW HB. unfold update_body. auto 10 with frame. Qed.

Lemma train_step_keeps {T : Type} (field : DenseNetwork → T) (alpha : R)
    (L : Z) (ex : ndarray * ndarray) :
  (∀ v, keeps field (set_W v)) → (∀ v, keeps field (set_B v)) →
  keeps field (train_step alpha L ex).
Proof.
  intros HW HB. destruct ex as [xi yi]. unfold train_step.
  apply keeps_mthen; [apply keeps_reading|]. intros [As deltas].
  apply keeps_for_. intros i. by apply update_body_keeps.
Qed.

Lemma epoch_keeps_layers (X Y : list ndarray) (alpha : R) (L k : Z) :
  keeps layers (epoch X Y alpha L k).
Proof.
  unfold epoch.
  pose proof (λ ex, train_step_keeps layers alpha L ex
                      set_W_keeps_layers set_B_keeps_layers).
  auto 10 with frame.
Qed.

(** C9: [train] and [predict] leave the attribute [layers] as it was,
    whether they return or raise. *)
Theorem layers_immutable (X Y : list ndarray) (alpha : R) (epochs : Z)
    (x : ndarray) (net : DenseNetwork) :
  layers (train X Y alpha epochs net).2 = layers net ∧
  layers (net_predict x net).2 = layers net.
Proof.
  split.
  - revert net. change (keeps layers (train X Y alpha epochs)).
    unfold train. pose proof epoch_keeps_layers. auto 12 with frame.
  - revert net. change (keeps layers (net_predict x)).
    unfold net_predict. auto with frame.
Qed.

(** ** The loss history *)

(** An epoch that returns has appended one entry to the history. *)
Lemma epoch_appends (X Y : list ndarray) (alpha : R) (L k : Z)
    (self self' : DenseNetwork) (h : list R) :
  errors_ self = Some h →
  epoch X Y alpha L k self = (Ok (), self') →
  ∃ e, errors_ self' = Some (h ++ [e]).
Proof.
  intros Hh. unfold epoch, mthen.
  pose proof (keeps_for_ errors_ (combine X Y) (train_step alpha L)
                (λ ex, train_step_keeps errors_ alpha L ex
                         set_W_keeps_errors_ set_B_keeps_errors_) self) as Hk.
  destruct (for_ (combine X Y) (train_step alpha L) self) as [[[]|e] s1];
    [|done].
  cbn [snd] in Hk. unfold reading, append_errors_.
  destruct (MSE (W s1) (B s1) X Y) as [v|e]; [|done].
  rewrite Hk, Hh. intros [= <-]. eauto.
Qed.

Lemma epochs_append (X Y : list ndarray) (alpha : R) (L : Z) (ks : list Z)
    (self self' : DenseNetwork) (h : list R) :
  errors_ self = Some h →
  for_ ks (epoch X Y alpha L) self = (Ok (), self') →
  ∃ new, errors_ self' = Some (h ++ new) ∧ length new = length ks.
Proof.
  revert self h. induction ks as [|k ks IH]; intros self h Hh; cbn [for_].
  - intros [= <-]. exists []. by rewrite app_nil_r.
  - unfold mthen.
    destruct (epoch X Y alpha L k self) as [[[]|e] s1] eqn:E; [|done].
    destruct (epoch_appends X Y alpha L k self s1 h Hh E) as (v & Hv).
    intros Hrest. destruct (IH s1 (h ++ [v]) Hv Hrest) as (new & Hn & Hl).
    exists (v :: new). rewrite Hn, <- app_assoc. split; [done|].
    simpl. lia.
Qed.

(** Whenever [train] returns, the history it leaves has [epochs + 1]
    entries. *)
Lemma train_returns_history (X Y : list ndarray) (alpha : R) (epochs : Z)
    (net net' : DenseNetwork) :
  train X Y alpha epochs net = (Ok (), net') →
  ∃ e0 new, errors_ net' = Some (e0 :: new) ∧ length new = Z.to_nat epochs.
Proof.
  unfold train, mthen, reading, set_errors_.
  destruct (MSE (W net) (B net) X Y) as [e0|e]; [|done].
  cbn [layers W B errors_]. intros Hrun.
  apply (epochs_append _ _ _ _ _ _ _ [e0]) in Hrun as (new & Hn & Hl);
    [|done].
  exists e0, new. split; [done|]. by rewrite Hl, range_from_0.
Qed.

Lemma init_ok (lys : list Z) (g : rng) :
  Forall (λ n, (0 < n)%Z) lys → lys ≠ [] →
  ∃ Ws Bs g',
    init lys g = Ok (mk_net lys Ws Bs None, g') ∧
    consistent (map Z.to_nat lys) Ws Bs.
Proof.
  intros Hpos Hne.
  destruct (initialize_weights_ok lys g Hpos) as (Ws & Bs & g' & Hrun & _ & _ & Hc).
  exists Ws, Bs, g'. split; [|by apply Hc].
  unfold init. by rewrite Hrun.
Qed.

Lemma init_no_history (lys : list Z) (g g' : rng) (net : DenseNetwork) :
  init lys g = Ok (net, g') → errors_ net = None.
Proof.
  unfold init. destruct (initialize_weights lys g) as [[[Ws Bs] g1]|e]; [|done].
  run_ok. by intros [= <- _].
Qed.


Lemma init_1_10 :
  ∃ g', init layers_1_10 ones_rng = Ok (net_1_10, g').
Proof. eexists. reflexivity. Qed.



(** ** Instances of the contracts on the [2, 3, 2] network *)

Lemma forward_pass_contract_witness :
  ∃ Zs As out,
    forward_pass (W net_232) (B net_232) x_232 false = Ok (Zs, As) ∧
    forward_contract [2; 3; 2] (W net_232) (B net_232) x_232 2 Zs As ∧
    forward_pass (W net_232) (B net_232) x_232 true = Ok out ∧
    As !! 2 = Some out ∧
    shape out = (2, 1).
Proof.
  apply (forward_pass_contract [2; 3; 2] (W net_232) (B net_232) x_232).
  - repeat constructor.
  - discriminate.
  - reflexivity.
Defined.

Lemma predict_first_maximum_witness :
  ∃ Zs As out k,
    forward_pass (W net_232) (B net_232) x_232 false = Ok (Zs, As) ∧
    As !! 2 = Some out ∧
    predict (W net_232) (B net_232) x_232 = Ok k ∧
    (∀ ls h, net_predict x_232 (mk_net ls (W net_232) (B net_232) h)
             = (Ok k, mk_net ls (W net_232) (B net_232) h)) ∧
    k < nrows out ∧
    (∀ j, j < nrows out → (item out j 0 <= item out k 0)%R) ∧
    (∀ j, j < k → (item out j 0 < item out k 0)%R).
Proof.
  apply (predict_first_maximum [2; 3; 2] (W net_232) (B net_232) x_232).
  - repeat constructor.
  - discriminate.
  - reflexivity.
  - simpl. lia.
Defined.

(** * Further properties of the code *)

(** ** The activation *)

Lemma sigma_bounds (t : R) : (0 < sigma t < 1)%R.
Proof.
  unfold sigma. pose proof (exp_pos (- t)) as He. split.
  - apply Rdiv_lt_0_compat; lra.
  - apply (Rmult_lt_reg_r (1 + exp (- t))); [lra|].
    unfold Rdiv. rewrite Rmult_assoc, Rinv_l by lra. lra.
Qed.

Lemma sigma_increasing (t t' : R) : (t < t')%R → (sigma t < sigma t')%R.
Proof.
  intros H. unfold sigma, Rdiv. rewrite !Rmult_1_l.
  pose proof (exp_pos (- t)). pose proof (exp_pos (- t')).
  apply Rinv_lt_contravar; [nra|].
  assert (exp (- t') < exp (- t))%R by (apply exp_increasing; lra). lra.
Qed.

Lemma sigma_opp (t : R) : sigma (- t) = (1 - sigma t)%R.
Proof.
  unfold sigma. rewrite Ropp_involutive, exp_Ropp.
  pose proof (exp_pos t). field. split; [lra|].
  intros E. nra.
Qed.

Lemma dsigma_bounds (t : R) : (0 < dsigma t <= / 4)%R.
Proof.
  unfold dsigma. pose proof (sigma_bounds t) as [H0 H1]. split.
  - apply Rmult_lt_0_compat; lra.
  - pose proof (Rle_0_sqr (sigma t - / 2)) as Hs. unfold Rsqr in Hs. lra.
Qed.

Lemma sigma_derivative (t : R) : derivable_pt_lim sigma t (dsigma t).
Proof.
  pose proof (exp_pos (- t)) as He.
  assert (derivable_pt_lim (fct_cte 1 / (fct_cte 1 + comp exp (- id)))%F t
            ((0 * (1 + exp (- t)) - (0 + exp (- t) * (- 1)) * 1)
             / Rsqr (1 + exp (- t)))%R) as H.
  { apply (derivable_pt_lim_div (fct_cte 1) (fct_cte 1 + comp exp (- id))%F).
    - apply derivable_pt_lim_const.
    - apply derivable_pt_lim_plus; [apply derivable_pt_lim_const|].
      apply (derivable_pt_lim_comp (- id)%F exp).
      + apply derivable_pt_lim_opp. apply derivable_pt_lim_id.
      + apply derivable_pt_lim_exp.
    - unfold plus_fct, fct_cte, comp, opp_fct, id. lra. }
  replace (dsigma t)
    with ((0 * (1 + exp (- t)) - (0 + exp (- t) * (- 1)) * 1)
          / Rsqr (1 + exp (- t)))%R.
  - exact H.
  - unfold dsigma, sigma, Rsqr. field. lra.
Qed.





(** ** The forward pass on arbitrary arguments *)

Lemma forward_loop_lists (Ws Bs : list ndarray) (l : list Z)
    (Zs0 Zs : list (option ndarray)) (As0 As : list ndarray) :
  foldM (forward_body Ws Bs) l (Zs0, As0) = Ok (Zs, As) →
  ∃ zs, Zs = Zs0 ++ (Some <$> zs) ∧ As = As0 ++ (sigmoid <$> zs) ∧
        length zs = length l.
Proof.
  revert Zs0 As0. induction l as [|i l IH]; intros Zs0 As0; cbn [foldM].
  - intros [= <- <-]. exists []. by rewrite !app_nil_r.
  - destruct (forward_body Ws Bs (Zs0, As0) i) as [[Zs1 As1]|e] eqn:E;
      [|done]. rewrite bind_Ok. intros H.
    destruct (IH _ _ H) as (zs & -> & -> & Hl).
    unfold forward_body in E.
    destruct (py_index Ws i); [|done]. rewrite bind_Ok in E.
    destruct (py_index As0 (i - 1)); [|done]. rewrite bind_Ok in E.
    destruct (matmul _ _); [|done]. rewrite bind_Ok in E.
    destruct (py_index Bs i); [|done]. rewrite bind_Ok in E.
    destruct (binop _ _ _) as [z|]; [|done]. rewrite bind_Ok in E.
    injection E as <- <-. exists (z :: zs).
    rewrite <- !app_assoc. split; [done|]. split; [done|]. simpl. lia.
Qed.



(** ** Which exceptions the array code raises *)

Lemma matmul_raise (a b : ndarray) (e : exn) :
  matmul a b = Raise e → e = ValueError.
Proof. unfold matmul. case_decide; congruence. Qed.

Lemma binop_raise (f : R → R → R) (a b : ndarray) (e : exn) :
  binop f a b = Raise e → e = ValueError.
Proof. unfold binop. repeat case_match; congruence. Qed.

Lemma binop1_raise (f : R → R → R) (u v : list R) (e : exn) :
  binop1 f u v = Raise e → e = ValueError.
Proof. unfold binop1. case_match; congruence. Qed.

Lemma forward_body_raise (Ws Bs : list ndarray)
    (st : list (option ndarray) * list ndarray) (i : Z) :
  raises_only index_or_value (forward_body Ws Bs st i).
Proof.
  destruct st as [Zs As]. intros e. unfold forward_body, index_or_value.
  destruct (py_index Ws i) as [w|e1] eqn:E1;
    [rewrite bind_Ok | rewrite bind_Raise; intros [= <-];
                       apply py_index_raise in E1; auto].
  destruct (py_index As (i - 1)) as [ap|e2] eqn:E2;
    [rewrite bind_Ok | rewrite bind_Raise; intros [= <-];
                       apply py_index_raise in E2; auto].
  destruct (matmul w ap) as [m|e3] eqn:E3;
    [rewrite bind_Ok | rewrite bind_Raise; intros [= <-];
                       apply matmul_raise in E3; auto].
  destruct (py_index Bs i) as [b|e4] eqn:E4;
    [rewrite bind_Ok | rewrite bind_Raise; intros [= <-];
                       apply py_index_raise in E4; auto].
  destruct (binop Rplus m b) as [z|e5] eqn:E5;
    [rewrite bind_Ok; done | rewrite bind_Raise; intros [= <-];
                             apply binop_raise in E5; auto].
Qed.

Lemma forward_pass_raise (Ws Bs : list ndarray) (x : ndarray) (pv : bool) :
  raises_only index_or_value (forward_pass Ws Bs x pv).
Proof.
  intros e. unfold forward_pass.
  destruct (foldM _ _ _) as [[Zs As]|e1] eqn:E.
  - rewrite bind_Ok. cbn beta iota. destruct pv; [|done].
    intros H%py_index_raise. by left.
  - rewrite bind_Raise. intros [= <-].
    apply foldM_raise in E as (st & i & E). by apply forward_body_raise in E.
Qed.

Lemma argmax_raise (a : ndarray) (e : exn) :
  argmax a = Raise e → e = ValueError.
Proof. unfold argmax. case_match; congruence. Qed.

Lemma predict_raise (Ws Bs : list ndarray) (x : ndarray) :
  raises_only index_or_value (predict Ws Bs x).
Proof.
  intros e. unfold predict.
  destruct (forward_pass Ws Bs x false) as [[Zs As]|e1] eqn:E.
  - rewrite bind_Ok. cbn beta iota.
    destruct (py_index As (-1)) as [a|e2] eqn:E2.
    + rewrite bind_Ok. intros H%argmax_raise. by right.
    + rewrite bind_Raise. intros [= <-]. apply py_index_raise in E2. by left.
  - rewrite bind_Raise. intros [= <-]. by apply forward_pass_raise in E.
Qed.

(** X5: whatever their arguments, [forward_pass] (in either mode) and
    [predict] raise nothing but [IndexError] (a list that is too short)
    and [ValueError] (shapes that do not fit, or an empty output). *)
Theorem forward_pass_predict_exceptions (Ws Bs : list ndarray) (x : ndarray)
    (pv : bool) :
  raises_only index_or_value (forward_pass Ws Bs x pv) ∧
  raises_only index_or_value (predict Ws Bs x).
Proof. split; [apply forward_pass_raise | apply predict_raise]. Qed.

(** The first layer rejects an input of the wrong length. *)
Lemma first_layer_rejects (sizes : list nat) (Ws Bs : list ndarray)
    (x : ndarray) (l : list Z) :
  consistent sizes Ws Bs → 2 ≤ length sizes → nrows x ≠ nth 0 sizes 0 →
  foldM (forward_body Ws Bs) (1%Z :: l) ([None], [x]) = Raise ValueError.
Proof.
  intros Hc Hlen Hx.
  destruct (consistent_layer sizes Ws Bs 1 Hc) as (w & b & Ew & _ & Sw & _);
    [lia|].
  pose proof (py_index_Some Ws 1 w Ew) as E1.
  change (Z.of_nat 1) with 1%Z in E1.
  assert (forward_body Ws Bs ([None], [x]) 1 = Raise ValueError) as Hb.
  { unfold forward_body. rewrite E1, bind_Ok.
    change (py_index [x] (1 - 1)) with (Ok x). rewrite bind_Ok.
    unfold matmul. injection Sw as _ Hwc.
    rewrite decide_False by (simpl in Hwc; lia). done. }
  cbn [foldM]. by rewrite Hb.
Qed.

Lemma range_from_1_cons (n : nat) :
  range 1 (Z.of_nat (S n) + 1) = 1%Z :: map Z.of_nat (seq 2 n).
Proof. by rewrite range_from_1. Qed.

Lemma forward_pass_rejects (sizes : list nat) (Ws Bs : list ndarray)
    (x : ndarray) (pv : bool) :
  consistent sizes Ws Bs → 2 ≤ length sizes → nrows x ≠ nth 0 sizes 0 →
  forward_pass Ws Bs x pv = Raise ValueError.
Proof.
  intros Hc Hlen Hx. unfold forward_pass.
  replace (len Ws - 1 + 1)%Z with (Z.of_nat (S (length sizes - 2)) + 1)%Z
    by (destruct Hc as [HW _]; unfold len; lia).
  rewrite range_from_1_cons.
  by rewrite (first_layer_rejects sizes Ws Bs x _ Hc Hlen Hx).
Qed.

(** X6: on parameters that fit a topology of at least two layers, an input
    whose number of rows is not [layers[0]] is rejected with [ValueError]
    by [forward_pass] (either mode), by [predict] and by [MSE], and
    [train] given such an input as its first example raises [ValueError]
    leaving every attribute of the object as it was. *)
Theorem wrong_input_length_rejected (sizes : list nat) (Ws Bs : list ndarray)
    (x y : ndarray) (X Y : list ndarray) :
  consistent sizes Ws Bs → 2 ≤ length sizes → nrows x ≠ nth 0 sizes 0 →
  (∀ pv, forward_pass Ws Bs x pv = Raise ValueError) ∧
  predict Ws Bs x = Raise ValueError ∧
  MSE Ws Bs (x :: X) (y :: Y) = Raise ValueError ∧
  ∀ ls h alpha epochs,
    train (x :: X) (y :: Y) alpha epochs (mk_net ls Ws Bs h)
    = (Raise ValueError, mk_net ls Ws Bs h).
Proof.
  intros Hc Hlen Hx.
  pose proof (λ pv, forward_pass_rejects sizes Ws Bs x pv Hc Hlen Hx) as Hfp.
  assert (MSE Ws Bs (x :: X) (y :: Y) = Raise ValueError) as HM.
  { unfold MSE. cbn [combine foldM].
    change (MSE_body Ws Bs (0%R, 0) (x, y))
      with (a ← forward_pass Ws Bs x true; e ← mse a y;
            Ok ((0 + e)%R, 1)).
    by rewrite Hfp. }
  split; [done|]. split; [|split; [done|]].
  - unfold predict. by rewrite Hfp.
  - intros ls h alpha epochs. unfold train, mthen, reading. cbn [W B].
    by rewrite HM.
Qed.

Lemma wrong_input_length_rejected_witness :
  (∀ pv, forward_pass (W net_232) (B net_232) (zeros 3 1) pv
         = Raise ValueError) ∧
  predict (W net_232) (B net_232) (zeros 3 1) = Raise ValueError ∧
  MSE (W net_232) (B net_232) [zeros 3 1] [y_232] = Raise ValueError ∧
  ∀ ls h alpha epochs,
    train [zeros 3 1] [y_232] alpha epochs
          (mk_net ls (W net_232) (B net_232) h)
    = (Raise ValueError, mk_net ls (W net_232) (B net_232) h).
Proof.
  apply (wrong_input_length_rejected [2; 3; 2] (W net_232) (B net_232)
           (zeros 3 1) y_232 [] []).
  - repeat constructor.
  - simpl. lia.
  - simpl. lia.
Defined.

(** ** The losses on arbitrary arguments *)

Lemma foldM_raise_in {A S : Type} (body : S → A → result S) (l : list A)
    (s : S) (e : exn) :
  foldM body l s = Raise e → ∃ s' x, x ∈ l ∧ body s' x = Raise e.
Proof.
  revert s. induction l as [|x l IH]; intros s; cbn [foldM]; [done|].
  destruct (body s x) as [s'|e'] eqn:E.
  - rewrite bind_Ok. intros H. destruct (IH _ H) as (s1 & x1 & Hx & H1).
    exists s1, x1. split; [by right | done].
  - rewrite bind_Raise. intros [= <-]. exists s, x. split; [by left | done].
Qed.

Lemma bdim_comm (m n : nat) : bdim m n = bdim n m.
Proof.
  unfold bdim.
  destruct (Nat.eqb_spec m n), (Nat.eqb_spec n m), (Nat.eqb_spec m 1),
    (Nat.eqb_spec n 1); subst; try done; lia.
Qed.

Lemma row_raise (a : ndarray) (i : nat) (e : exn) :
  row a i = Raise e → e = IndexError.
Proof. unfold row. case_match; congruence. Qed.

(** One item of the generator that [mse] sums. *)
Lemma mse_item_comm (a y : ndarray) (i : nat) :
  (ai ← row a i; yi ← row y i; d ← binop1 Rminus ai yi;
   Ok (map (λ t, t ^ 2)%R d))
  = (yi ← row y i; ai ← row a i; d ← binop1 Rminus yi ai;
     Ok (map (λ t, t ^ 2)%R d)).
Proof.
  destruct (row a i) as [u|e1] eqn:E1, (row y i) as [v|e2] eqn:E2;
    rewrite ?bind_Ok, ?bind_Raise; try done.
  - unfold binop1. rewrite (bdim_comm (length v)).
    destruct (bdim (length u) (length v)) as [n|]; [|done].
    rewrite !bind_Ok. f_equal. rewrite !map_map.
    apply map_ext. intros j. ring.
  - apply row_raise in E1 as ->. apply row_raise in E2 as ->. done.
Qed.

Lemma py_add_array (s s' : pynum) (v : list R) :
  py_add s v = Ok s' → ∃ u, s' = Array1 u.
Proof.
  destruct s as [r|u]; simpl.
  - intros [= <-]. eauto.
  - destruct (binop1 Rplus u v); simpl; [|done]. intros [= <-]. eauto.
Qed.

Lemma py_add_raise (s : pynum) (v : list R) (e : exn) :
  py_add s v = Raise e → e = ValueError.
Proof.
  destruct s as [r|u]; simpl; [done|].
  destruct (binop1 Rplus u v) eqn:E; simpl; [done|].
  intros [= <-]. by apply binop1_raise in E.
Qed.

Lemma py_sum_array (gen : list (result (list R))) (s0 s : pynum) :
  foldM (λ s g, v ← g; py_add s v) gen s0 = Ok s →
  gen ≠ [] ∨ (∃ u, s0 = Array1 u) → ∃ u, s = Array1 u.
Proof.
  revert s0. induction gen as [|g gen IH]; intros s0; cbn [foldM].
  - intros [= <-] [?|?]; done.
  - destruct g as [v|e]; [rewrite bind_Ok | done].
    destruct (py_add s0 v) as [s1|e] eqn:E; [rewrite bind_Ok | done].
    intros H _. apply (IH s1 H). right. by eapply py_add_array.
Qed.

Lemma mse_raise (a y : ndarray) : raises_only index_or_value (mse a y).
Proof.
  intros e. unfold mse, py_sum, index_or_value.
  destruct (foldM _ _ _) as [s|e1] eqn:E.
  - rewrite bind_Ok.
    apply py_sum_array in E as (u & ->); [|left; done].
    destruct u as [|x u]; simpl; [|done]. intros [= <-]. by left.
  - rewrite bind_Raise. intros [= <-].
    apply foldM_raise_in in E as (s' & g & Hg & E).
    apply list_elem_of_fmap in Hg as (i & -> & _).
    destruct (row a i) as [ai|e1'] eqn:E1;
      [rewrite bind_Ok in E
      | rewrite !bind_Raise in E; injection E as <-;
        apply row_raise in E1; auto].
    destruct (row y i) as [yi|e2] eqn:E2;
      [rewrite bind_Ok in E
      | rewrite !bind_Raise in E; injection E as <-;
        apply row_raise in E2; auto].
    destruct (binop1 Rminus ai yi) as [d|e3] eqn:E3;
      [rewrite !bind_Ok in E
      | rewrite !bind_Raise in E; injection E as <-;
        apply binop1_raise in E3; auto].
    apply py_add_raise in E. auto.
Qed.

(** X7: [mse] is symmetric in its two arguments, whatever their shapes:
    it returns the same value, or raises the same exception, with the
    arguments exchanged; and it raises nothing but [IndexError] (fewer
    than ten rows, or no column) and [ValueError] (rows that cannot be
    broadcast together). *)
Theorem mse_symmetric (a y : ndarray) :
  mse a y = mse y a ∧ raises_only index_or_value (mse a y).
Proof.
  split; [|apply mse_raise].
  unfold mse. f_equal. f_equal. apply map_ext. intros i.
  apply mse_item_comm.
Qed.

Lemma MSE_loop_count (Ws Bs : list ndarray) (l : list (ndarray * ndarray))
    (cost cost' : R) (m m' : nat) :
  foldM (MSE_body Ws Bs) l (cost, m) = Ok (cost', m') →
  m' = m + length l ∧ ((0 <= cost)%R → (0 <= cost')%R).
Proof.
  revert cost m. induction l as [|[x y] l IH]; intros cost m; cbn [foldM].
  - intros [= <- <-]. split; [simpl; lia | done].
  - change (MSE_body Ws Bs (cost, m) (x, y))
      with (a ← forward_pass Ws Bs x true; e ← mse a y;
            Ok ((cost + e)%R, S m)).
    destruct (forward_pass Ws Bs x true) as [a|]; [rewrite bind_Ok | done].
    destruct (mse a y) as [e|] eqn:E; [rewrite !bind_Ok | done].
    intros H. apply IH in H as [-> Hc]. split; [simpl; lia|].
    intros H0. apply Hc. apply mse_nonneg in E. lra.
Qed.

Lemma MSE_body_raise (Ws Bs : list ndarray) (st : R * nat)
    (ex : ndarray * ndarray) :
  raises_only index_or_value (MSE_body Ws Bs st ex).
Proof.
  destruct st as [cost m], ex as [x y]. intros e.
  change (MSE_body Ws Bs (cost, m) (x, y))
    with (a ← forward_pass Ws Bs x true; e ← mse a y;
          Ok ((cost + e)%R, S m)).
  destruct (forward_pass Ws Bs x true) as [a|e1] eqn:E1;
    [rewrite bind_Ok
    | rewrite bind_Raise; intros [= <-]; by apply forward_pass_raise in E1].
  destruct (mse a y) as [v|e2] eqn:E2;
    [rewrite bind_Ok; done
    | rewrite bind_Raise; intros [= <-]; by apply mse_raise in E2].
Qed.

(** X8: whatever its arguments, [MSE] returns no negative value; it raises
    [ZeroDivisionError] exactly when the zip of the examples and the
    labels is empty, and otherwise nothing but [IndexError] and
    [ValueError]. *)
Theorem MSE_value_and_exceptions (Ws Bs : list ndarray) (X Y : list ndarray) :
  (∀ v, MSE Ws Bs X Y = Ok v → (0 <= v)%R) ∧
  (MSE Ws Bs X Y = Raise ZeroDivisionError ↔ combine X Y = []) ∧
  raises_only (λ e, index_or_value e ∨ e = ZeroDivisionError) (MSE Ws Bs X Y).
Proof.
  unfold MSE.
  destruct (foldM (MSE_body Ws Bs) (combine X Y) (0%R, 0)) as [[cost m]|e1]
    eqn:E.
  - apply MSE_loop_count in E as [Hm Hc]. rewrite bind_Ok. cbn beta iota.
    simpl in Hm. subst m.
    destruct (Nat.eqb_spec (length (combine X Y)) 0) as [H0|H0].
    + apply nil_length_inv in H0.
      split; [done|]. split; [done|]. intros e [= <-]. by right.
    + split; [|split; [|done]].
      * intros v [= <-]. unfold Rdiv.
        apply Rmult_le_pos; [apply Hc; lra|].
        left. apply Rinv_0_lt_compat, lt_0_INR. lia.
      * split; [done|]. intros El. by rewrite El in H0.
  - rewrite bind_Raise.
    assert (index_or_value e1) as He1.
    { apply foldM_raise in E as (st & ex & E). by apply MSE_body_raise in E. }
    split; [done|]. split.
    + split.
      * intros [= ->]. destruct He1; done.
      * intros El. rewrite El in E. done.
    + intros e [= <-]. by left.
Qed.

(** ** Training: degenerate runs and invariants *)

(** X9: with an epoch count of zero or below, [train] only records the
    baseline loss: the parameters are left as they were and the history is
    that single entry; when the baseline loss raises, [train] raises the
    same exception and the object is left untouched. *)
Theorem train_no_epochs (X Y : list ndarray) (alpha : R) (epochs : Z)
    (net : DenseNetwork) :
  (epochs <= 0)%Z →
  train X Y alpha epochs net =
  match MSE (W net) (B net) X Y with
  | Ok e0 => (Ok (), mk_net (layers net) (W net) (B net) (Some [e0]))
  | Raise e => (Raise e, net)
  end.
Proof.
  intros He. unfold train, mthen, reading, set_errors_.
  destruct (MSE (W net) (B net) X Y) as [e0|e]; [|done].
  cbn [layers W B errors_]. unfold range.
  replace (Z.to_nat (epochs - 0)) with 0 by lia. done.
Qed.

Lemma train_no_epochs_witness :
  train X_1_10 Y_1_10 1 (-3) net_1_10 =
  match MSE (W net_1_10) (B net_1_10) X_1_10 Y_1_10 with
  | Ok e0 => (Ok (), mk_net (layers net_1_10) (W net_1_10) (B net_1_10)
                            (Some [e0]))
  | Raise e => (Raise e, net_1_10)
  end.
Proof.
  apply (train_no_epochs X_1_10 Y_1_10 1%R (-3)%Z net_1_10). lia.
Defined.

Lemma isub_shape (a b c : ndarray) : isub a b = Ok c → shape c = shape a.
Proof.
  unfold isub. destruct (binop Rminus a b) as [c'|]; [rewrite bind_Ok | done].
  case_decide; [|done]. by intros [= <-].
Qed.

Lemma py_setitem_fmap {A C : Type} (f : A → C) (l l' : list A) (i : Z)
    (x y : A) :
  py_index l i = Ok x → py_setitem l i y = Ok l' → f y = f x →
  f <$> l' = f <$> l.
Proof.
  unfold py_index, py_setitem. intros Hx Hy Hf.
  destruct (_ <? 0)%Z; [done|].
  destruct (l !! _) as [x'|] eqn:E; [|done]. injection Hx as ->.
  destruct (_ <? len l)%Z; [|done]. injection Hy as <-.
  rewrite list_fmap_insert, Hf. apply list_insert_id.
  by rewrite list_lookup_fmap, E.
Qed.

Lemma update_body_keeps_shapes (alpha : R) (deltas : gmap Z ndarray)
    (As : list ndarray) (i : Z) :
  keeps shapes (update_body alpha deltas As i).
Proof.
  intros [ls Ws Bs h].
  unfold update_body, mthen, reading, set_W, set_B, shapes.
  cbn [layers W B errors_].
  assert (∀ Ws', py_index Ws i ≫= (λ Wi, dict_get deltas i ≫= λ d,
             py_index As (i - 1) ≫= λ Ap,
             matmul (amap (Rmult alpha) d) (transpose Ap) ≫= λ g,
             isub Wi g ≫= λ Wi', py_setitem Ws i Wi') = Ok Ws' →
          shape <$> Ws' = shape <$> Ws) as HW.
  { intros Ws'. destruct (py_index Ws i) as [Wi|] eqn:E1; [|done].
    rewrite bind_Ok. destruct (dict_get deltas i) as [d|]; [|done].
    rewrite bind_Ok. destruct (py_index As (i - 1)) as [Ap|]; [|done].
    rewrite bind_Ok. destruct (matmul _ _) as [g|]; [|done].
    rewrite bind_Ok. destruct (isub Wi g) as [Wi'|] eqn:E2; [|done].
    rewrite bind_Ok. intros E3.
    eapply py_setitem_fmap; [exact E1 | exact E3 | by eapply isub_shape]. }
  assert (∀ Bs', py_index Bs i ≫= (λ Bi, dict_get deltas i ≫= λ d,
             isub Bi (amap (Rmult alpha) d) ≫= λ Bi',
             py_setitem Bs i Bi') = Ok Bs' →
          shape <$> Bs' = shape <$> Bs) as HB.
  { intros Bs'. destruct (py_index Bs i) as [Bi|] eqn:E1; [|done].
    rewrite bind_Ok. destruct (dict_get deltas i) as [d|]; [|done].
    rewrite bind_Ok. destruct (isub Bi _) as [Bi'|] eqn:E2; [|done].
    rewrite bind_Ok. intros E3.
    eapply py_setitem_fmap; [exact E1 | exact E3 | by eapply isub_shape]. }
  destruct (py_index Ws i ≫= _) as [Ws'|e] eqn:EW; [|done].
  cbn [layers W B errors_]. specialize (HW Ws' eq_refl).
  destruct (py_index Bs i ≫= _) as [Bs'|e] eqn:EB;
    cbn [fst snd layers W B errors_]; [|by rewrite HW].
  by rewrite HW, (HB Bs' eq_refl).
Qed.

Lemma train_keeps_shapes_frame (X Y : list ndarray) (alpha : R) (epochs : Z) :
  keeps shapes (train X Y alpha epochs).
Proof.
  assert (∀ L ex, keeps shapes (train_step alpha L ex)) as Hstep.
  { intros L [xi yi]. unfold train_step.
    apply keeps_mthen; [apply keeps_reading|]. intros [As deltas].
    apply keeps_for_. intros i. apply update_body_keeps_shapes. }
  assert (∀ e, keeps shapes (append_errors_ e)) as Happ.
  { intros e self. unfold append_errors_. by destruct (errors_ self). }
  unfold train.
  apply keeps_mthen; [apply keeps_reading|]. intros e0.
  apply keeps_mthen; [done|]. intros _.
  apply keeps_mthen; [apply keeps_reading|]. intros L.
  apply keeps_for_. intros k. unfold epoch.
  apply keeps_mthen; [by apply keeps_for_|]. intros _.
  apply keeps_mthen; [apply keeps_reading|]. intros e. apply Happ.
Qed.

Lemma consistent_shapes (sizes : list nat) (Ws Bs Ws' Bs' : list ndarray) :
  shape <$> Ws' = shape <$> Ws → shape <$> Bs' = shape <$> Bs →
  consistent sizes Ws Bs → consistent sizes Ws' Bs'.
Proof.
  intros HW HB (HlW & HlB & Hall).
  assert (∀ (l l' : list ndarray) i, shape <$> l' = shape <$> l →
            shape (nth i l' placeholder) = shape (nth i l placeholder)) as Hn.
  { intros l l'. revert l.
    induction l' as [|a l' IH]; intros [|b l] i Hl; try done.
    injection Hl as Hr Hc Hl.
    destruct i as [|i]; simpl; [unfold shape; congruence|]. by apply IH. }
  split; [by rewrite <- HlW, <- (length_fmap shape Ws'), HW, length_fmap|].
  split; [by rewrite <- HlB, <- (length_fmap shape Bs'), HB, length_fmap|].
  eapply Forall_impl; [exact Hall|]. intros i [H1 H2]. cbn beta in *.
  by rewrite (Hn Ws Ws' i HW), (Hn Bs Bs' i HB).
Qed.

(** X10: in every run of [train], returning or raising, every array of
    [W] and [B] keeps its shape and both lists keep their length; so
    parameters that fit a topology before the call fit it after. *)
Theorem train_keeps_shapes (X Y : list ndarray) (alpha : R) (epochs : Z)
    (net : DenseNetwork) :
  shapes (train X Y alpha epochs net).2 = shapes net ∧
  ∀ sizes, consistent sizes (W net) (B net) →
           consistent sizes (W (train X Y alpha epochs net).2)
                      (B (train X Y alpha epochs net).2).
Proof.
  pose proof (train_keeps_shapes_frame X Y alpha epochs net) as H.
  split; [done|]. intros sizes Hc.
  injection H as HW HB. by eapply consistent_shapes.
Qed.

(** ** Steps that change nothing *)

Lemma rsum_zero_below (f : nat → R) (n : nat) :
  (∀ k, k < n → f k = 0%R) → rsum f n = 0%R.
Proof.
  intros H. rewrite (rsum_ext f (λ _, 0%R)) by done. by apply rsum_zero.
Qed.

Lemma deltas_vanish (sizes : list nat) (Ws : list ndarray)
    (Zs : list (option ndarray)) (As : list ndarray) (y : ndarray)
    (L : nat) (deltas : gmap Z ndarray) (aL : ndarray) :
  delta_contract sizes Ws Zs As y L 1 deltas →
  As !! L = Some aL →
  (∀ r, r < nth L sizes 0 → item aL r 0 = item y r 0) →
  ∀ k i, i + k = L → 1 ≤ i →
    ∃ d, deltas !! Z.of_nat i = Some d ∧
         ∀ r, r < nth i sizes 0 → item d r 0 = 0%R.
Proof.
  intros Hdel HaL Hzero. induction k as [|k IH]; intros i Hk Hi.
  - assert (i = L) as -> by lia.
    destruct (Hdel L) as (d & z & Ed & _ & _ & HL & _); [lia|].
    destruct (HL eq_refl) as (aL' & EaL & Hd).
    rewrite HaL in EaL. injection EaL as <-.
    exists d. split; [done|]. intros r Hr.
    rewrite Hd, Hzero by done. lra.
  - destruct (Hdel i) as (d & z & Ed & _ & _ & _ & Hlt); [lia|].
    destruct Hlt as (w & dn & _ & Edn & Hd); [lia|].
    destruct (IH (S i)) as (dn' & Edn' & Hz); [lia|lia|].
    rewrite Edn in Edn'. injection Edn' as <-.
    exists d. split; [done|]. intros r Hr.
    rewrite Hd by done. rewrite rsum_zero_below; [lra|].
    intros k' Hk'. rewrite Hz by done. lra.
Qed.

Lemma forward_pass_modes (Ws Bs : list ndarray) (x : ndarray)
    (Zs : list (option ndarray)) (As : list ndarray) :
  forward_pass Ws Bs x false = Ok (Zs, As) →
  forward_pass Ws Bs x true = py_index As (-1).
Proof.
  unfold forward_pass. destruct (foldM _ _ _) as [[Zs' As']|]; [|done].
  rewrite !bind_Ok. cbn beta iota. by intros [= _ <-].
Qed.

(** X11: under the conditions of a gradient step (fitting parameters, at
    least two layers, a fitting pair), when the learning rate is 0, or
    when the network's output for the input already equals the label, the
    step returns and leaves every entry of every array of [W] and [B] as
    it was. *)
Theorem sgd_step_no_change (net : DenseNetwork) (x y : ndarray) (alpha : R) :
  consistent (topology net) (W net) (B net) →
  2 ≤ length (topology net) →
  shape x = (nth 0 (topology net) 0, 1) →
  shape y = (nth (length (topology net) - 1) (topology net) 0, 1) →
  alpha = 0%R ∨
  (∃ out, forward_pass (W net) (B net) x true = Ok out ∧
          ∀ r, r < nrows out → item out r 0 = item y r 0) →
  ∃ net',
    train_step alpha (len (layers net) - 1) (x, y) net = (Ok (), net') ∧
    same_arrays (W net) (W net') ∧ same_arrays (B net) (B net').
Proof.
  destruct net as [ls Ws Bs h]. unfold topology. cbn [layers W B errors_].
  set (sizes := map Z.to_nat ls). intros Hc Hlen Hx Hy Hcase.
  destruct (train_step_spec sizes alpha x y Ws Bs Hc Hlen Hx Hy)
    as (Zs & As & deltas & Ws' & Bs' & Hfp & Hfwd & Hdel & Hrun & Hup & _).
  exists (mk_net ls Ws' Bs' h). cbn [W B].
  split.
  { rewrite <- Hrun. f_equal. unfold len, sizes. rewrite length_map. 
    unfold sizes in Hlen. rewrite length_map in Hlen. lia. }
  assert (∀ i d, 1 ≤ i ≤ length sizes - 1 → deltas !! Z.of_nat i = Some d →
            ∀ r, r < nth i sizes 0 → (alpha * item d r 0 = 0)%R) as Hz.
  { intros i d Hi Ed r Hr. destruct Hcase as [->|(out & Eo & Ho)]; [lra|].
    pose proof Hfwd as (_ & HA & _ & Hsh & _).
    rewrite (forward_pass_modes _ _ _ _ _ Hfp), py_index_minus1, HA in Eo.
    replace (S (length sizes - 1) - 1) with (length sizes - 1) in Eo by lia.
    destruct (As !! (length sizes - 1)) as [aL|] eqn:EaL; [|done].
    injection Eo as ->. injection (Hsh _ _ EaL) as Hor _.
    destruct (deltas_vanish sizes Ws Zs As y _ deltas out Hdel EaL)
      with (k := length sizes - 1 - i) (i := i) as (d' & Ed' & Hd');
      [intros; apply Ho; lia | lia | lia |].
    rewrite Ed in Ed'. injection Ed' as <-. rewrite Hd' by done. lra. }
  destruct Hup as (HlW & HlB & Hrest & Hdone).
  split; (split; [done|]); intros i w w' Ew Ew'.
  - destruct (decide (1 ≤ i ≤ length sizes - 1)) as [Hi|Hi].
    + destruct (Hdone i Hi)
        as (w0 & b0 & w0' & b0' & d & ap & E1 & _ & E3 & _ & Ed & _ & Sw & _ & Iw & _).
      rewrite Ew in E1. rewrite Ew' in E3. injection E1 as <-. injection E3 as <-.
      split; [done|]. intros r c Hr Hc'.
      injection Sw as Hwr Hwc. rewrite Hwr in Hr. rewrite Hwc in Hc'.
      rewrite Iw by done.
      destruct (consistent_layer sizes Ws Bs i Hc) as (w1 & _ & E1 & _ & S1 & _);
        [lia|].
      rewrite Ew in E1. injection E1 as <-. injection S1 as Hn _.
      rewrite (Hz i d Hi Ed r) by lia. lra.
    + destruct (Hrest i) as [E _]; [lia|].
      rewrite Ew, Ew' in E. injection E as ->. by split.
  - destruct (decide (1 ≤ i ≤ length sizes - 1)) as [Hi|Hi].
    + destruct (Hdone i Hi)
        as (w0 & b0 & w0' & b0' & d & ap & _ & E1 & _ & E3 & Ed & _ & _ & Sb & _ & Ib).
      rewrite Ew in E1. rewrite Ew' in E3. injection E1 as <-. injection E3 as <-.
      split; [done|]. intros r c Hr Hc'.
      injection Sb as Hbr Hbc. rewrite Hbr in Hr. rewrite Hbc in Hc'.
      destruct (consistent_layer sizes Ws Bs i Hc) as (_ & b1 & _ & E1 & _ & S1);
        [lia|].
      rewrite Ew in E1. injection E1 as <-. injection S1 as Hn Hc1.
      assert (c = 0) as -> by lia.
      rewrite Ib by done.
      pose proof (Hz i d Hi Ed r ltac:(lia)). lra.
    + destruct (Hrest i) as [_ E]; [lia|].
      rewrite Ew, Ew' in E. injection E as ->. by split.
Qed.

Lemma sgd_step_no_change_witness :
  ∃ net',
    train_step 0 (len (layers net_232) - 1) (x_232, y_232) net_232
    = (Ok (), net') ∧
    same_arrays (W net_232) (W net') ∧ same_arrays (B net_232) (B net').
Proof.
  apply (sgd_step_no_change net_232 x_232 y_232 0%R).
  - repeat constructor.
  - simpl. lia.
  - reflexivity.
  - reflexivity.
  - left. reflexivity.
Defined.

(** ** The output error signal is the gradient of the loss *)

Lemma derivable_pt_lim_rsum (f : nat → R → R) (l : nat → R) (x : R) (n : nat) :
  (∀ j, j < n → derivable_pt_lim (f j) x (l j)) →
  derivable_pt_lim (λ t, rsum (λ j, f j t) n) x (rsum l n).
Proof.
  induction n as [|n IH]; intros H; simpl.
  - apply derivable_pt_lim_const.
  - apply (derivable_pt_lim_plus (λ t, rsum (λ j, f j t) n) (f n)).
    + apply IH. intros j Hj. apply H. lia.
    + apply H. lia.
Qed.

Lemma rsum_indicator (v : R) (r n : nat) :
  r < n → rsum (λ j, if decide (j = r) then v else 0%R) n = v.
Proof.
  induction n as [|n IH]; intros Hr; [lia|]. simpl.
  destruct (decide (n = r)) as [->|Hne].
  - rewrite rsum_zero_below; [lra|].
    intros k Hk. by rewrite decide_False by lia.
  - rewrite IH by lia. lra.
Qed.

Lemma squared_error_derivative (c x : R) :
  derivable_pt_lim (λ t, (sigma t - c) ^ 2)%R x
                   (2 * (sigma x - c) * dsigma x)%R.
Proof.
  pose proof (sigma_derivative x) as Hs.
  assert (derivable_pt_lim (sigma - fct_cte c)%F x (dsigma x - 0)%R) as Hm
    by (apply derivable_pt_lim_minus; [done | apply derivable_pt_lim_const]).
  pose proof (derivable_pt_lim_mult _ _ _ _ _ Hm Hm) as H.
  eapply derivable_pt_lim_ext in H.
  - replace (2 * (sigma x - c) * dsigma x)%R
      with ((dsigma x - 0) * (sigma - fct_cte c)%F x
            + (sigma - fct_cte c)%F x * (dsigma x - 0))%R; [exact H|].
    unfold minus_fct, fct_cte. ring.
  - intros t. unfold mult_fct, minus_fct, fct_cte. simpl. ring.
Qed.



(** ** What the initializer accepts and what it draws *)

Lemma initialize_body_cases (layers : list Z)
    (st : list ndarray * list ndarray * rng) (i : nat) (n p : Z) :
  1 ≤ i → layers !! i = Some n → layers !! (i - 1) = Some p →
  ((0 <= n)%Z ∧ (0 < p)%Z ∧
   ∃ st', initialize_body layers st (Z.of_nat i) = Ok st') ∨
  (¬ ((0 <= n)%Z ∧ (0 < p)%Z) ∧
   ∃ e, initialize_body layers st (Z.of_nat i) = Raise e ∧
        value_or_zero_division e).
Proof.
  intros Hi En Ep. destruct st as [[Ws Bs] g]. unfold initialize_body.
  replace (Z.of_nat i - 1)%Z with (Z.of_nat (i - 1)) by lia.
  rewrite (py_index_Some _ _ _ En), (py_index_Some _ _ _ Ep). run_ok.
  destruct (Z.ltb_spec n 0) as [Hn|Hn].
  { right. split; [lia|]. exists ValueError. split; [|by left].
    unfold randn. destruct (Z.ltb_spec n 0) as [_|?]; [done | lia]. }
  destruct (Z.ltb_spec p 0) as [Hp|Hp].
  { right. split; [lia|]. exists ValueError. split; [|by left].
    unfold randn. destruct (Z.ltb_spec p 0) as [_|?]; [|lia].
    by rewrite orb_true_r. }
  destruct (randn_ok n p g) as (w & g1 & -> & _); [lia|lia|]. run_ok.
  destruct (Z.eqb_spec p 0) as [Hp0|Hp0].
  { right. split; [lia|]. exists ZeroDivisionError. split; [|by right].
    unfold sqrt_two_over. subst p. done. }
  destruct (sqrt_two_over_ok p Hp0) as (s & Es). rewrite Es. run_ok.
  destruct (randn_ok n 1 g1) as (b & g2 & -> & _); [lia|lia|]. run_ok.
  rewrite Es. run_ok.
  left. split; [done|]. split; [lia|]. eauto.
Qed.

Lemma initialize_loop_cases (layers : list Z) (g : rng) (k : nat) :
  k < length layers →
  ((∀ i n p, 1 ≤ i ≤ k → layers !! i = Some n →
             layers !! (i - 1) = Some p → (0 <= n)%Z ∧ (0 < p)%Z) ∧
   ∃ st, foldM (initialize_body layers) (map Z.of_nat (seq 1 k))
               ([placeholder], [placeholder], g) = Ok st) ∨
  (¬ (∀ i n p, 1 ≤ i ≤ k → layers !! i = Some n →
               layers !! (i - 1) = Some p → (0 <= n)%Z ∧ (0 < p)%Z) ∧
   ∃ e, foldM (initialize_body layers) (map Z.of_nat (seq 1 k))
              ([placeholder], [placeholder], g) = Raise e ∧
        value_or_zero_division e).
Proof.
  induction k as [|k IH]; intros Hk.
  - left. split; [intros; lia | by eexists].
  - rewrite seq_S, map_app, foldM_app. cbn [map Nat.add].
    destruct IH as [[Hall [st Hst]]|[Hnot (e & He & Hv)]]; [lia| |].
    + rewrite Hst, bind_Ok. cbn [foldM].
      destruct (lookup_lt_is_Some_2 layers (S k)) as [n En]; [lia|].
      destruct (lookup_lt_is_Some_2 layers (S k - 1)) as [p Ep]; [lia|].
      destruct (initialize_body_cases layers st (S k) n p ltac:(lia) En Ep)
        as [(Hn & Hp & st' & ->)|[Hbad (e & -> & He)]].
      * left. split; [|by eexists].
        intros i n' p' Hi En' Ep'.
        destruct (decide (i = S k)) as [->|Hne]; [|eapply Hall; eauto; lia].
        rewrite En in En'. rewrite Ep in Ep'. by simplify_eq.
      * right. split; [|by exists e].
        intros Hall'. apply Hbad. eapply (Hall' (S k)); eauto. lia.
    + right. split.
      * intros Hall'. apply Hnot. intros i n p Hi. apply Hall'. lia.
      * exists e. by rewrite He.
Qed.

Lemma randn_value (r c : Z) (g : rng) :
  (0 <= r)%Z → (0 <= c)%Z →
  randn r c g
  = Ok ({| nrows := Z.to_nat r; ncols := Z.to_nat c;
           item i j := g (i * Z.to_nat c + j) |},
        λ n, g (Z.to_nat r * Z.to_nat c + n)).
Proof.
  intros Hr Hc. unfold randn.
  destruct (Z.ltb_spec r 0) as [?|_]; [lia|].
  destruct (Z.ltb_spec c 0) as [?|_]; [lia|]. done.
Qed.

Lemma sqrt_two_over_value (n : Z) :
  n ≠ 0%Z → sqrt_two_over n = Ok (sqrt (2 / IZR n)).
Proof.
  intros Hn. unfold sqrt_two_over.
  by destruct (Z.eqb_spec n 0) as [?|_].
Qed.

Lemma initialize_draws_loop (layers : list Z) (g : rng) (k : nat) :
  Forall (λ n, (0 < n)%Z) layers → k < length layers →
  ∃ Ws Bs g',
    foldM (initialize_body layers) (map Z.of_nat (seq 1 k))
          ([placeholder], [placeholder], g)
    = Ok (Ws, Bs, g') ∧
    length Ws = S k ∧ length Bs = S k ∧
    (∀ m, g' m = g (drawn (map Z.to_nat layers) k + m)) ∧
    ∀ i, 1 ≤ i ≤ k → ∀ r c,
      item (nth i Ws placeholder) r c
      = (g (weight_sample (map Z.to_nat layers) i r c)
         * sqrt (2 / IZR (nth (i - 1) layers 0%Z)))%R ∧
      item (nth i Bs placeholder) r 0
      = (g (bias_sample (map Z.to_nat layers) i r)
         * sqrt (2 / IZR (nth (i - 1) layers 0%Z)))%R.
Proof.
  intros Hpos. induction k as [|k IH]; intros Hk.
  - exists [placeholder], [placeholder], g. split; [done|].
    split; [done|]. split; [done|]. split; [done|]. intros i Hi; lia.
  - destruct IH as (Ws & Bs & g0 & Hrun & HW & HB & Hg & Hit); [lia|].
    destruct (lookup_lt_is_Some_2 layers (S k)) as [n En]; [lia|].
    destruct (lookup_lt_is_Some_2 layers k) as [p Ep]; [lia|].
    assert (0 < n)%Z as Hn
      by (rewrite Forall_forall in Hpos; eapply Hpos, list_elem_of_lookup_2, En).
    assert (0 < p)%Z as Hp
      by (rewrite Forall_forall in Hpos; eapply Hpos, list_elem_of_lookup_2, Ep).
    rewrite seq_S, map_app, foldM_app, Hrun, bind_Ok. cbn [map foldM Nat.add].
    unfold initialize_body.
    replace (Z.of_nat (S k) - 1)%Z with (Z.of_nat k) by lia.
    rewrite (py_index_Some _ _ _ En), (py_index_Some _ _ _ Ep). run_ok.
    rewrite (randn_value n p) by lia. run_ok.
    rewrite (sqrt_two_over_value p) by lia. run_ok.
    rewrite (randn_value n 1) by lia. run_ok.
    rewrite (sqrt_two_over_value p) by lia. run_ok.
    assert (nth (S k) (map Z.to_nat layers) 0 = Z.to_nat n) as Hnn
      by (apply nth_lookup_Some; by rewrite list_lookup_fmap, En).
    assert (nth k (map Z.to_nat layers) 0 = Z.to_nat p) as Hnp
      by (apply nth_lookup_Some; by rewrite list_lookup_fmap, Ep).
    assert (nth k layers 0%Z = p) as Hp' by (by apply nth_lookup_Some).
    eexists _, _, _. split; [reflexivity|].
    split; [rewrite length_app; simpl; lia|].
    split; [rewrite length_app; simpl; lia|].
    split.
    + intros m. cbn [drawn]. rewrite Hg, Hnn, Hnp.
      change (Z.to_nat 1) with 1. f_equal. lia.
    + intros i Hi r c. unfold weight_sample, bias_sample.
      destruct (decide (i = S k)) as [->|Hne].
      * rewrite !app_nth2, HW, HB, Nat.sub_diag by lia.
        replace (S k - 1) with k by lia. rewrite Hnn, Hnp, Hp'.
        cbn [nth amap item]. rewrite !Hg. change (Z.to_nat 1) with 1.
        split; do 2 f_equal; lia.
      * rewrite !app_nth1 by lia. apply (Hit i). lia.
Qed.



(** ** Training in two calls *)

Section Resume.
Variables (pre : list R) (v : R).

Lemma simulates_mthen {A C : Type} (m : method A) (k : A → method C) :
  simulates pre v m → (∀ x, simulates pre v (k x)) →
  simulates pre v (mthen m k).
Proof.
  intros Hm Hk a b Hab. unfold mthen. destruct (Hm a b Hab) as [H1 H2].
  destruct (m a) as [[x|e] a'], (m b) as [[x'|e'] b']; simpl in *;
    simplify_eq; [by apply Hk | done].
Qed.

Lemma simulates_reading {A : Type} (f : DenseNetwork → result A) :
  (∀ a b, resumed pre v a b → f a = f b) → simulates pre v (reading f).
Proof. intros Hf a b Hab. split; [by apply Hf | done]. Qed.

Lemma simulates_for_ {A : Type} (l : list A) (body : A → method unit) :
  (∀ x, simulates pre v (body x)) → simulates pre v (for_ l body).
Proof.
  intros Hb. induction l as [|x l IH]; [done|].
  cbn [for_]. apply simulates_mthen; [apply Hb | done].
Qed.

Lemma simulates_set_W (w : list ndarray) : simulates pre v (set_W w).
Proof. intros a b (Hl & HW & HB & He). done. Qed.

Lemma simulates_set_B (w : list ndarray) : simulates pre v (set_B w).
Proof. intros a b (Hl & HW & HB & He). done. Qed.

Lemma simulates_append_errors_ (e : R) : simulates pre v (append_errors_ e).
Proof.
  intros a b (Hl & HW & HB & h & Ha & Hb). unfold append_errors_.
  rewrite Ha, Hb. split; [done|]. split_and!; try done.
  exists (h ++ [e]). split; [done|]. cbn [snd errors_].
  by rewrite <- app_assoc.
Qed.

Lemma simulates_update_body (alpha : R) (deltas : gmap Z ndarray)
    (As : list ndarray) (i : Z) :
  simulates pre v (update_body alpha deltas As i).
Proof.
  unfold update_body.
  apply simulates_mthen;
    [apply simulates_reading; intros a b (_ & HW & _); by rewrite HW|].
  intros w. apply simulates_mthen; [apply simulates_set_W|]. intros _.
  apply simulates_mthen;
    [apply simulates_reading; intros a b (_ & _ & HB & _); by rewrite HB|].
  intros b. apply simulates_set_B.
Qed.

Lemma simulates_epoch (X Y : list ndarray) (alpha : R) (L k : Z) :
  simulates pre v (epoch X Y alpha L k).
Proof.
  unfold epoch. apply simulates_mthen.
  - apply simulates_for_. intros [xi yi]. unfold train_step.
    apply simulates_mthen;
      [apply simulates_reading; intros a b (_ & HW & HB & _);
       by rewrite HW, HB|].
    intros [As deltas]. apply simulates_for_. intros i.
    apply simulates_update_body.
  - intros _. apply simulates_mthen;
      [apply simulates_reading; intros a b (_ & HW & HB & _);
       by rewrite HW, HB|].
    intros e. apply simulates_append_errors_.
Qed.

End Resume.

Lemma for__ignore {A : Type} (l l' : list A) (body : A → method unit)
    (self : DenseNetwork) :
  (∀ x y, body x = body y) → length l = length l' →
  for_ l body self = for_ l' body self.
Proof.
  intros Hb. revert l' self.
  induction l as [|x l IH]; intros [|y l'] self Hl; try done.
  cbn [for_]. unfold mthen. rewrite (Hb x y).
  destruct (body y self) as [[[]|e] s]; [|done].
  apply IH. simpl in Hl. lia.
Qed.

Lemma train_unfold (X Y : list ndarray) (alpha : R) (epochs : Z)
    (net : DenseNetwork) :
  train X Y alpha epochs net
  = match MSE (W net) (B net) X Y with
    | Ok e0 => for_ (range 0 epochs)
                    (epoch X Y alpha (len (layers net) - 1))
                    (with_errors_ net [e0])
    | Raise e => (Raise e, net)
    end.
Proof.
  unfold train, mthen, reading, set_errors_.
  by destruct (MSE (W net) (B net) X Y).
Qed.

(** An epoch that returns leaves the loss of the parameters it leaves as
    the last entry of the history. *)
Lemma epoch_ends_with_loss (X Y : list ndarray) (alpha : R) (L k : Z)
    (self self' : DenseNetwork) (h : list R) :
  errors_ self = Some h →
  epoch X Y alpha L k self = (Ok (), self') →
  ∃ e, errors_ self' = Some (h ++ [e]) ∧ MSE (W self') (B self') X Y = Ok e.
Proof.
  intros Hh. unfold epoch, mthen.
  pose proof (keeps_for_ errors_ (combine X Y) (train_step alpha L)
                (λ ex, train_step_keeps errors_ alpha L ex
                         set_W_keeps_errors_ set_B_keeps_errors_) self) as Hk.
  destruct (for_ (combine X Y) (train_step alpha L) self) as [[[]|e] s1];
    [|done].
  cbn [snd] in Hk. unfold reading, append_errors_.
  destruct (MSE (W s1) (B s1) X Y) as [e|e] eqn:E; [|done].
  rewrite Hk, Hh. intros [= <-]. exists e. done.
Qed.

Lemma epochs_end_with_loss (X Y : list ndarray) (alpha : R) (L : Z)
    (ks : list Z) (self self' : DenseNetwork) (h : list R) (e : R) :
  errors_ self = Some (h ++ [e]) → MSE (W self) (B self) X Y = Ok e →
  for_ ks (epoch X Y alpha L) self = (Ok (), self') →
  ∃ h' e', errors_ self' = Some (h' ++ [e']) ∧
           MSE (W self') (B self') X Y = Ok e'.
Proof.
  revert self h e. induction ks as [|k ks IH]; intros self h e Hh He;
    cbn [for_].
  - intros [= <-]. eauto.
  - unfold mthen.
    destruct (epoch X Y alpha L k self) as [[[]|x] s1] eqn:E; [|done].
    destruct (epoch_ends_with_loss X Y alpha L k self s1 _ Hh E)
      as (e1 & He1 & Hm1).
    intros Hrest. by eapply IH.
Qed.

(** X15: training in two calls.  When a call of [train] with [e1] epochs
    raises, the call with [e1 + e2] epochs raises the same exception and
    leaves the same object.  When it returns, [train] with [e1 + e2]
    epochs does what a second call with [e2] epochs does next: the same
    outcome and the same parameters, and its loss history is the history
    of the first call followed by that of the second without its first
    entry. *)
Theorem train_resumes (X Y : list ndarray) (alpha : R) (e1 e2 : Z)
    (net : DenseNetwork) :
  (0 <= e1)%Z → (0 <= e2)%Z →
  match train X Y alpha e1 net with
  | (Ok _, net1) =>
      ∃ h1 h2,
        errors_ net1 = Some h1 ∧
        errors_ (train X Y alpha e2 net1).2 = Some h2 ∧
        train X Y alpha (e1 + e2) net
        = ((train X Y alpha e2 net1).1,
           with_errors_ (train X Y alpha e2 net1).2 (h1 ++ tail h2))
  | (Raise e, net1) => train X Y alpha (e1 + e2) net = (Raise e, net1)
  end.
Proof.
  intros H1 H2.
  rewrite (train_unfold X Y alpha e1 net),
          (train_unfold X Y alpha (e1 + e2) net).
  destruct (MSE (W net) (B net) X Y) as [e0|x] eqn:E0; [|done].
  set (L := (len (layers net) - 1)%Z).
  rewrite (for__ignore (range 0 (e1 + e2)) (range 0 e1 ++ range 0 e2))
    by (done || rewrite length_app, !range_from_0; lia).
  rewrite for__app. unfold mthen.
  destruct (for_ (range 0 e1) (epoch X Y alpha L) (with_errors_ net [e0]))
    as [[[]|x] net1] eqn:E1; [|done].
  destruct (epochs_end_with_loss X Y alpha L (range 0 e1)
              (with_errors_ net [e0]) net1 [] e0 eq_refl E0 E1)
    as (pre & v & Hh1 & Hv).
  assert (layers net1 = layers net) as Hlay.
  { pose proof (keeps_for_ layers (range 0 e1) (epoch X Y alpha L)
                  (epoch_keeps_layers X Y alpha L) (with_errors_ net [e0]))
      as Hk.
    by rewrite E1 in Hk. }
  exists (pre ++ [v]). rewrite (train_unfold X Y alpha e2 net1), Hv, Hlay.
  fold L.
  destruct (simulates_for_ pre v (range 0 e2) (epoch X Y alpha L)
              (simulates_epoch pre v X Y alpha L)
              (with_errors_ net1 [v]) net1)
    as (Hr & Hl & HW & HB & h & Ha & Hb).
  { split_and!; try done. exists []. done. }
  exists (v :: h). split; [done|]. split; [done|].
  destruct (for_ (range 0 e2) (epoch X Y alpha L) (with_errors_ net1 [v]))
    as [r2 net2].
  destruct (for_ (range 0 e2) (epoch X Y alpha L) net1) as [r' net'].
  destruct net2, net'. unfold with_errors_. simpl in *. subst.
  by rewrite <- app_assoc.
Qed.

Lemma train_resumes_witness :
  match train X_1_10 Y_1_10 1 1 net_1_10 with
  | (Ok _, net1) =>
      ∃ h1 h2,
        errors_ net1 = Some h1 ∧
        errors_ (train X_1_10 Y_1_10 1 2 net1).2 = Some h2 ∧
        train X_1_10 Y_1_10 1 (1 + 2) net_1_10
        = ((train X_1_10 Y_1_10 1 2 net1).1,
           with_errors_ (train X_1_10 Y_1_10 1 2 net1).2 (h1 ++ tail h2))
  | (Raise e, net1) =>
      train X_1_10 Y_1_10 1 (1 + 2) net_1_10 = (Raise e, net1)
  end.
Proof.
  apply (train_resumes X_1_10 Y_1_10 1%R 1%Z 2%Z net_1_10); lia.
Defined.

(** ** Which exceptions training raises *)

Tactic Notation "bind_cases" ident(E) :=
  match goal with
  | |- context [?m ≫= _] =>
      destruct m eqn:E;
      [rewrite bind_Ok; cbn beta iota | rewrite bind_Raise; intros [= <-]]
  end.

Lemma may_raise_mthen {A C : Type} (P : exn → Prop) (m : method A)
    (k : A → method C) :
  may_raise P m → (∀ x, may_raise P (k x)) → may_raise P (mthen m k).
Proof.
  intros Hm Hk self e. unfold mthen. specialize (Hm self e).
  destruct (m self) as [[x|e'] s]; simpl in *; [apply Hk | intros [= <-]; auto].
Qed.

Lemma may_raise_reading {A : Type} (P : exn → Prop)
    (f : DenseNetwork → result A) :
  (∀ self, raises_only P (f self)) → may_raise P (reading f).
Proof. intros Hf self. apply Hf. Qed.

Lemma may_raise_for_ {A : Type} (P : exn → Prop) (l : list A)
    (body : A → method unit) :
  (∀ x, may_raise P (body x)) → may_raise P (for_ l body).
Proof.
  intros Hb. induction l as [|x l IH]; [done|].
  cbn [for_]. apply may_raise_mthen; [apply Hb | done].
Qed.

Lemma isub_raise (a b : ndarray) (e : exn) :
  isub a b = Raise e → e = ValueError.
Proof.
  unfold isub. destruct (binop Rminus a b) as [c|e'] eqn:E.
  - rewrite bind_Ok. case_decide; congruence.
  - rewrite bind_Raise. intros [= <-]. by apply binop_raise in E.
Qed.

Lemma py_setitem_raise {A : Type} (l : list A) (i : Z) (v : A) (e : exn) :
  py_setitem l i v = Raise e → e = IndexError.
Proof. unfold py_setitem. repeat case_match; congruence. Qed.

Lemma dict_get_is_Some {V : Type} (d : gmap Z V) (k : Z) :
  is_Some (d !! k) → ∃ v, dict_get d k = Ok v.
Proof. intros [v Hv]. exists v. by apply dict_get_Some. Qed.

Lemma update_body_raise (alpha : R) (deltas : gmap Z ndarray)
    (As : list ndarray) (i : Z) :
  is_Some (deltas !! i) →
  may_raise index_or_value (update_body alpha deltas As i).
Proof.
  intros [d Hd%dict_get_Some]. unfold update_body, index_or_value.
  apply may_raise_mthen.
  { apply may_raise_reading. intros self e. rewrite Hd.
    bind_cases E1; [|apply py_index_raise in E1; auto].
    rewrite bind_Ok.
    bind_cases E2; [|apply py_index_raise in E2; auto].
    bind_cases E3; [|apply matmul_raise in E3; auto].
    bind_cases E4; [|apply isub_raise in E4; auto].
    intros H%py_setitem_raise. auto. }
  intros w. apply may_raise_mthen; [done|]. intros _.
  apply may_raise_mthen; [|done].
  apply may_raise_reading. intros self e. rewrite Hd.
  bind_cases E1; [|apply py_index_raise in E1; auto].
  rewrite bind_Ok.
  bind_cases E2; [|apply isub_raise in E2; auto].
  intros H%py_setitem_raise. auto.
Qed.

Lemma forward_pass_Zs (Ws Bs : list ndarray) (x : ndarray)
    (Zs : list (option ndarray)) (As : list ndarray) :
  forward_pass Ws Bs x false = Ok (Zs, As) →
  ∃ zs, Zs = None :: (Some <$> zs).
Proof.
  unfold forward_pass.
  destruct (foldM _ _ _) as [[Zs' As']|e] eqn:E; [|done].
  rewrite bind_Ok. cbn beta iota. intros [= <- <-].
  apply forward_loop_lists in E as (zs & -> & _). by exists zs.
Qed.

Lemma py_index_placeholder (zs : list ndarray) (i : Z) :
  py_index (None :: (Some <$> zs)) i = Ok None → (i <= 0)%Z.
Proof.
  unfold py_index. destruct (Z.ltb_spec i 0) as [?|Hi]; [lia|].
  destruct (Z.ltb_spec i 0) as [?|_]; [lia|].
  destruct (Z.to_nat i) as [|j] eqn:Ej; [lia|].
  change ((None :: (Some <$> zs)) !! S j) with ((Some <$> zs) !! j).
  rewrite list_lookup_fmap. by destruct (zs !! j).
Qed.

Lemma d_sigmoid_entry_raise (zs : list ndarray) (i : Z)
    (z : option ndarray) (e : exn) :
  py_index (None :: (Some <$> zs)) i = Ok z →
  d_sigmoid_entry z = Raise e → e = TypeError ∧ (i <= 0)%Z.
Proof.
  intros Hz. destruct z as [z|]; cbn [d_sigmoid_entry].
  - destruct (d_sigmoid_same z) as (d & -> & _). done.
  - intros [= <-]. split; [done|]. by eapply py_index_placeholder.
Qed.

Lemma deltas_body_raise (Ws : list ndarray) (zs : list ndarray)
    (deltas : gmap Z ndarray) (i : Z) :
  (1 <= i)%Z → is_Some (deltas !! (i + 1)%Z) →
  raises_only index_or_value
              (deltas_body Ws (None :: (Some <$> zs)) deltas i).
Proof.
  intros Hi [d Hd%dict_get_Some] e. unfold deltas_body, index_or_value.
  bind_cases E1; [|apply py_index_raise in E1; auto].
  rewrite Hd, bind_Ok.
  bind_cases E2; [|apply matmul_raise in E2; auto].
  bind_cases E3; [|apply py_index_raise in E3; auto].
  bind_cases E4; [|apply (d_sigmoid_entry_raise _ _ _ _ E3) in E4; lia].
  bind_cases E5; [done | apply binop_raise in E5; auto].
Qed.

Lemma deltas_body_insert (Ws : list ndarray) (Zs : list (option ndarray))
    (deltas deltas' : gmap Z ndarray) (i : Z) :
  deltas_body Ws Zs deltas i = Ok deltas' → ∃ d, deltas' = <[i := d]> deltas.
Proof.
  unfold deltas_body.
  destruct (py_index Ws (i + 1)); [rewrite bind_Ok | done].
  destruct (dict_get deltas (i + 1)); [rewrite bind_Ok | done].
  destruct (matmul _ _); [rewrite bind_Ok | done].
  destruct (py_index Zs i); [rewrite bind_Ok | done].
  destruct (d_sigmoid_entry _); [rewrite bind_Ok | done].
  destruct (binop _ _ _) as [d|]; [rewrite bind_Ok | done].
  intros [= <-]. by exists d.
Qed.

(** The loop over the hidden layers finds the entry of [deltas] it reads
    and leaves one entry for every layer it visits. *)
Lemma deltas_loop_keys (Ws : list ndarray) (zs : list ndarray) (n : nat) :
  ∀ (start : Z) (d0 : gmap Z ndarray),
    n = 0 ∨ (Z.of_nat n <= start)%Z → is_Some (d0 !! (start + 1)%Z) →
    match foldM (deltas_body Ws (None :: (Some <$> zs)))
                (map (λ k, (start - Z.of_nat k)%Z) (seq 0 n)) d0 with
    | Ok d => ∀ k, is_Some (d0 !! k) ∨ (start - Z.of_nat n < k <= start)%Z →
                   is_Some (d !! k)
    | Raise e => index_or_value e
    end.
Proof.
  induction n as [|n IH]; intros start d0 Hn Hd0.
  - simpl. intros k [?|?]; [done | lia].
  - destruct Hn as [?|Hn]; [done|].
    cbn [seq map foldM]. rewrite <- seq_shift, map_map.
    rewrite (map_ext _ (λ k, (start - 1 - Z.of_nat k)%Z)) by (intros; lia).
    replace (start - Z.of_nat 0)%Z with start by lia.
    destruct (deltas_body Ws (None :: (Some <$> zs)) d0 start) as [d1|e]
      eqn:E.
    + rewrite bind_Ok. apply deltas_body_insert in E as [d ->].
      specialize (IH (start - 1)%Z (<[start := d]> d0)).
      destruct (foldM _ _ _) as [d2|e].
      * intros k Hk. apply IH.
        -- right. lia.
        -- replace (start - 1 + 1)%Z with start by lia.
           rewrite lookup_insert_eq. by eexists.
        -- destruct (decide (k = start)) as [->|Hne].
           ++ left. rewrite lookup_insert_eq. by eexists.
           ++ rewrite lookup_insert_ne by done.
              destruct Hk as [?|?]; [by left | right; lia].
      * apply IH; [right; lia|].
        replace (start - 1 + 1)%Z with start by lia.
        rewrite lookup_insert_eq. by eexists.
    + rewrite bind_Raise.
      eapply (deltas_body_raise Ws zs d0 start); [lia | done | exact E].
Qed.

(** The forward pass and the error signals of a step: what they raise,
    and the entries of [deltas] they leave. *)
Lemma backward_outcome (Ws Bs : list ndarray) (x y : ndarray) (L : Z) :
  match backward Ws Bs x y L with
  | Ok (As, deltas) => ∀ k, (1 <= k <= L)%Z → is_Some (deltas !! k)
  | Raise e => step_raises L e
  end.
Proof.
  unfold backward, step_raises, index_or_value.
  destruct (forward_pass Ws Bs x false) as [[Zs As]|e] eqn:E0.
  2:{ rewrite bind_Raise. left. by apply forward_pass_raise in E0. }
  rewrite bind_Ok. cbn beta iota.
  apply forward_pass_Zs in E0 as [zs ->].
  destruct (py_index As L) as [AL|e] eqn:E1.
  2:{ rewrite bind_Raise. apply py_index_raise in E1. auto. }
  rewrite bind_Ok.
  destruct (binop Rminus AL y) as [er|e] eqn:E2.
  2:{ rewrite bind_Raise. apply binop_raise in E2. auto. }
  rewrite bind_Ok.
  destruct (py_index (None :: (Some <$> zs)) L) as [ZL|e] eqn:E3.
  2:{ rewrite bind_Raise. apply py_index_raise in E3. auto. }
  rewrite bind_Ok.
  destruct (d_sigmoid_entry ZL) as [ds|e] eqn:E4.
  2:{ rewrite bind_Raise. right.
      by apply (d_sigmoid_entry_raise _ _ _ _ E3) in E4. }
  rewrite bind_Ok.
  destruct (binop Rmult er ds) as [oe|e] eqn:E5.
  2:{ rewrite bind_Raise. apply binop_raise in E5. auto. }
  rewrite bind_Ok. unfold range_down.
  pose proof (deltas_loop_keys Ws zs (Z.to_nat (L - 1 - 0)) (L - 1)
                (<[L := oe]> ∅)) as Hloop.
  destruct (foldM _ _ _) as [deltas|e].
  - rewrite bind_Ok. intros k Hk. apply Hloop.
    + lia.
    + replace (L - 1 + 1)%Z with L by lia. rewrite lookup_insert_eq.
      by eexists.
    + destruct (decide (k = L)) as [->|Hne].
      * left. rewrite lookup_insert_eq. by eexists.
      * right. lia.
  - rewrite bind_Raise. left. apply Hloop.
    + lia.
    + replace (L - 1 + 1)%Z with L by lia. rewrite lookup_insert_eq.
      by eexists.
Qed.

Lemma range_bounds (start stop k : Z) :
  k ∈ range start stop → (start <= k < stop)%Z.
Proof.
  unfold range. intros (j & -> & Hj%elem_of_seq)%list_elem_of_fmap. lia.
Qed.

Lemma for__raise_in {A : Type} (P : exn → Prop) (l : list A)
    (body : A → method unit) :
  (∀ x, x ∈ l → may_raise P (body x)) → may_raise P (for_ l body).
Proof.
  induction l as [|x l IH]; intros Hb; [done|].
  cbn [for_]. apply may_raise_mthen.
  - apply Hb. by left.
  - intros _. apply IH. intros y Hy. apply Hb. by right.
Qed.

Lemma train_step_raise (alpha : R) (L : Z) (ex : ndarray * ndarray) :
  may_raise (step_raises L) (train_step alpha L ex).
Proof.
  destruct ex as [xi yi]. intros self e. unfold train_step, mthen, reading.
  pose proof (backward_outcome (W self) (B self) xi yi L) as Hb.
  destruct (backward (W self) (B self) xi yi L) as [[As deltas]|e'].
  - intros He. left. revert He.
    apply (for__raise_in index_or_value (range 1 (L + 1))
             (update_body alpha deltas As)).
    intros i Hi%range_bounds. apply update_body_raise, Hb. lia.
  - simpl. intros [= <-]. done.
Qed.

Lemma MSE_raise (Ws Bs : list ndarray) (X Y : list ndarray) :
  raises_only (λ e, index_or_value e ∨ e = ZeroDivisionError)
              (MSE Ws Bs X Y).
Proof.
  intros e. unfold MSE.
  destruct (foldM (MSE_body Ws Bs) (combine X Y) (0%R, 0)) as [[cost m]|e1]
    eqn:E.
  - rewrite bind_Ok. cbn beta iota. case_match; [|done].
    intros [= <-]. by right.
  - rewrite bind_Raise. intros [= <-]. left.
    apply foldM_raise in E as (st & ex & E). by apply MSE_body_raise in E.
Qed.

Lemma epoch_raise (X Y : list ndarray) (alpha : R) (L k : Z)
    (self : DenseNetwork) (h : list R) :
  errors_ self = Some h →
  raises_only (λ e, step_raises L e ∨ e = ZeroDivisionError)
              (epoch X Y alpha L k self).1.
Proof.
  intros Hh e. unfold epoch, mthen.
  pose proof (keeps_for_ errors_ (combine X Y) (train_step alpha L)
                (λ ex, train_step_keeps errors_ alpha L ex
                         set_W_keeps_errors_ set_B_keeps_errors_) self) as Hk.
  pose proof (may_raise_for_ (step_raises L) (combine X Y)
                (train_step alpha L) (train_step_raise alpha L) self) as Hr.
  destruct (for_ (combine X Y) (train_step alpha L) self) as [[[]|e'] s1].
  - cbn [snd] in Hk. unfold reading, append_errors_.
    pose proof (MSE_raise (W s1) (B s1) X Y) as Hm.
    destruct (MSE (W s1) (B s1) X Y) as [v|e'].
    + by rewrite Hk, Hh.
    + simpl. intros [= <-]. destruct (Hm e' eq_refl) as [?|?].
      * left. by left.
      * by right.
  - simpl. intros [= <-]. left. by apply Hr.
Qed.

Lemma epochs_raise (X Y : list ndarray) (alpha : R) (L : Z) (ks : list Z) :
  ∀ (self : DenseNetwork) (h : list R),
    errors_ self = Some h →
    raises_only (λ e, step_raises L e ∨ e = ZeroDivisionError)
                (for_ ks (epoch X Y alpha L) self).1.
Proof.
  induction ks as [|k ks IH]; intros self h Hh e; [done|].
  cbn [for_]. unfold mthen.
  pose proof (epoch_raise X Y alpha L k self h Hh) as Hr.
  destruct (epoch X Y alpha L k self) as [[[]|e'] s1] eqn:E.
  - destruct (epoch_appends X Y alpha L k self s1 h Hh E) as (v & Hv).
    by apply (IH s1 _ Hv).
  - simpl. intros [= <-]. by apply Hr.
Qed.


(** ** Classifying with a constructed network *)

Lemma predict_ok (sizes : list nat) (Ws Bs : list ndarray) (x : ndarray) :
  consistent sizes Ws Bs → sizes ≠ [] → shape x = (nth 0 sizes 0, 1) →
  0 < nth (length sizes - 1) sizes 0 →
  ∃ k, predict Ws Bs x = Ok k ∧ k < nth (length sizes - 1) sizes 0.
Proof.
  intros Hc Hne Hx Hout.
  assert (0 < length sizes) as Hpos by (destruct sizes; [done | simpl; lia]).
  destruct (forward_loop sizes Ws Bs x (length sizes - 1) Hc Hx)
    as (Zs & As & Hrun & HZ & HA & H0 & Hsh & Hlay); [lia|].
  destruct (lookup_lt_is_Some_2 As (length sizes - 1)) as [out Eo]; [lia|].
  injection (Hsh _ _ Eo) as Hr Hcol.
  destruct (argmax_column out Hcol) as (k & Ek & Hk & _); [lia|].
  assert (forward_pass Ws Bs x false = Ok (Zs, As)) as Hfp.
  { unfold forward_pass.
    replace (range 1 (len Ws - 1 + 1))
      with (map Z.of_nat (seq 1 (length sizes - 1))); [by rewrite Hrun|].
    rewrite <- range_from_1. f_equal. destruct Hc as [HW _]. unfold len. lia. }
  assert (py_index As (-1) = Ok out) as Hlast.
  { rewrite py_index_minus1, HA.
    replace (S (length sizes - 1) - 1) with (length sizes - 1) by lia.
    by rewrite Eo. }
  exists k. split; [|lia].
  unfold predict. rewrite Hfp. simpl. rewrite Hlast. simpl. done.
Qed.

Lemma net_predict_ok (sizes : list nat) (net : DenseNetwork) (x : ndarray) :
  consistent sizes (W net) (B net) → sizes ≠ [] →
  shape x = (nth 0 sizes 0, 1) → 0 < nth (length sizes - 1) sizes 0 →
  ∃ k, net_predict x net = (Ok k, net) ∧ k < nth (length sizes - 1) sizes 0.
Proof.
  intros Hc Hne Hx Hout.
  destruct (predict_ok sizes (W net) (B net) x Hc Hne Hx Hout) as (k & Hp & Hk).
  exists k. split; [|done].
  unfold net_predict, mthen, reading. cbn beta iota.
  fold (predict (W net) (B net) x). by rewrite Hp.
Qed.



(** ** Label encoding *)

Lemma np_index_nat (n : nat) (i : Z) :
  (0 <= i < Z.of_nat n)%Z → np_index n i = Ok (Z.to_nat i).
Proof.
  intros Hi. unfold np_index.
  destruct (Z.ltb_spec i 0) as [?|_]; [lia|].
  destruct (Z.ltb_spec i 0) as [?|_]; [lia|].
  destruct (Z.leb_spec (Z.of_nat n) i) as [?|_]; [lia|]. done.
Qed.

Lemma argmax_indicator (v : ndarray) (k : nat) :
  shape v = (10, 1) → k < 10 →
  (∀ r, r < 10 → item v r 0 = if decide (r = k) then 1%R else 0%R) →
  argmax v = Ok k.
Proof.
  intros [= Hr Hc] Hk Hv.
  destruct (argmax_column v Hc) as (m & Em & Hm & Hmax & _); [lia|].
  rewrite Em. f_equal.
  specialize (Hmax k ltac:(lia)). rewrite !Hv in Hmax by lia.
  rewrite decide_True in Hmax by done.
  destruct (decide (m = k)) as [?|?]; [done | lra].
Qed.

(** X18: the two label encoders of the data preparation agree, and they
    are inverted by [np.argmax]: for a digit [y] of [0..9] both build the
    column of ten entries that is 1 in row [y] and 0 elsewhere, [argmax]
    of that column is [y], and its loss against itself is 0. *)
Theorem onehot_round_trip (y : Z) :
  (0 <= y < 10)%Z →
  ∃ v v',
    onehot_train y = Ok v ∧ onehot_test y = Ok v' ∧ same_array v v' ∧
    shape v = (10, 1) ∧
    (∀ r, r < 10 → item v r 0 = if decide (r = Z.to_nat y) then 1%R else 0%R) ∧
    argmax v = Ok (Z.to_nat y) ∧ argmax v' = Ok (Z.to_nat y) ∧
    mse v v' = Ok 0%R.
Proof.
  intros Hy. unfold onehot_train, onehot_test. cbn [zeros nrows ncols].
  rewrite (np_index_nat 10 y) by lia. rewrite (np_index_nat 1 0) by lia.
  rewrite !bind_Ok. change (Z.to_nat 0) with 0.
  set (k := Z.to_nat y). assert (k < 10) as Hk by lia.
  eexists _, _. split; [reflexivity|]. split; [reflexivity|].
  assert (∀ r, r < 10 →
            item (set_entry (zeros 10 1) k 0 1) r 0
            = if decide (r = k) then 1%R else 0%R) as Hv.
  { intros r Hr. cbn [set_entry item zeros].
    destruct (decide (r = k)) as [->|Hne].
    - by rewrite decide_True.
    - by rewrite decide_False by (intros [? _]; done). }
  assert (same_array (set_entry (zeros 10 1) k 0 1) (set_row (zeros 10 1) k 1))
    as Hsame.
  { split; [done|]. cbn [set_entry set_row nrows ncols item zeros].
    intros i j Hi Hj. assert (j = 0) as -> by lia.
    destruct (decide (i = k)) as [->|Hne].
    - by rewrite decide_True.
    - by rewrite decide_False by (intros [? _]; done). }
  split; [done|]. split; [done|]. split; [done|].
  split; [by apply argmax_indicator|].
  split.
  { apply argmax_indicator; [done | done |].
    intros r Hr. destruct Hsame as [_ Hs].
    rewrite <- (Hs r 0) by (simpl; lia). by apply Hv. }
  rewrite mse_columns by (simpl; lia).
  f_equal. unfold sq_err. rewrite rsum_zero_below; [lra|].
  intros r Hr. destruct Hsame as [_ Hs].
  rewrite <- (Hs r 0) by (simpl; lia). lra.
Qed.

Lemma onehot_round_trip_witness :
  ∃ v v',
    onehot_train 3 = Ok v ∧ onehot_test 3 = Ok v' ∧ same_array v v' ∧
    shape v = (10, 1) ∧
    (∀ r, r < 10 → item v r 0 = if decide (r = Z.to_nat 3) then 1%R else 0%R) ∧
    argmax v = Ok (Z.to_nat 3) ∧ argmax v' = Ok (Z.to_nat 3) ∧
    mse v v' = Ok 0%R.
Proof. apply (onehot_round_trip 3). lia. Defined.

(** ** The update of the output layer is a step of gradient descent *)

Lemma with_entry_shapes (Ws : list ndarray) (i r c : nat) (t : R) :
  shape <$> with_entry Ws i r c t = shape <$> Ws.
Proof.
  unfold with_entry. revert i.
  induction Ws as [|w Ws IH]; intros [|i]; try done.
  cbn. f_equal. apply IH.
Qed.

Lemma with_entry_lookup (Ws : list ndarray) (i r c : nat) (t : R)
    (w : ndarray) :
  Ws !! i = Some w →
  with_entry Ws i r c t !! i = Some (set_entry w r c t) ∧
  ∀ j, j ≠ i → with_entry Ws i r c t !! j = Ws !! j.
Proof.
  intros Hw. unfold with_entry. split.
  - by rewrite list_lookup_alter_eq, Hw.
  - intros j Hj. by rewrite list_lookup_alter_ne.
Qed.

(** Two forward passes on the same input agree up to layer [i] when their
    parameters agree up to layer [i]. *)
Lemma forward_contract_agree (sizes : list nat) (Ws Bs Ws' Bs' : list ndarray)
    (x : ndarray) (K : nat) (Zs Zs' : list (option ndarray))
    (As As' : list ndarray) :
  forward_contract sizes Ws Bs x K Zs As →
  forward_contract sizes Ws' Bs' x K Zs' As' →
  ∀ i, i ≤ K →
    (∀ j, 1 ≤ j ≤ i → Ws' !! j = Ws !! j ∧ Bs' !! j = Bs !! j) →
    ∀ a a', As !! i = Some a → As' !! i = Some a' →
      ∀ r, r < nth i sizes 0 → item a r 0 = item a' r 0.
Proof.
  intros (_ & _ & H0 & _ & Hlay) (_ & _ & H0' & _ & Hlay').
  induction i as [|i IH]; intros Hi Hsame a a' Ea Ea' r Hr.
  - rewrite H0 in Ea. rewrite H0' in Ea'. by simplify_eq.
  - destruct (Hlay (S i)) as (w & b & ap & z & Ew & Eb & Eap & _ & Ez & _ & _ & Hz);
      [lia|].
    destruct (Hlay' (S i))
      as (w' & b' & ap' & z' & Ew' & Eb' & Eap' & _ & Ez' & _ & _ & Hz');
      [lia|].
    destruct (Hsame (S i)) as [HW HB]; [lia|].
    rewrite Ew, Ew' in HW. rewrite Eb, Eb' in HB.
    rewrite Ea in Ez. rewrite Ea' in Ez'. simplify_eq.
    rewrite !sigmoid_item, Hz, Hz' by done. f_equal. f_equal.
    apply rsum_ext. intros c Hc. f_equal.
    replace (S i - 1) with i in * by lia.
    apply (IH ltac:(lia)); try done.
    intros j Hj. apply Hsame. lia.
Qed.

(** The output of a forward pass whose parameters differ from those of a
    known pass in the output layer only. *)
Lemma forward_pass_output_layer (sizes : list nat)
    (Ws Bs Ws' Bs' : list ndarray) (x : ndarray)
    (Zs : list (option ndarray)) (As : list ndarray) (w' b' ap : ndarray) :
  2 ≤ length sizes →
  forward_contract sizes Ws Bs x (length sizes - 1) Zs As →
  consistent sizes Ws' Bs' → shape x = (nth 0 sizes 0, 1) →
  (∀ j, j ≠ length sizes - 1 → Ws' !! j = Ws !! j ∧ Bs' !! j = Bs !! j) →
  Ws' !! (length sizes - 1) = Some w' → Bs' !! (length sizes - 1) = Some b' →
  As !! (length sizes - 2) = Some ap →
  ∃ out,
    forward_pass Ws' Bs' x true = Ok out ∧
    shape out = (nth (length sizes - 1) sizes 0, 1) ∧
    ∀ j, j < nth (length sizes - 1) sizes 0 →
      item out j 0 =
      sigma (rsum (λ c, item w' j c * item ap c 0)
                  (nth (length sizes - 2) sizes 0%nat)
             + item b' j 0)%R.
Proof.
  intros Hlen Hct Hc' Hx Hsame Ew' Eb' Eap.
  destruct (forward_pass_full sizes Ws' Bs' x Hc') as (Zs' & As' & Hfp & Hct');
    [intros ->; simpl in Hlen; lia | done |].
  pose proof Hct' as (_ & HA' & _ & Hsh' & Hlay').
  destruct (Hlay' (length sizes - 1))
    as (w & b & ap' & z' & Ew & Eb & Eap' & _ & Ea' & _ & Sz & Hz'); [lia|].
  rewrite Ew' in Ew. rewrite Eb' in Eb. simplify_eq.
  replace (length sizes - 1 - 1) with (length sizes - 2) in * by lia.
  exists (sigmoid z'). split; [|split; [done|]].
  - rewrite (forward_pass_modes _ _ _ _ _ Hfp), py_index_minus1, HA'.
    replace (S (length sizes - 1) - 1) with (length sizes - 1) by lia.
    by rewrite Ea'.
  - intros j Hj. rewrite sigmoid_item, Hz' by done. f_equal. f_equal.
    apply rsum_ext. intros c Hc. f_equal. symmetry.
    apply (forward_contract_agree sizes Ws Bs Ws' Bs' x (length sizes - 1)
             Zs Zs' As As' Hct Hct' (length sizes - 2)); try done; [lia|].
    intros i Hi. apply Hsame. lia.
Qed.

Lemma rsum_one_entry (f g : nat → R) (c n : nat) (t : R) :
  c < n →
  rsum (λ k, (if decide (k = c) then t else f k) * g k)%R n
  = (rsum (λ k, f k * g k) n + g c * (t - f c))%R.
Proof.
  induction n as [|n IH]; intros Hc; [lia|]. simpl.
  destruct (decide (n = c)) as [->|Hne].
  - rewrite (rsum_ext _ (λ k, f k * g k)%R).
    + lra.
    + intros k Hk. by rewrite decide_False by lia.
  - rewrite IH by lia. lra.
Qed.

(** The loss as a function of one output pre-activation that moves along
    a line. *)
Lemma loss_along_line (zL y : ndarray) (r : nat) (k t0 : R) :
  r < 10 →
  derivable_pt_lim
    (λ t, 0.5 * rsum (λ j, (sigma (if decide (j = r)
                                   then item zL r 0 + k * (t - t0)
                                   else item zL j 0)
                            - item y j 0) ^ 2) 10)%R
    t0
    ((sigma (item zL r 0) - item y r 0) * dsigma (item zL r 0) * k)%R.
Proof.
  intros Hr.
  pose (h := (λ t, item zL r 0 + k * (t - t0))%R).
  assert (derivable_pt_lim h t0 k) as Hh.
  { apply (derivable_pt_lim_ext
             (fct_cte (item zL r 0) + mult_real_fct k (id - fct_cte t0))%F).
    - intros t. unfold h, plus_fct, mult_real_fct, minus_fct, fct_cte, id.
      done.
    - replace k with (0 + k * (1 - 0))%R at 2 by lra.
      apply derivable_pt_lim_plus; [apply derivable_pt_lim_const|].
      apply derivable_pt_lim_scal.
      apply derivable_pt_lim_minus;
        [apply derivable_pt_lim_id | apply derivable_pt_lim_const]. }
  assert (h t0 = item zL r 0) as Hh0 by (unfold h; lra).
  assert (derivable_pt_lim
            (comp (λ u, (sigma u - item y r 0) ^ 2)%R h) t0
            (2 * (sigma (item zL r 0) - item y r 0) * dsigma (item zL r 0)
             * k)%R) as Hterm.
  { apply derivable_pt_lim_comp; [done|]. rewrite Hh0.
    apply squared_error_derivative. }
  apply (derivable_pt_lim_ext
           (mult_real_fct 0.5
              (λ t, rsum (λ j, (if decide (j = r)
                                then comp (λ u, (sigma u - item y r 0) ^ 2) h
                                else (λ _, (sigma (item zL j 0)
                                            - item y j 0) ^ 2)) t) 10))%R).
  - intros t. unfold mult_real_fct. f_equal. apply rsum_ext. intros j Hj.
    destruct (decide (j = r)) as [->|Hne]; done.
  - replace ((sigma (item zL r 0) - item y r 0) * dsigma (item zL r 0) * k)%R
      with (0.5 * rsum (λ j, if decide (j = r)
                             then (2 * (sigma (item zL r 0) - item y r 0)
                                   * dsigma (item zL r 0) * k)
                             else 0) 10)%R
      by (rewrite rsum_indicator by done; lra).
    apply derivable_pt_lim_scal.
    apply (derivable_pt_lim_rsum
             (λ j, if decide (j = r)
                   then comp (λ u, (sigma u - item y r 0) ^ 2) h
                   else (λ _, (sigma (item zL j 0) - item y j 0) ^ 2))%R).
    intros j Hj. destruct (decide (j = r)) as [->|Hne];
      [done | apply derivable_pt_lim_const].
Qed.



(** ** Every update is a step of gradient descent *)

Lemma rsum_plus (f g : nat → R) (n : nat) :
  rsum (λ k, f k + g k)%R n = (rsum f n + rsum g n)%R.
Proof. induction n as [|n IH]; simpl; [lra|]. rewrite IH. lra. Qed.

Lemma rsum_scal (c : R) (f : nat → R) (n : nat) :
  (c * rsum f n)%R = rsum (λ k, c * f k)%R n.
Proof. induction n as [|n IH]; simpl; [lra|]. rewrite <- IH. lra. Qed.

Lemma rsum_swap (f : nat → nat → R) (n m : nat) :
  rsum (λ k, rsum (λ r, f k r) m) n = rsum (λ r, rsum (λ k, f k r) n) m.
Proof.
  induction n as [|n IH]; simpl.
  - by rewrite rsum_zero.
  - by rewrite rsum_plus, IH.
Qed.

Lemma rsum_pick (f : nat → R) (v : R) (r n : nat) :
  r < n →
  rsum (λ k, f k * (if decide (k = r) then v else 0))%R n = (f r * v)%R.
Proof.
  intros Hr.
  rewrite (rsum_ext _ (λ k, if decide (k = r) then (f r * v)%R else 0%R)).
  - by apply rsum_indicator.
  - intros k Hk. destruct (decide (k = r)) as [->|?]; lra.
Qed.

(** The error signals pull a direction back through one layer. *)
Lemma adjoint_step (Wn : nat → nat → R) (dn T s : nat → R) (n m : nat) :
  rsum (λ k, dn k * rsum (λ r, Wn k r * (s r * T r)) m)%R n
  = rsum (λ r, rsum (λ k, Wn k r * dn k) n * s r * T r)%R m.
Proof.
  rewrite (rsum_ext _ (λ k, rsum (λ r, dn k * (Wn k r * (s r * T r))) m)%R)
    by (intros; apply rsum_scal).
  rewrite rsum_swap. apply rsum_ext. intros r Hr.
  replace (rsum (λ k, Wn k r * dn k) n * s r * T r)%R
    with ((s r * T r) * rsum (λ k, Wn k r * dn k) n)%R by lra.
  rewrite rsum_scal. apply rsum_ext. intros k Hk. lra.
Qed.

Lemma affine_entry_ext (w b w' b' : ndarray) (n : nat) (a a' : nat → R)
    (r : nat) :
  (∀ c, item w' r c = item w r c) → item b' r 0 = item b r 0 →
  (∀ c, c < n → a' c = a c) →
  affine_entry w' b' n a' r = affine_entry w b n a r.
Proof.
  intros Hw Hb Ha. unfold affine_entry. rewrite Hb. f_equal.
  apply rsum_ext. intros c Hc. by rewrite Hw, Ha.
Qed.

Lemma act_entry_ext (sizes : list nat) (Ws Bs Ws' Bs' : list ndarray)
    (x : ndarray) (i : nat) :
  (∀ j, 1 ≤ j ≤ i → same_items Ws Ws' j ∧ same_items Bs Bs' j) →
  ∀ r, act_entry sizes Ws' Bs' x i r = act_entry sizes Ws Bs x i r.
Proof.
  induction i as [|i IH]; intros H r; [done|].
  cbn [act_entry]. f_equal.
  destruct (H (S i)) as [HW HB]; [lia|].
  apply affine_entry_ext; [apply HW | apply HB |].
  intros c Hc. apply IH. intros j Hj. apply H. lia.
Qed.

Lemma pre_entry_ext (sizes : list nat) (Ws Bs Ws' Bs' : list ndarray)
    (x : ndarray) (k : nat) :
  (∀ j, 1 ≤ j ≤ S k → same_items Ws Ws' j ∧ same_items Bs Bs' j) →
  ∀ r, pre_entry sizes Ws' Bs' x k r = pre_entry sizes Ws Bs x k r.
Proof.
  intros H r. unfold pre_entry.
  destruct (H (S k)) as [HW HB]; [lia|].
  apply affine_entry_ext; [apply HW | apply HB |].
  intros c Hc. apply act_entry_ext. intros j Hj. apply H. lia.
Qed.

(** The arrays of a forward pass hold the entries of the recurrence. *)
Lemma contract_act_entries (sizes : list nat) (Ws Bs : list ndarray)
    (x : ndarray) (K : nat) (Zs : list (option ndarray)) (As : list ndarray) :
  forward_contract sizes Ws Bs x K Zs As →
  ∀ i, i ≤ K → ∀ a, As !! i = Some a →
    ∀ r, r < nth i sizes 0 → item a r 0 = act_entry sizes Ws Bs x i r.
Proof.
  intros (_ & _ & H0 & _ & Hlay).
  induction i as [|i IH]; intros Hi a Ea r Hr.
  - rewrite H0 in Ea. by injection Ea as <-.
  - destruct (Hlay (S i)) as (w & b & ap & z & Ew & Eb & Eap & _ & Ez & _ & _ & Hz);
      [lia|].
    rewrite Ea in Ez. injection Ez as ->.
    replace (S i - 1) with i in * by lia.
    rewrite sigmoid_item, Hz by done. cbn [act_entry]. f_equal.
    rewrite (nth_lookup_Some Ws (S i) placeholder w Ew).
    rewrite (nth_lookup_Some Bs (S i) placeholder b Eb).
    unfold affine_entry. f_equal. apply rsum_ext. intros c Hc. f_equal.
    apply (IH ltac:(lia) ap Eap c Hc).
Qed.

Lemma contract_pre_entries (sizes : list nat) (Ws Bs : list ndarray)
    (x : ndarray) (K : nat) (Zs : list (option ndarray)) (As : list ndarray) :
  forward_contract sizes Ws Bs x K Zs As →
  ∀ k, S k ≤ K → ∀ z, Zs !! S k = Some (Some z) →
    ∀ r, r < nth (S k) sizes 0 → item z r 0 = pre_entry sizes Ws Bs x k r.
Proof.
  intros Hct k Hk z Ez r Hr.
  pose proof Hct as (_ & _ & _ & _ & Hlay).
  destruct (Hlay (S k)) as (w & b & ap & z' & Ew & Eb & Eap & Ez' & _ & _ & _ & Hz);
    [lia|].
  rewrite Ez in Ez'. injection Ez' as <-.
  replace (S k - 1) with k in * by lia.
  rewrite Hz by done. unfold pre_entry, affine_entry.
  rewrite (nth_lookup_Some Ws (S k) placeholder w Ew).
  rewrite (nth_lookup_Some Bs (S k) placeholder b Eb).
  f_equal. apply rsum_ext. intros c Hc. f_equal.
  apply (contract_act_entries sizes Ws Bs x K Zs As Hct k ltac:(lia) ap Eap c Hc).
Qed.

(** The loss of an example, from the entries of the last pre-activation. *)
Lemma example_loss_formula (sizes : list nat) (Ws Bs : list ndarray)
    (x y : ndarray) (k : nat) :
  consistent sizes Ws Bs → length sizes = S (S k) →
  shape x = (nth 0 sizes 0, 1) → shape y = (nth (S k) sizes 0, 1) →
  10 ≤ nth (S k) sizes 0 →
  example_loss Ws Bs x y
  = Ok (0.5 * rsum (λ j, (sigma (pre_entry sizes Ws Bs x k j)
                          - item y j 0) ^ 2) 10)%R.
Proof.
  intros Hc Hlen Hx Hy Hout.
  destruct (forward_pass_full sizes Ws Bs x Hc) as (Zs & As & Hfp & Hct);
    [intros E; by rewrite E in Hlen | done |].
  replace (length sizes - 1) with (S k) in Hct by lia.
  pose proof Hct as (_ & HA & _ & _ & Hlay).
  destruct (Hlay (S k)) as (w & b & ap & z & _ & _ & _ & Ez & Ea & _ & Sz & _);
    [lia|].
  injection Sz as Szr Szc. injection Hy as Hyr Hyc.
  unfold example_loss.
  rewrite (forward_pass_modes _ _ _ _ _ Hfp), py_index_minus1, HA.
  replace (S (S k) - 1) with (S k) by lia. rewrite Ea, bind_Ok.
  rewrite mse_columns by (done || (cbn [sigmoid amap nrows]; lia)).
  do 2 f_equal. unfold sq_err. apply rsum_ext. intros j Hj.
  rewrite sigmoid_item.
  by rewrite (contract_pre_entries sizes Ws Bs x (S k) Zs As Hct k
                ltac:(lia) z Ez j ltac:(lia)).
Qed.

(** The loss along a differentiable motion of the last pre-activation. *)
Lemma loss_derivative (g : nat → R → R) (l : nat → R) (y : ndarray) (t0 : R) :
  (∀ j, j < 10 → derivable_pt_lim (g j) t0 (l j)) →
  derivable_pt_lim
    (λ t, 0.5 * rsum (λ j, (sigma (g j t) - item y j 0) ^ 2) 10)%R t0
    (rsum (λ j, (sigma (g j t0) - item y j 0) * dsigma (g j t0) * l j) 10)%R.
Proof.
  intros Hg.
  replace (rsum (λ j, (sigma (g j t0) - item y j 0) * dsigma (g j t0) * l j)
                10)%R
    with (0.5 * rsum (λ j, 2 * (sigma (g j t0) - item y j 0)
                           * dsigma (g j t0) * l j) 10)%R.
  2:{ rewrite rsum_scal. apply rsum_ext. intros j Hj. lra. }
  apply (derivable_pt_lim_scal
           (λ t, rsum (λ j, comp (λ u, (sigma u - item y j 0) ^ 2) (g j) t)
                      10)%R).
  apply (derivable_pt_lim_rsum
           (λ j, comp (λ u, (sigma u - item y j 0) ^ 2) (g j))%R).
  intros j Hj. apply derivable_pt_lim_comp; [by apply Hg|].
  apply squared_error_derivative.
Qed.

(** The error signals of the layers above [p + 1] carry a direction at
    the output back to the direction [d0] at layer [p + 1]. *)
Lemma delta_tangent_chain (sizes : list nat) (Ws Bs : list ndarray)
    (x y : ndarray) (L : nat) (Zs : list (option ndarray)) (As : list ndarray)
    (deltas : gmap Z ndarray) (p : nat) (d0 : nat → R) (d : ndarray) :
  forward_contract sizes Ws Bs x L Zs As →
  delta_contract sizes Ws Zs As y L 1 deltas →
  deltas !! Z.of_nat (S p) = Some d →
  ∀ m, S (p + m) ≤ L →
    ∀ dm, deltas !! Z.of_nat (S (p + m)) = Some dm →
      rsum (λ k, item dm k 0 * tangent sizes Ws Bs x p d0 m k)%R
           (nth (S (p + m)) sizes 0)
      = rsum (λ r, item d r 0 * d0 r)%R (nth (S p) sizes 0).
Proof.
  intros Hct Hdel Ed. induction m as [|m IH]; intros Hm dm Edm.
  - rewrite Nat.add_0_r in *. rewrite Ed in Edm. by injection Edm as <-.
  - rewrite Nat.add_succ_r in Hm, Edm. rewrite Nat.add_succ_r.
    destruct (Hdel (S (p + m))) as (di & zi & Edi & Ezi & _ & _ & Hlt); [lia|].
    destruct Hlt as (w & dn & Ew & Edn & Hd); [lia|].
    rewrite Edm in Edn. injection Edn as <-.
    cbn [tangent]. rewrite (nth_lookup_Some Ws _ placeholder w Ew).
    rewrite (adjoint_step (λ k r, item w k r) (λ k, item dm k 0)
               (tangent sizes Ws Bs x p d0 m)
               (λ r, dsigma (pre_entry sizes Ws Bs x (p + m) r))).
    rewrite <- (IH ltac:(lia) di Edi).
    apply rsum_ext. intros r Hr. rewrite (Hd r Hr).
    by rewrite (contract_pre_entries sizes Ws Bs x L Zs As Hct (p + m)
                  ltac:(lia) zi Ezi r Hr).
Qed.

Section Family.
Variables (sizes : list nat) (Ws Bs : list ndarray) (x y : ndarray).
Variables (p : nat) (Wf Bf : R → list ndarray) (t0 : R) (d0 : nat → R).
Hypothesis Hother :
  ∀ t j, j ≠ S p → same_items Ws (Wf t) j ∧ same_items Bs (Bf t) j.
Hypothesis Hat0 : ∀ j, same_items Ws (Wf t0) j ∧ same_items Bs (Bf t0) j.
Hypothesis Hbase :
  ∀ r, derivable_pt_lim (λ t, pre_entry sizes (Wf t) (Bf t) x p r) t0 (d0 r).

(** The pre-activations above the layer that moves follow [tangent]. *)
Lemma tangent_pre (m : nat) :
  ∀ k, derivable_pt_lim (λ t, pre_entry sizes (Wf t) (Bf t) x (p + m) k) t0
                        (tangent sizes Ws Bs x p d0 m k).
Proof.
  induction m as [|m IH]; intros k.
  - rewrite Nat.add_0_r. apply Hbase.
  - rewrite Nat.add_succ_r. cbn [tangent].
    set (n := nth (S (p + m)) sizes 0).
    set (w := nth (S (S (p + m))) Ws placeholder).
    set (b := nth (S (S (p + m))) Bs placeholder).
    apply (derivable_pt_lim_ext
             (λ t, rsum (λ c, mult_real_fct (item w k c)
                                (comp sigma
                                   (λ t, pre_entry sizes (Wf t) (Bf t) x
                                                   (p + m) c)) t) n
                   + fct_cte (item b k 0) t)%R).
    + intros t. symmetry. unfold pre_entry at 1.
      destruct (Hother t (S (S (p + m)))) as [HW HB]; [lia|].
      unfold affine_entry. rewrite HB. fold b. unfold fct_cte. f_equal.
      apply rsum_ext. intros c Hc. rewrite HW. done.
    + replace (rsum (λ r, item w k r
                          * (dsigma (pre_entry sizes Ws Bs x (p + m) r)
                             * tangent sizes Ws Bs x p d0 m r)) n)%R
        with (rsum (λ r, item w k r
                         * (dsigma (pre_entry sizes (Wf t0) (Bf t0) x
                                              (p + m) r)
                            * tangent sizes Ws Bs x p d0 m r)) n + 0)%R.
      2:{ rewrite Rplus_0_r. apply rsum_ext. intros r Hr.
          rewrite (pre_entry_ext sizes Ws Bs (Wf t0) (Bf t0)); [done|].
          intros j _. apply Hat0. }
      apply (derivable_pt_lim_plus
               (λ t, rsum (λ c, mult_real_fct (item w k c)
                                  (comp sigma
                                     (λ t, pre_entry sizes (Wf t) (Bf t) x
                                                     (p + m) c)) t) n)
               (fct_cte (item b k 0))); [|apply derivable_pt_lim_const].
      apply (derivable_pt_lim_rsum
               (λ c, mult_real_fct (item w k c)
                       (comp sigma
                          (λ t, pre_entry sizes (Wf t) (Bf t) x (p + m) c)))).
      intros c Hc. apply derivable_pt_lim_scal.
      apply (derivable_pt_lim_comp
               (λ t, pre_entry sizes (Wf t) (Bf t) x (p + m) c) sigma);
        [apply IH | apply sigma_derivative].
Qed.

Variables (m : nat) (Zs : list (option ndarray)) (As : list ndarray).
Variables (deltas : gmap Z ndarray) (d : ndarray).
Hypothesis Hlen : length sizes = S (S (p + m)).
Hypothesis Hx : shape x = (nth 0 sizes 0, 1).
Hypothesis Hy : shape y = (nth (S (p + m)) sizes 0, 1).
Hypothesis Hten : nth (S (p + m)) sizes 0 = 10.
Hypothesis Hcf : ∀ t, consistent sizes (Wf t) (Bf t).
Hypothesis Hct : forward_contract sizes Ws Bs x (S (p + m)) Zs As.
Hypothesis Hdel : delta_contract sizes Ws Zs As y (S (p + m)) 1 deltas.
Hypothesis Ed : deltas !! Z.of_nat (S p) = Some d.

(** The loss along a motion of the parameters of layer [p + 1]: its
    derivative is the error signal of that layer applied to the motion of
    the layer's pre-activation. *)
Lemma family_gradient :
  derivable_pt_lim (λ t, value_or_0 (example_loss (Wf t) (Bf t) x y)) t0
                   (rsum (λ r, item d r 0 * d0 r)%R (nth (S p) sizes 0)).
Proof.
  apply (derivable_pt_lim_ext
           (λ t, 0.5 * rsum (λ j, (sigma (pre_entry sizes (Wf t) (Bf t) x
                                                    (p + m) j)
                                   - item y j 0) ^ 2) 10)%R).
  { intros t.
    rewrite (example_loss_formula sizes (Wf t) (Bf t) x y (p + m));
      try done; try apply Hcf; lia. }
  destruct (Hdel (S (p + m))) as (dL & zL & EdL & EzL & _ & HL & _); [lia|].
  destruct (HL eq_refl) as (aL & EaL & HdL).
  pose proof Hct as (_ & _ & _ & _ & Hlay).
  destruct (Hlay (S (p + m))) as (_ & _ & _ & z & _ & _ & _ & Ez & Ea & _);
    [lia|].
  rewrite EzL in Ez. injection Ez as <-.
  rewrite EaL in Ea. injection Ea as ->.
  rewrite <- (delta_tangent_chain sizes Ws Bs x y (S (p + m)) Zs As deltas p
                d0 d Hct Hdel Ed m ltac:(lia) dL EdL).
  rewrite Hten.
  rewrite (rsum_ext (λ k, item dL k 0 * tangent sizes Ws Bs x p d0 m k)%R
             (λ j, (sigma (pre_entry sizes (Wf t0) (Bf t0) x (p + m) j)
                    - item y j 0)
                   * dsigma (pre_entry sizes (Wf t0) (Bf t0) x (p + m) j)
                   * tangent sizes Ws Bs x p d0 m j)%R).
  - apply (loss_derivative
             (λ j t, pre_entry sizes (Wf t) (Bf t) x (p + m) j)
             (tangent sizes Ws Bs x p d0 m) y t0).
    intros j _. apply tangent_pre.
  - intros j Hj. rewrite HdL by lia. rewrite sigmoid_item.
    rewrite (contract_pre_entries sizes Ws Bs x (S (p + m)) Zs As Hct (p + m)
               ltac:(lia) zL EzL j ltac:(lia)).
    rewrite (pre_entry_ext sizes Ws Bs (Wf t0) (Bf t0)); [done|].
    intros i _. apply Hat0.
Qed.

End Family.

Lemma same_items_refl (Ws : list ndarray) (j : nat) : same_items Ws Ws j.
Proof. done. Qed.

Lemma with_entry_same_items_ne (Ws : list ndarray) (i r c : nat) (t : R)
    (j : nat) :
  j ≠ i → same_items Ws (with_entry Ws i r c t) j.
Proof.
  intros Hj r' c'. unfold with_entry.
  by rewrite !nth_lookup, list_lookup_alter_ne.
Qed.

Lemma with_entry_nth (Ws : list ndarray) (i r c : nat) (t : R) (w : ndarray) :
  Ws !! i = Some w →
  nth i (with_entry Ws i r c t) placeholder = set_entry w r c t.
Proof.
  intros Ew. apply nth_lookup_Some.
  by destruct (with_entry_lookup Ws i r c t w Ew) as [-> _].
Qed.

Lemma with_entry_same_items_at (Ws : list ndarray) (i r c : nat)
    (w : ndarray) (j : nat) :
  Ws !! i = Some w → same_items Ws (with_entry Ws i r c (item w r c)) j.
Proof.
  intros Ew. destruct (decide (j = i)) as [->|Hne];
    [|by apply with_entry_same_items_ne].
  intros r' c'.
  rewrite (with_entry_nth Ws i r c _ w Ew), (nth_lookup_Some Ws i _ w Ew).
  cbn [set_entry item]. case_decide as H; [|done]. by destruct H as [-> ->].
Qed.

Lemma affine_derivative (C k u x : R) :
  derivable_pt_lim (λ t, C + k * (t - u))%R x k.
Proof.
  assert (derivable_pt_lim (fct_cte C + mult_real_fct k (id - fct_cte u))%F x
                           (0 + k * (1 - 0))%R) as H.
  { apply derivable_pt_lim_plus; [apply derivable_pt_lim_const|].
    apply derivable_pt_lim_scal.
    apply derivable_pt_lim_minus;
      [apply derivable_pt_lim_id | apply derivable_pt_lim_const]. }
  replace (0 + k * (1 - 0))%R with k in H by lra. exact H.
Qed.

(** How the pre-activation of a layer moves with one of its biases. *)
Lemma bias_moves (sizes : list nat) (Ws Bs : list ndarray) (x : ndarray)
    (p r0 : nat) (b : ndarray) :
  Bs !! S p = Some b →
  ∀ r, derivable_pt_lim
         (λ t, pre_entry sizes Ws (with_entry Bs (S p) r0 0 t) x p r)
         (item b r0 0) (if decide (r = r0) then 1%R else 0%R).
Proof.
  intros Eb r.
  apply (derivable_pt_lim_ext
           (λ t, rsum (λ c, item (nth (S p) Ws placeholder) r c
                            * act_entry sizes Ws Bs x p c) (nth p sizes 0%nat)
                 + (if decide (r = r0) then t else item b r 0))%R).
  - intros t. unfold pre_entry, affine_entry.
    rewrite (with_entry_nth Bs (S p) r0 0 t b Eb). cbn [set_entry item].
    f_equal.
    + apply rsum_ext. intros c Hc. f_equal. symmetry.
      apply act_entry_ext. intros j Hj.
      split; [apply same_items_refl | apply with_entry_same_items_ne; lia].
    + destruct (decide (r = r0)) as [->|Hne].
      * by rewrite decide_True.
      * by rewrite decide_False by (intros [? _]; done).
  - destruct (decide (r = r0)) as [->|Hne].
    + replace 1%R with (0 + 1)%R by lra.
      apply (derivable_pt_lim_plus
               (fct_cte (rsum (λ c, item (nth (S p) Ws placeholder) r0 c
                                    * act_entry sizes Ws Bs x p c)%R
                              (nth p sizes 0%nat))) id);
        [apply derivable_pt_lim_const | apply derivable_pt_lim_id].
    + apply (derivable_pt_lim_const
               (rsum (λ c, item (nth (S p) Ws placeholder) r c
                           * act_entry sizes Ws Bs x p c)%R (nth p sizes 0%nat)
                + item b r 0)%R).
Qed.

(** How the pre-activation of a layer moves with one of its weights. *)
Lemma weight_moves (sizes : list nat) (Ws Bs : list ndarray) (x : ndarray)
    (p r0 c0 : nat) (w : ndarray) :
  Ws !! S p = Some w → c0 < nth p sizes 0 →
  ∀ r, derivable_pt_lim
         (λ t, pre_entry sizes (with_entry Ws (S p) r0 c0 t) Bs x p r)
         (item w r0 c0)
         (if decide (r = r0) then act_entry sizes Ws Bs x p c0 else 0%R).
Proof.
  intros Ew Hc0 r.
  set (a := act_entry sizes Ws Bs x p).
  set (C := (rsum (λ c, item w r c * a c) (nth p sizes 0%nat)
             + item (nth (S p) Bs placeholder) r 0)%R).
  apply (derivable_pt_lim_ext
           (λ t, C + (if decide (r = r0) then a c0 * (t - item w r0 c0)
                      else 0))%R).
  - intros t. unfold pre_entry, affine_entry, C.
    rewrite (with_entry_nth Ws (S p) r0 c0 t w Ew). cbn [set_entry item].
    assert (∀ c, act_entry sizes (with_entry Ws (S p) r0 c0 t) Bs x p c = a c)
      as Ha.
    { intros c. apply act_entry_ext. intros j Hj.
      split; [apply with_entry_same_items_ne; lia | apply same_items_refl]. }
    destruct (decide (r = r0)) as [->|Hne].
    + rewrite (rsum_ext
                 (λ c, (if decide (r0 = r0 ∧ c = c0) then t else item w r0 c)
                       * act_entry sizes (with_entry Ws (S p) r0 c0 t) Bs x p c)%R
                 (λ c, (if decide (c = c0) then t else item w r0 c) * a c)%R).
      * rewrite rsum_one_entry by done. lra.
      * intros c Hc. rewrite Ha. destruct (decide (c = c0)) as [->|Hne].
        -- by rewrite decide_True.
        -- by rewrite decide_False by (intros [_ ?]; done).
    + rewrite Rplus_0_r. f_equal. apply rsum_ext. intros c Hc.
      rewrite Ha. by rewrite decide_False by (intros [? _]; done).
  - destruct (decide (r = r0)) as [->|Hne].
    + apply affine_derivative.
    + apply (derivable_pt_lim_const (C + 0)%R).
Qed.



(** ** Classification accuracy *)

Lemma net_predict_reads (x : ndarray) (net : DenseNetwork) :
  net_predict x net = (predict (W net) (B net) x, net).
Proof. reflexivity. Qed.

Lemma py_sum_int_foldr (l : list Z) : py_sum_int l = foldr Z.add 0%Z l.
Proof.
  unfold py_sum_int.
  assert (∀ a, foldl Z.add a l = (a + foldr Z.add 0 l)%Z) as H.
  { induction l as [|h l IH]; intros a; simpl; [lia|]. rewrite IH. lia. }
  rewrite H. lia.
Qed.

(** The comprehension of the accuracy expression: it leaves the object as
    it is, raises what [predict] raises, and otherwise holds one 0 or 1 per
    pair, all 1 exactly when every pair is classified as its label. *)
Lemma comprehension_hits (l : list (ndarray * Z)) (net : DenseNetwork) :
  ∃ r, comprehension is_hit l net = (r, net) ∧
       match r with
       | Ok hits =>
           (0 <= foldr Z.add 0 hits <= Z.of_nat (length l))%Z ∧
           (foldr Z.add 0%Z hits = Z.of_nat (length l) ↔
            Forall (classified net) l)
       | Raise e => index_or_value e
       end.
Proof.
  induction l as [|[x y] l IH].
  - exists (Ok []). split; [done|]. simpl. split; [lia|]. done.
  - destruct IH as (r & Hr & Hprop).
    cbn [comprehension]. unfold mthen at 1. unfold is_hit at 1.
    unfold mthen at 1. rewrite net_predict_reads.
    destruct (predict (W net) (B net) x) as [k|e] eqn:Ep.
    2:{ exists (Raise e). split; [done|]. by apply predict_raise in Ep. }
    unfold mpure at 1. unfold mthen. rewrite Hr.
    destruct r as [hits|e]; [|by exists (Raise e)].
    eexists (Ok _). split; [reflexivity|].
    destruct Hprop as [Hb Hall]. cbn [foldr length].
    destruct (Z.eqb_spec (Z.of_nat k) y) as [Hk|Hk].
    + split; [lia|]. rewrite Forall_cons. split.
      * intros Hs. split; [by exists k|]. apply Hall. lia.
      * intros [_ Hl]. apply Hall in Hl. lia.
    + split; [lia|]. rewrite Forall_cons. split; [lia|].
      intros [(k' & Ek' & Hk') _]. simpl in *.
      rewrite Ep in Ek'. injection Ek' as <-. done.
Qed.


(** ** Centering a data matrix *)

Lemma rsum_minus_const (f : nat → R) (c : R) (n : nat) :
  rsum (λ i, f i - c)%R n = (rsum f n - INR n * c)%R.
Proof.
  induction n as [|n IH]; [simpl; lra|].
  cbn [rsum]. rewrite IH, S_INR. lra.
Qed.

Lemma mean_axis0_nth (X : ndarray) (j : nat) :
  j < ncols X →
  nth j (mean_axis0 X) 0%R
  = (rsum (λ i, item X i j) (nrows X) / INR (nrows X))%R.
Proof.
  intros Hj. apply nth_lookup_Some. unfold mean_axis0.
  rewrite list_lookup_fmap, lookup_seq_lt by done. done.
Qed.

Lemma center_entries (X : ndarray) :
  ∃ A, center X = Ok A ∧ shape A = shape X ∧
       ∀ i j, i < nrows X → j < ncols X →
         item A i j
         = (item X i j - rsum (λ k, item X k j) (nrows X) / INR (nrows X))%R.
Proof.
  unfold center, binop. cbn [of_rows nrows ncols length hd].
  assert (length (mean_axis0 X) = ncols X) as Hl
    by (unfold mean_axis0; by rewrite length_map, length_seq).
  rewrite Hl, bdim_same.
  assert (bdim (nrows X) 1 = Some (nrows X)) as ->.
  { unfold bdim. destruct (Nat.eqb_spec (nrows X) 1) as [->|?]; [done|].
    done. }
  eexists. split; [reflexivity|]. split; [done|].
  intros i j Hi Hj. cbn [item]. unfold bget.
  change (nrows (of_rows [mean_axis0 X])) with 1.
  change (ncols (of_rows [mean_axis0 X])) with (length (mean_axis0 X)).
  rewrite Hl, !bidx_lt by done.
  change (bidx 1 i) with 0. cbn [of_rows item nth].
  by rewrite mean_axis0_nth.
Qed.


